(** * code-detox: the module dependency graph and the detection passes

    A shallow embedding of the TypeScript sources
    - [src/utils/fileUtils.ts]   (FileUtils)
    - [src/utils/astParser.ts]   (ASTParser)
    - [src/core/graphBuilder.ts] (GraphBuilder)
    - [src/core/staleDetector.ts], [src/core/unusedFinder.ts],
      [src/core/deadCodeDetector.ts], [src/core/configAnalyzer.ts]
    together with the properties the specification states about them.

    Conventions.  JavaScript exceptions are results [Ret]/[Raise]; code
    that mutates an array, a [Map] or a [Set] while it may throw is
    written in a small state-and-exception monad in which the mutations
    made before a throw survive it, exactly as they do in the source.
    A JavaScript [Map] is an insertion-ordered association list; a [Set]
    that is only queried is a [gset], one that is also iterated is an
    insertion-ordered list.  The Babel parser, Node's [path] module, the
    file system and [glob] are parameters of the development. *)

From Stdlib Require Import String Ascii List ZArith Lia Bool Permutation.
From stdpp Require Import base decidable option list gmap strings.
Import ListNotations.

Local Open Scope string_scope.
Local Open Scope list_scope.

Set Default Proof Using "Type".
#[local] Set Warnings "-clear-no-such-hyp".

(* ===================================================================== *)
(** * JavaScript strings *)
(* ===================================================================== *)

Module JsString.

(** [s.startsWith(p)] *)
Definition startsWith (s p : string) : bool := String.prefix p s.

(** [s.endsWith(p)] *)
Fixpoint endsWith (s p : string) : bool :=
  String.eqb s p ||
  match s with
  | EmptyString => false
  | String _ t => endsWith t p
  end.

(** [s.includes(p)]: [p] occurs somewhere in [s]. *)
Fixpoint includes (s p : string) : bool :=
  String.prefix p s ||
  match s with
  | EmptyString => false
  | String _ t => includes t p
  end.

(** [s.split(sep)] for a one-character separator; never empty. *)
Fixpoint split (sep : ascii) (s : string) : list string :=
  match s with
  | EmptyString => [EmptyString]
  | String c t =>
      if Ascii.eqb c sep then EmptyString :: split sep t
      else match split sep t with
           | [] => [String c EmptyString]
           | h :: r => String c h :: r
           end
  end.

(** [parts.join(sep)] *)
Fixpoint join (sep : string) (parts : list string) : string :=
  match parts with
  | [] => EmptyString
  | [p] => p
  | p :: rest => p +:+ sep +:+ join sep rest
  end.

(** ASCII lower-casing, enough for the case-insensitive patterns. *)
Definition lower_ascii (c : ascii) : ascii :=
  let n := nat_of_ascii c in
  if (65 <=? n)%nat && (n <=? 90)%nat then ascii_of_nat (n + 32) else c.

Fixpoint toLowerCase (s : string) : string :=
  match s with
  | EmptyString => EmptyString
  | String c t => String (lower_ascii c) (toLowerCase t)
  end.

(** Occurrence as a substring, as a proposition. *)
Definition occurs_in (p s : string) : Prop :=
  exists pre post, s = pre +:+ p +:+ post.

End JsString.

(* ===================================================================== *)
(** * Exceptions, and state that survives them *)
(* ===================================================================== *)

Inductive Res (A : Type) : Type :=
| Ret (a : A)
| Raise (err : string).
Arguments Ret {A} a.
Arguments Raise {A} err.

Definition res_bind {A B} (r : Res A) (k : A -> Res B) : Res B :=
  match r with
  | Ret a => k a
  | Raise e => Raise e
  end.

(** A computation over a mutable store [S] that may throw.  The store is
  returned in both cases: what was pushed before the throw stays. *)
Definition M (S A : Type) : Type := S -> S * Res A.

Module MNotations.
Declare Scope m_scope.
Delimit Scope m_scope with m.
End MNotations.
Import MNotations.

Definition mret {S A} (a : A) : M S A := fun s => (s, Ret a).

Definition mbind {S A B} (m : M S A) (k : A -> M S B) : M S B :=
  fun s => match m s with
           | (s', Ret a) => k a s'
           | (s', Raise e) => (s', Raise e)
           end.

(** A call that may throw and does not touch the store. *)
Definition lift {S A} (r : Res A) : M S A := fun s => (s, r).

Definition mget {S} : M S S := fun s => (s, Ret s).
Definition mmodify {S} (f : S -> S) : M S unit := fun s => (f s, Ret tt).

(** [try { body } catch (error) { handler }] *)
Definition try_catch {S A} (body : M S A) (handler : string -> M S A) : M S A :=
  fun s => match body s with
           | (s', Ret a) => (s', Ret a)
           | (s', Raise e) => handler e s'
           end.

Notation "'let!' x ':=' m 'in' k" := (mbind m (fun x => k))
  (at level 10, x name, m at level 100, k at level 200) : m_scope.
Notation "'do!' m 'in' k" := (mbind m (fun _ => k))
  (at level 10, m at level 100, k at level 200) : m_scope.

(** [for (const x of xs) { body }]: stops at the first throw. *)
Fixpoint for_of {S A} (xs : list A) (body : A -> M S unit) : M S unit :=
  match xs with
  | [] => mret tt
  | x :: rest => (do! body x in for_of rest body)%m
  end.

(** Run a computation on a local array that starts empty and is returned
  at the end ([const out = []; ...; return out]). *)
Definition returning_local {S A} (init : S) (m : M S A) : Res S :=
  match m init with
  | (s, Ret _) => Ret s
  | (_, Raise e) => Raise e
  end.

(* ===================================================================== *)
(** * JavaScript [Map] and [Set] with insertion order *)
(* ===================================================================== *)

Module JsMap.
Section JsMap.
Context {V : Type}.

Definition t := list (string * V).

Definition empty : t := [].

Fixpoint get (m : t) (k : string) : option V :=
  match m with
  | [] => None
  | (k', v) :: rest => if String.eqb k' k then Some v else get rest k
  end.

Definition has (m : t) (k : string) : bool :=
  match get m k with Some _ => true | None => false end.

(** [m.set(k, v)]: an existing key keeps its position. *)
Fixpoint set (m : t) (k : string) (v : V) : t :=
  match m with
  | [] => [(k, v)]
  | (k', v') :: rest =>
      if String.eqb k' k then (k', v) :: rest else (k', v') :: set rest k v
  end.

Definition keys (m : t) : list string := map fst m.

(** Mutation of the object stored under [k], through a reference
    obtained by [m.get(k)]. *)
Definition update (m : t) (k : string) (f : V -> V) : t :=
  match get m k with
  | Some v => set m k (f v)
  | None => m
  end.

End JsMap.
Arguments t V : clear implicits.
End JsMap.

Module JsSet.
(** A [Set<string>] that is iterated: elements in insertion order. *)
Definition t := list string.
Definition empty : t := [].
Definition has (s : t) (x : string) : bool := existsb (String.eqb x) s.
Definition add (s : t) (x : string) : t := if has s x then s else s ++ [x].
Definition of_list (l : list string) : t := fold_left add l empty.
End JsSet.

(* ===================================================================== *)
(** * The Babel syntax tree *)
(* ===================================================================== *)

(** A Babel node: its [type] tag, the attributes the analyses read, and
  its children in traversal order, each under the property name that
  holds it (an array-valued property contributes one entry per element).
  [binding] is what Babel's scope analysis answers at a declaration:
  [None] when [path.scope.getBinding(id.name)] is undefined, otherwise
  [Some referenced]. *)
#[warnings="-register-all"]
Inductive Node : Type :=
  mkNode (type : string)
         (line : option nat)
         (name : string)
         (value : string)
         (computed : bool)
         (binding : option bool)
         (children : list (string * Node)).

Module Ast.

Definition type (n : Node) : string := let 'mkNode t _ _ _ _ _ _ := n in t.
Definition line (n : Node) : option nat := let 'mkNode _ l _ _ _ _ _ := n in l.
Definition name (n : Node) : string := let 'mkNode _ _ x _ _ _ _ := n in x.
Definition value (n : Node) : string := let 'mkNode _ _ _ v _ _ _ := n in v.
Definition computed (n : Node) : bool := let 'mkNode _ _ _ _ c _ _ := n in c.
Definition binding (n : Node) : option bool := let 'mkNode _ _ _ _ _ b _ := n in b.
Definition children (n : Node) : list (string * Node) :=
  let 'mkNode _ _ _ _ _ _ k := n in k.

(** [node.loc?.start.line || 0] *)
Definition line_or_0 (n : Node) : nat :=
  match line n with Some l => l | None => 0 end.

(** [node[key]] for a node-valued property. *)
Definition prop (key : string) (n : Node) : option Node :=
  snd <$> find (fun kc => String.eqb (fst kc) key) (children n).

(** [node[key]] for an array-valued property. *)
Definition props (key : string) (n : Node) : list Node :=
  map snd (filter (fun kc => String.eqb (fst kc) key = true) (children n)).

Definition is_type (ty : string) (n : Node) : bool := String.eqb (type n) ty.

(** Babel's [Function] alias. *)
Definition FUNCTION_TYPES : list string :=
  [ "FunctionDeclaration"; "FunctionExpression"; "ObjectMethod";
    "ArrowFunctionExpression"; "ClassMethod"; "ClassPrivateMethod" ].

Definition isFunction (n : Node) : bool :=
  existsb (String.eqb (type n)) FUNCTION_TYPES.

Section Traverse.
Context {A : Type}.
(** A visitor sees the node, its parent and the property of the
    parent that holds it, and pushes results to an output array. *)
Variable visit : Node -> string -> Node -> list A.

(** [traverse(ast, visitor)]: the descendants of [ast] in pre-order. *)
Fixpoint traverse (ast : Node) : list A :=
  match ast with
  | mkNode _ _ _ _ _ _ kids =>
      (fix go (l : list (string * Node)) : list A :=
         match l with
         | [] => []
         | (k, c) :: rest => (visit ast k c ++ traverse c) ++ go rest
         end) kids
  end.

Definition traverse_children (parent : Node) (l : list (string * Node))
  : list A :=
  flat_map (fun kc => visit parent (fst kc) (snd kc) ++ traverse (snd kc)) l.

End Traverse.

End Ast.

(* ===================================================================== *)
(** * ASTParser  (src/utils/astParser.ts) *)
(* ===================================================================== *)

Record ImportInfo := mkImportInfo {
  imp_source : string;
  imp_specifiers : list string;
  imp_line : nat }.

Record UnreachableItem := mkUnreachableItem {
  unr_line : nat;
  unr_type : string }.

Record UnusedVarItem := mkUnusedVarItem {
  uv_name : string;
  uv_line : nat }.

Record EmptyCatchItem := mkEmptyCatchItem { ec_line : nat }.

Module ASTParser.
Section ASTParser.

(** [@babel/parser]'s [parse(code, {sourceType: 'module', plugins})];
    the boolean says whether the [typescript] plugin is on. *)
Variable babel_parse : string -> bool -> Res Node.

(** [ASTParser.parse]: rethrows a parser error with a prefix. *)
Definition parse (code : string) (isTypeScript : bool) : Res Node :=
  match babel_parse code isTypeScript with
  | Ret ast => Ret ast
  | Raise e => Raise ("Failed to parse code: " +:+ e)
  end.

(** The name of an optional identifier child; Babel always supplies
    [local] on an import specifier and [source] on an import. *)
Definition name_of (o : option Node) : string :=
  match o with Some n => Ast.name n | None => "" end.
Definition value_of (o : option Node) : string :=
  match o with Some n => Ast.value n | None => "" end.

Definition isImportBinding (n : Node) : bool :=
  Ast.is_type "ImportSpecifier" n
  || Ast.is_type "ImportDefaultSpecifier" n
  || Ast.is_type "ImportNamespaceSpecifier" n.

(** ** extractImports *)

Definition import_specifiers (decl : Node) : list string :=
  flat_map
    (fun spec =>
       if Ast.is_type "ImportDefaultSpecifier" spec then
         [name_of (Ast.prop "local" spec)]
       else if Ast.is_type "ImportSpecifier" spec then
         [name_of (Ast.prop "local" spec)]
       else if Ast.is_type "ImportNamespaceSpecifier" spec then
         [name_of (Ast.prop "local" spec)]
       else [])
    (Ast.props "specifiers" decl).

Definition visit_ImportDeclaration (parent : Node) (key : string) (n : Node)
  : list ImportInfo :=
  if Ast.is_type "ImportDeclaration" n then
    [ {| imp_source := value_of (Ast.prop "source" n);
         imp_specifiers := import_specifiers n;
         imp_line := Ast.line_or_0 n |} ]
  else [].

Definition extractImports (code : string) (isTypeScript : bool)
  : Res (list ImportInfo) :=
  res_bind (parse code isTypeScript) (fun ast =>
  Ret (Ast.traverse visit_ImportDeclaration ast)).

(** ** extractIdentifiers *)

Definition visit_Identifier (parent : Node) (key : string) (n : Node)
  : list string :=
  if Ast.is_type "Identifier" n then
    (* Skip if this is a property key or binding *)
    if (Ast.is_type "ObjectProperty" parent && String.eqb key "key")
       || (Ast.is_type "MemberExpression" parent && String.eqb key "property"
           && negb (Ast.computed parent))
    then []
    (* Skip import/export declarations *)
    else if isImportBinding parent then []
    else [Ast.name n]
  else [].

Definition extractIdentifiers (code : string) (isTypeScript : bool)
  : Res (gset string) :=
  res_bind (parse code isTypeScript) (fun ast =>
  Ret (list_to_set (Ast.traverse visit_Identifier ast))).

(** ** findUnreachableCode *)

Definition isReturnOrThrow (stmt : Node) : bool :=
  Ast.is_type "ReturnStatement" stmt || Ast.is_type "ThrowStatement" stmt.

(** The loop over [body.body], with the flag [foundReturn]. *)
Fixpoint scan_body (foundReturn : bool) (stmts : list Node)
  : list UnreachableItem :=
  match stmts with
  | [] => []
  | stmt :: rest =>
      (if foundReturn
       then [ {| unr_line := Ast.line_or_0 stmt;
                 unr_type := "unreachable-after-return" |} ]
       else [])
      ++ scan_body (foundReturn || isReturnOrThrow stmt) rest
  end.

Definition visit_Function (parent : Node) (key : string) (n : Node)
  : list UnreachableItem :=
  if Ast.isFunction n then
    match Ast.prop "body" n with
    | Some body =>
        if Ast.is_type "BlockStatement" body
        then scan_body false (Ast.props "body" body)
        else []
    | None => []
    end
  else [].

Definition findUnreachableCode (code : string) (isTypeScript : bool)
  : Res (list UnreachableItem) :=
  res_bind (parse code isTypeScript) (fun ast =>
  Ret (Ast.traverse visit_Function ast)).

(** ** findUnusedVariables *)

Definition unreferenced (n : Node) : bool :=
  match Ast.binding n with
  | Some referenced => negb referenced
  | None => false
  end.

Definition visit_Declaration (parent : Node) (key : string) (n : Node)
  : list UnusedVarItem :=
  if Ast.is_type "VariableDeclarator" n then
    match Ast.prop "id" n with
    | Some id =>
        if Ast.is_type "Identifier" id then
          if unreferenced n
          then [ {| uv_name := Ast.name id; uv_line := Ast.line_or_0 n |} ]
          else []
        else []
    | None => []
    end
  else if Ast.is_type "FunctionDeclaration" n then
    match Ast.prop "id" n with
    | Some id =>
        if unreferenced n && Ast.is_type "Program" parent
        then [ {| uv_name := Ast.name id; uv_line := Ast.line_or_0 n |} ]
        else []
    | None => []
    end
  else [].

Definition findUnusedVariables (code : string) (isTypeScript : bool)
  : Res (list UnusedVarItem) :=
  res_bind (parse code isTypeScript) (fun ast =>
  Ret (Ast.traverse visit_Declaration ast)).

(** ** findEmptyCatchBlocks *)

Definition visit_CatchClause (parent : Node) (key : string) (n : Node)
  : list EmptyCatchItem :=
  if Ast.is_type "CatchClause" n then
    match Ast.prop "body" n with
    | Some body =>
        if Nat.eqb (length (Ast.props "body" body)) 0
        then [ {| ec_line := Ast.line_or_0 n |} ]
        else []
    | None => []
    end
  else [].

Definition findEmptyCatchBlocks (code : string) (isTypeScript : bool)
  : Res (list EmptyCatchItem) :=
  res_bind (parse code isTypeScript) (fun ast =>
  Ret (Ast.traverse visit_CatchClause ast)).

(** ** extractExports *)

Definition declared_names (declaration : Node) : list string :=
  if Ast.is_type "VariableDeclaration" declaration then
    flat_map
      (fun decl => match Ast.prop "id" decl with
                   | Some id => if Ast.is_type "Identifier" id
                                then [Ast.name id] else []
                   | None => []
                   end)
      (Ast.props "declarations" declaration)
  else if Ast.is_type "FunctionDeclaration" declaration
          || Ast.is_type "ClassDeclaration" declaration then
    match Ast.prop "id" declaration with
    | Some id => [Ast.name id]
    | None => []
    end
  else [].

Definition exported_specifiers (n : Node) : list string :=
  flat_map
    (fun spec =>
       if Ast.is_type "ExportSpecifier" spec then
         match Ast.prop "exported" spec with
         | Some e => [if Ast.is_type "Identifier" e
                      then Ast.name e else Ast.value e]
         | None => []
         end
       else [])
    (Ast.props "specifiers" n).

Definition visit_Export (parent : Node) (key : string) (n : Node)
  : list string :=
  if Ast.is_type "ExportNamedDeclaration" n then
    (match Ast.prop "declaration" n with
     | Some d => declared_names d
     | None => []
     end) ++ exported_specifiers n
  else if Ast.is_type "ExportDefaultDeclaration" n then ["default"]
  else [].

Definition extractExports (code : string) (isTypeScript : bool)
  : Res (list string) :=
  res_bind (parse code isTypeScript) (fun ast =>
  Ret (Ast.traverse visit_Export ast)).

End ASTParser.
End ASTParser.

(* ===================================================================== *)
(** * Plain JavaScript objects used as dictionaries *)
(* ===================================================================== *)

Module JsObject.

(** The own enumerable properties, in the order in which they were
    created; the values are the strings a manifest holds (versions,
    script bodies). *)
Definition t := list (string * string).

(** What [obj[key]] evaluates to. *)
Inductive value :=
| undefined
| str (s : string)
| inherited.   (* a member of [Object.prototype]: a function or an object *)

(** The properties every object literal inherits from [Object.prototype]. *)
Definition prototype_names : list string :=
  [ "constructor"; "__defineGetter__"; "__defineSetter__"; "hasOwnProperty";
    "__lookupGetter__"; "__lookupSetter__"; "isPrototypeOf";
    "propertyIsEnumerable"; "toString"; "valueOf"; "__proto__";
    "toLocaleString" ].

(** [obj[key]]: an own property, else the prototype chain. *)
Definition get (obj : t) (key : string) : value :=
  match JsMap.get obj key with
  | Some v => str v
  | None => if existsb (String.eqb key) prototype_names then inherited
            else undefined
  end.

(** JavaScript truthiness. *)
Definition truthy (v : value) : bool :=
  match v with
  | undefined => false
  | str s => negb (String.eqb s "")
  | inherited => true
  end.

(** [{...base, ...src}] where [src] may be [undefined]. *)
Definition spread (base : t) (src : option t) : t :=
  match src with
  | Some o => fold_left (fun acc kv => JsMap.set acc (fst kv) (snd kv)) o base
  | None => base
  end.

(** The order of the own property keys: the keys that are array indices,
    ascending, then the other keys in the order of their creation. *)
Definition digit_value (c : ascii) : option N :=
  let n := N_of_ascii c in
  if ((48 <=? n) && (n <=? 57))%N then Some (n - 48)%N else None.

Fixpoint decimal (acc : N) (s : string) : option N :=
  match s with
  | EmptyString => Some acc
  | String c rest =>
      match digit_value c with
      | Some d => decimal (acc * 10 + d)%N rest
      | None => None
      end
  end.

(** The number a key stands for when it is an array index: a decimal
    numeral without a leading zero, below [2^32 - 1]. *)
Definition array_index (key : string) : option N :=
  match key with
  | EmptyString => None
  | String c rest =>
      if Ascii.eqb c "0"%char
      then match rest with EmptyString => Some 0%N | String _ _ => None end
      else match decimal 0 key with
           | Some n => if (n <? 4294967295)%N then Some n else None
           | None => None
           end
  end.

Fixpoint insert_by_index (n : N) (kv : string * string)
    (sorted : list (N * (string * string))) : list (N * (string * string)) :=
  match sorted with
  | [] => [(n, kv)]
  | (m, kv') :: rest =>
      if (n <? m)%N then (n, kv) :: (m, kv') :: rest
      else (m, kv') :: insert_by_index n kv rest
  end.

Definition indexed (obj : t) : list (N * (string * string)) :=
  fold_right (fun kv sorted =>
                match array_index (fst kv) with
                | Some n => insert_by_index n kv sorted
                | None => sorted
                end) [] obj.

(** [Object.entries(obj)] and [Object.keys(obj)] *)
Definition entries (obj : t) : list (string * string) :=
  map snd (indexed obj)
  ++ List.filter (fun kv => match array_index (fst kv) with
                            | Some _ => false
                            | None => true
                            end) obj.
Definition keys (obj : t) : list string := map fst (entries obj).

(** [key] is an own property of [obj]. *)
Definition declares (obj : t) (key : string) : Prop :=
  In key (keys obj).

End JsObject.

(** The part of a parsed [package.json] that is read. *)
Record PackageJson := mkPackageJson {
  pkg_dependencies : option JsObject.t;
  pkg_devDependencies : option JsObject.t;
  pkg_scripts : option JsObject.t }.

(* ===================================================================== *)
(** * The environment *)
(* ===================================================================== *)

(** What the program asks of Node and of its libraries. *)
Record Env := mkEnv {
  (** [fs.readFile(path, 'utf-8')] *)
  fs_readFile : string -> Res string;
  (** [existsSync(path)] *)
  fs_existsSync : string -> bool;
  (** [glob(pattern, {cwd, absolute: true, ignore, nodir: true})] *)
  glob : string -> string -> list string -> Res (list string);
  path_dirname : string -> string;
  path_extname : string -> string;
  path_basename : string -> string -> string;
  path_resolve : string -> string -> string;
  path_join : string -> string -> string;
  babel_parse : string -> bool -> Res Node;
  (** [JSON.parse(content)] of a manifest; [None] for a falsy value *)
  JSON_parse : string -> Res (option PackageJson) }.

(** [/\.tsx?$/.test(filePath)] *)
Definition isTypeScriptFile (filePath : string) : bool :=
  JsString.endsWith filePath ".ts" || JsString.endsWith filePath ".tsx".

(* ===================================================================== *)
(** * FileUtils  (src/utils/fileUtils.ts) *)
(* ===================================================================== *)

Module FileUtils.
Section FileUtils.
Variable env : Env.

Definition default_patterns : list string := ["**/*.{js,jsx,ts,tsx,py,go}"].
Definition default_exclude : list string :=
  ["node_modules/**"; "dist/**"; "build/**"; ".git/**"; "coverage/**"].

(** The loop of [getFiles] over the patterns. *)
Fixpoint glob_all (targetPath : string) (patterns exclude : list string)
  : Res (list string) :=
  match patterns with
  | [] => Ret []
  | pattern :: rest =>
      res_bind (glob env pattern targetPath exclude) (fun matches =>
      res_bind (glob_all targetPath rest exclude) (fun files =>
      Ret (matches ++ files)))
  end.

(** [return [...new Set(files)]] *)
Definition getFiles (targetPath : string) (patterns exclude : list string)
  : Res (list string) :=
  res_bind (glob_all targetPath patterns exclude) (fun files =>
  Ret (JsSet.of_list files)).

Definition readFile (filePath : string) : Res string :=
  match fs_readFile env filePath with
  | Ret content => Ret content
  | Raise e => Raise ("Failed to read file " +:+ filePath +:+ ": " +:+ e)
  end.

Definition default_extensions : list string :=
  [".js"; ".jsx"; ".ts"; ".tsx"; ".json"].

Definition resolveImportPath (fromFile importPath : string)
    (extensions : list string) : option string :=
  (* Handle node_modules *)
  if negb (JsString.startsWith importPath ".")
     && negb (JsString.startsWith importPath "/")
  then None
  else
    let dir := path_dirname env fromFile in
    let resolved := path_resolve env dir importPath in
    let direct := if fs_existsSync env resolved then Some resolved else None in
    if String.eqb (path_extname env resolved) "" then
      (* Try with extensions *)
      match find (fun ext => fs_existsSync env (resolved +:+ ext)) extensions with
      | Some ext => Some (resolved +:+ ext)
      | None =>
          (* Try index files *)
          match find (fun ext =>
                        fs_existsSync env (path_join env resolved ("index" +:+ ext)))
                     extensions with
          | Some ext => Some (path_join env resolved ("index" +:+ ext))
          | None => direct
          end
      end
    else direct.

(** [getPackageJson(dir)]: [null] when reading or parsing fails. *)
Definition getPackageJson (dir : string) : option PackageJson :=
  let pkgPath := path_join env dir "package.json" in
  match res_bind (readFile pkgPath) (JSON_parse env) with
  | Ret pkg => pkg
  | Raise _ => None
  end.

(** The ten patterns of [isStaleFilename], all case-insensitive. *)
Definition stalePatterns : list (string -> bool) :=
  [ (fun b => JsString.endsWith b ".old");
    (fun b => JsString.endsWith b ".backup");
    (fun b => JsString.endsWith b ".copy");
    (fun b => JsString.endsWith b ".bak");
    (fun b => JsString.endsWith b "_old");
    (fun b => JsString.endsWith b "_backup");
    (fun b => JsString.endsWith b "_copy");
    (fun b => JsString.startsWith b "old-" || JsString.startsWith b "old_");
    (fun b => JsString.startsWith b "backup-" || JsString.startsWith b "backup_");
    (fun b => JsString.includes b ".deprecated") ].

Definition isStaleFilename (filename : string) : bool :=
  let basename := path_basename env filename (path_extname env filename) in
  existsb (fun pattern => pattern (JsString.toLowerCase basename)) stalePatterns.

End FileUtils.
End FileUtils.

(* ===================================================================== *)
(** * GraphBuilder  (src/core/graphBuilder.ts) *)
(* ===================================================================== *)

Record DependencyNode := mkDependencyNode {
  path : string;
  imports : list string;     (* Files this imports *)
  importedBy : list string;  (* Files that import this *)
  exports : list string }.

Module GraphBuilder.

(** [private nodes: Map<string, DependencyNode>] *)
Abbreviation Nodes := (JsMap.t DependencyNode).

(** [new GraphBuilder()] *)
Definition new : Nodes := JsMap.empty.

Definition fresh_node (file : string) : DependencyNode :=
  {| path := file; imports := []; importedBy := []; exports := [] |}.

(** [node.imports.push(target)] *)
Definition push_imports (target : string) (n : DependencyNode) : DependencyNode :=
  {| path := path n; imports := imports n ++ [target];
     importedBy := importedBy n; exports := exports n |}.

(** [node.importedBy.push(source)] *)
Definition push_importedBy (source : string) (n : DependencyNode) : DependencyNode :=
  {| path := path n; imports := imports n;
     importedBy := importedBy n ++ [source]; exports := exports n |}.

(** [node.exports = names] *)
Definition set_exports (names : list string) (n : DependencyNode) : DependencyNode :=
  {| path := path n; imports := imports n;
     importedBy := importedBy n; exports := names |}.

Section GraphBuilder.
Variable env : Env.

(** The body of the loop over the imports of [filePath]: the only place
    where an edge is inserted, on both of its ends. *)
Definition add_import (filePath : string) (imp : ImportInfo) : M Nodes unit :=
  fun nodes =>
    match FileUtils.resolveImportPath env filePath (imp_source imp)
            FileUtils.default_extensions with
    | Some resolvedPath =>
        if JsMap.has nodes resolvedPath then
          (do! mmodify (fun nodes =>
                 JsMap.update nodes filePath (push_imports resolvedPath)) in
           mmodify (fun nodes =>
                 JsMap.update nodes resolvedPath (push_importedBy filePath)))%m
            nodes
        else (nodes, Ret tt)
    | None => (nodes, Ret tt)
    end.

Definition processFile (filePath rootPath : string) : M Nodes unit :=
  fun nodes =>
    match JsMap.get nodes filePath with
    | None => (nodes, Ret tt)
    | Some _ =>
        try_catch
          (let! content := lift (FileUtils.readFile env filePath) in
           let isTypeScript := isTypeScriptFile filePath in
           (* Extract imports *)
           let! imports :=
             lift (ASTParser.extractImports (babel_parse env) content isTypeScript) in
           do! for_of imports (add_import filePath) in
           (* Extract exports *)
           let! names :=
             lift (ASTParser.extractExports (babel_parse env) content isTypeScript) in
           mmodify (fun nodes => JsMap.update nodes filePath (set_exports names)))%m
          (fun error => mret tt)
          nodes
    end.

(** [build(targetPath, files?)]; returns [this.nodes]. *)
Definition build (targetPath : string) (files : option (list string))
  : M Nodes Nodes :=
  (let! allFiles :=
     match files with
     | Some fs => mret fs
     | None => lift (FileUtils.getFiles env targetPath
                       FileUtils.default_patterns FileUtils.default_exclude)
     end in
   (* Initialize all nodes *)
   do! for_of allFiles
         (fun file => mmodify (fun nodes => JsMap.set nodes file (fresh_node file))) in
   (* Build relationships *)
   do! for_of allFiles (fun file => processFile file targetPath) in
   mget)%m.

End GraphBuilder.

(** [getUnusedFiles(entryPoints = [])] *)
Definition getUnusedFiles (nodes : Nodes) (entryPoints : list string)
  : list string :=
  flat_map
    (fun entry : string * DependencyNode =>
       let (filePath, node) := entry in
       (* Skip entry points *)
       if existsb (fun e => JsString.includes filePath e) entryPoints then []
       (* Check if file is never imported *)
       else if Nat.eqb (length (importedBy node)) 0 then [filePath]
       else [])
    nodes.

Definition getNode (nodes : Nodes) (filePath : string) : option DependencyNode :=
  JsMap.get nodes filePath.

(** ** findCircularDependencies *)

(** The three locals the closure [dfs] shares. *)
Record DfsState := mkDfsState {
  visited : gset string;
  recStack : gset string;
  cycles : list (list string) }.

(** [path.indexOf(x)]: -1 when [x] is absent. *)
Fixpoint indexOf (l : list string) (x : string) : Z :=
  match l with
  | [] => (-1)%Z
  | y :: rest =>
      if String.eqb y x then 0%Z
      else let i := indexOf rest x in
           if (i <? 0)%Z then (-1)%Z else (i + 1)%Z
  end.

(** [path.slice(start)]: a negative [start] counts from the end. *)
Definition slice_from (l : list string) (start : Z) : list string :=
  if (start <? 0)%Z
  then drop (Z.to_nat (Z.max 0 (Z.of_nat (length l) + start))) l
  else drop (Z.to_nat start) l.

Definition enter (node : string) (st : DfsState) : DfsState :=
  {| visited := {[node]} ∪ visited st;
     recStack := {[node]} ∪ recStack st;
     cycles := cycles st |}.

Definition leave (node : string) (st : DfsState) : DfsState :=
  {| visited := visited st;
     recStack := recStack st ∖ {[node]};
     cycles := cycles st |}.

Definition push_cycle (c : list string) (st : DfsState) : DfsState :=
  {| visited := visited st; recStack := recStack st;
     cycles := cycles st ++ [c] |}.

(** [dfs(node, path)].  The recursion of the source is bounded here by
    [fuel], the depth still allowed; [None] means the bound was hit. *)
Fixpoint dfs (fuel : nat) (nodes : Nodes) (node : string) (path : list string)
    (st : DfsState) : option DfsState :=
  match fuel with
  | O => None
  | S fuel' =>
      let st := enter node st in
      let path := path ++ [node] in
      let after :=
        match JsMap.get nodes node with
        | Some nodeData =>
            (fix loop (imps : list string) (st : DfsState) : option DfsState :=
               match imps with
               | [] => Some st
               | imported :: rest =>
                   if negb (bool_decide (imported ∈ visited st)) then
                     match dfs fuel' nodes imported path st with
                     | Some st' => loop rest st'
                     | None => None
                     end
                   else if bool_decide (imported ∈ recStack st) then
                     (* Found a cycle *)
                     let cycleStart := indexOf path imported in
                     loop rest (push_cycle (slice_from path cycleStart) st)
                   else loop rest st
               end) (imports nodeData) st
        | None => Some st
        end in
      leave node <$> after
  end.

(** The loop over [this.nodes.keys()]. *)
Fixpoint dfs_roots (fuel : nat) (nodes : Nodes) (roots : list string)
    (st : DfsState) : option DfsState :=
  match roots with
  | [] => Some st
  | node :: rest =>
      if negb (bool_decide (node ∈ visited st)) then
        match dfs fuel nodes node [] st with
        | Some st' => dfs_roots fuel nodes rest st'
        | None => None
        end
      else dfs_roots fuel nodes rest st
  end.

Definition findCircularDependencies (fuel : nat) (nodes : Nodes)
  : option (list (list string)) :=
  cycles <$> dfs_roots fuel nodes (JsMap.keys nodes)
               {| visited := ∅; recStack := ∅; cycles := [] |}.

End GraphBuilder.

(* ===================================================================== *)
(** * Issue types  (src/types.ts) *)
(* ===================================================================== *)

Record UnusedImport := mkUnusedImport {
  ui_file : string;
  ui_line : nat;
  ui_importName : string;
  ui_from : string }.

Record UnusedFile := mkUnusedFile {
  uf_path : string;
  uf_reason : string }.

(** ['unreachable' | 'unused-var' | 'empty-catch' | 'unused-function'] *)
Inductive DeadCodeType :=
| unreachable
| unused_var
| empty_catch
| unused_function.

Record DeadCodeIssue := mkDeadCodeIssue {
  dc_file : string;
  dc_line : nat;
  dc_type : DeadCodeType;
  dc_description : string }.

(** ['unused' | 'missing'] *)
Inductive DependencyIssueType :=
| dep_unused
| dep_missing.

Record DependencyIssue := mkDependencyIssue {
  di_name : string;
  di_type : DependencyIssueType;
  di_installedVersion : option string }.

(* ===================================================================== *)
(** * StaleDetector  (src/core/staleDetector.ts) *)
(* ===================================================================== *)

Module StaleDetector.
Section StaleDetector.
Variable env : Env.

(** Common entry points to exclude *)
Definition entryPoints : list string :=
  [ "index"; "main"; "app"; "_app"; "server"; "config"; "vite.config";
    "webpack.config"; "next.config"; "tailwind.config"; "jest.config";
    "test"; "spec"; ".test"; ".spec" ].

Definition classify (file : string) : UnusedFile :=
  {| uf_path := file;
     uf_reason := if FileUtils.isStaleFilename env file
                  then "Stale filename pattern (old/backup/copy)"
                  else "Never imported by any file" |}.

Definition findUnusedFiles (targetPath : string) : Res (list UnusedFile) :=
  (* Get all files *)
  res_bind (FileUtils.getFiles env targetPath
              ["**/*.{js,jsx,ts,tsx,vue,svelte}"] FileUtils.default_exclude)
    (fun files =>
  (* Build dependency graph *)
  match GraphBuilder.build env targetPath (Some files) GraphBuilder.new with
  | (_, Raise e) => Raise e
  | (nodes, Ret _) =>
      (* Get unused files from graph *)
      let graphUnused := GraphBuilder.getUnusedFiles nodes entryPoints in
      Ret (map classify graphUnused)
  end).

End StaleDetector.
End StaleDetector.

(* ===================================================================== *)
(** * UnusedFinder  (src/core/unusedFinder.ts) *)
(* ===================================================================== *)

Module UnusedFinder.
Section UnusedFinder.
Variable env : Env.

(** The inner loops of [findInFile], pushing to [unused]. *)
Definition check_specifier (filePath : string) (usedIdentifiers : gset string)
    (imp : ImportInfo) (specifier : string) : M (list UnusedImport) unit :=
  if negb (bool_decide (specifier ∈ usedIdentifiers)) then
    mmodify (fun unused =>
      unused ++ [ {| ui_file := filePath;
                     ui_line := imp_line imp;
                     ui_importName := specifier;
                     ui_from := imp_source imp |} ])
  else mret tt.

Definition findInFile (filePath : string) : Res (list UnusedImport) :=
  returning_local []
    (try_catch
       (let! content := lift (FileUtils.readFile env filePath) in
        let isTypeScript := isTypeScriptFile filePath in
        (* Get all imports *)
        let! imports :=
          lift (ASTParser.extractImports (babel_parse env) content isTypeScript) in
        (* Get all identifiers used in the code *)
        let! usedIdentifiers :=
          lift (ASTParser.extractIdentifiers (babel_parse env) content isTypeScript) in
        (* Check which imports are unused *)
        for_of imports (fun imp =>
          for_of (imp_specifiers imp)
            (check_specifier filePath usedIdentifiers imp)))%m
       (fun error => mret tt (* Silently skip files that can't be parsed *))).

Definition findInFiles (files : list string) : Res (list UnusedImport) :=
  returning_local []
    (for_of files (fun file =>
       let! unused := lift (findInFile file) in
       mmodify (fun allUnused => allUnused ++ unused))%m).

Definition findInProject (targetPath : string) : Res (list UnusedImport) :=
  res_bind (FileUtils.getFiles env targetPath
              ["**/*.{js,jsx,ts,tsx}"] FileUtils.default_exclude)
    findInFiles.

End UnusedFinder.
End UnusedFinder.

(* ===================================================================== *)
(** * DeadCodeDetector  (src/core/deadCodeDetector.ts) *)
(* ===================================================================== *)

Module DeadCodeDetector.
Section DeadCodeDetector.
Variable env : Env.

Definition unreachable_issue (filePath : string) (item : UnreachableItem)
  : DeadCodeIssue :=
  {| dc_file := filePath;
     dc_line := unr_line item;
     dc_type := unreachable;
     dc_description := "Unreachable code after return/throw statement" |}.

Definition unused_var_issue (filePath : string) (item : UnusedVarItem)
  : DeadCodeIssue :=
  {| dc_file := filePath;
     dc_line := uv_line item;
     dc_type := unused_var;
     dc_description := "Unused variable '" +:+ uv_name item +:+ "'" |}.

Definition empty_catch_issue (filePath : string) (item : EmptyCatchItem)
  : DeadCodeIssue :=
  {| dc_file := filePath;
     dc_line := ec_line item;
     dc_type := empty_catch;
     dc_description := "Empty catch block - errors are silently ignored" |}.

(** [for (const item of items) issues.push(mk(item))] *)
Definition push_all {A} (mk : A -> DeadCodeIssue) (items : list A)
  : M (list DeadCodeIssue) unit :=
  for_of items (fun item => mmodify (fun issues => issues ++ [mk item])).

Definition detectInFile (filePath : string) : Res (list DeadCodeIssue) :=
  returning_local []
    (try_catch
       (let! content := lift (FileUtils.readFile env filePath) in
        let isTypeScript := isTypeScriptFile filePath in
        (* Find unreachable code *)
        let! unreachable :=
          lift (ASTParser.findUnreachableCode (babel_parse env) content isTypeScript) in
        do! push_all (unreachable_issue filePath) unreachable in
        (* Find unused variables *)
        let! unusedVars :=
          lift (ASTParser.findUnusedVariables (babel_parse env) content isTypeScript) in
        do! push_all (unused_var_issue filePath) unusedVars in
        (* Find empty catch blocks *)
        let! emptyCatches :=
          lift (ASTParser.findEmptyCatchBlocks (babel_parse env) content isTypeScript) in
        push_all (empty_catch_issue filePath) emptyCatches)%m
       (fun error => mret tt (* Skip files that can't be parsed *))).

Definition detectInFiles (files : list string) : Res (list DeadCodeIssue) :=
  returning_local []
    (for_of files (fun file =>
       let! issues := lift (detectInFile file) in
       mmodify (fun allIssues => allIssues ++ issues))%m).

Definition detectInProject (targetPath : string) : Res (list DeadCodeIssue) :=
  res_bind (FileUtils.getFiles env targetPath
              ["**/*.{js,jsx,ts,tsx}"] FileUtils.default_exclude)
    detectInFiles.

End DeadCodeDetector.
End DeadCodeDetector.

(* ===================================================================== *)
(** * ConfigAnalyzer  (src/core/configAnalyzer.ts) *)
(* ===================================================================== *)

Record PackageAnalysis := mkPackageAnalysis {
  unusedDependencies : list DependencyIssue;
  missingDependencies : list DependencyIssue;
  unusedScripts : list string }.

Module ConfigAnalyzer.

(** Skip common build tools and type definitions *)
Definition skipList : list string :=
  [ "typescript"; "eslint"; "prettier"; "jest"; "vitest"; "vite";
    "webpack"; "rollup"; "esbuild"; "@types/" ].

(** Extract package name (handle scoped packages) *)
Definition pkgName (source : string) : string :=
  if JsString.startsWith source "@"
  then JsString.join "/" (firstn 2 (JsString.split "/" source))
  else hd "" (JsString.split "/" source).

(** The callback of [imports.forEach], adding to [allImports]. *)
Definition track_import (imp : ImportInfo) : M JsSet.t unit :=
  let name := pkgName (imp_source imp) in
  (* Only track external packages *)
  if negb (JsString.startsWith name ".") && negb (JsString.startsWith name "/")
  then mmodify (fun allImports => JsSet.add allImports name)
  else mret tt.

(** Check for unused dependencies *)
Definition unused_deps (allImports : JsSet.t) (dependencies : JsObject.t)
  : list DependencyIssue :=
  flat_map
    (fun entry : string * string =>
       let (depName, version) := entry in
       if negb (JsSet.has allImports depName) then
         if negb (existsb (fun skip => JsString.includes depName skip) skipList)
         then [ {| di_name := depName; di_type := dep_unused;
                   di_installedVersion := Some version |} ]
         else []
       else [])
    (JsObject.entries dependencies).

(** Check for missing dependencies *)
Definition missing_deps (allImports : JsSet.t) (dependencies : JsObject.t)
  : list DependencyIssue :=
  flat_map
    (fun importedPkg =>
       if negb (JsObject.truthy (JsObject.get dependencies importedPkg))
       then [ {| di_name := importedPkg; di_type := dep_missing;
                 di_installedVersion := None |} ]
       else [])
    allImports.

(** Check for obviously stale scripts *)
Definition stale_scripts (scripts : option JsObject.t) : list string :=
  match scripts with
  | Some o =>
      List.filter (fun script =>
                JsString.includes script "old"
                || JsString.includes script "backup"
                || JsString.includes script "temp"
                || JsString.includes script "unused")
             (JsObject.keys o)
  | None => []
  end.

Section ConfigAnalyzer.
Variable env : Env.

(** Collect all imports from all files *)
Definition collect_imports (files : list string) : M JsSet.t unit :=
  for_of files (fun file =>
    try_catch
      (let! content := lift (FileUtils.readFile env file) in
       let isTypeScript := isTypeScriptFile file in
       let! imports :=
         lift (ASTParser.extractImports (babel_parse env) content isTypeScript) in
       for_of imports track_import)%m
      (fun error => mret tt (* Skip files that can't be parsed *))).

Definition analyzePackageJson (targetPath : string) : Res PackageAnalysis :=
  match FileUtils.getPackageJson env targetPath with
  | None =>
      Ret {| unusedDependencies := []; missingDependencies := [];
             unusedScripts := [] |}
  | Some pkg =>
      (* Get all project files *)
      res_bind (FileUtils.getFiles env targetPath
                  ["**/*.{js,jsx,ts,tsx}"] FileUtils.default_exclude)
        (fun files =>
      res_bind (returning_local JsSet.empty (collect_imports files))
        (fun allImports =>
      let dependencies :=
        JsObject.spread (JsObject.spread [] (pkg_dependencies pkg))
                        (pkg_devDependencies pkg) in
      Ret {| unusedDependencies := unused_deps allImports dependencies;
             missingDependencies := missing_deps allImports dependencies;
             unusedScripts := stale_scripts (pkg_scripts pkg) |}))
  end.

End ConfigAnalyzer.
End ConfigAnalyzer.

(* ===================================================================== *)
(** * Fixtures: small syntax trees and a small file system *)
(* ===================================================================== *)

Module Fixture.

(** ** Syntax trees *)

Definition node (ty : string) (ln : nat) (kids : list (string * Node)) : Node :=
  mkNode ty (Some ln) "" "" false None kids.

Definition ident (ln : nat) (x : string) : Node :=
  mkNode "Identifier" (Some ln) x "" false None [].

Definition strlit (ln : nat) (v : string) : Node :=
  mkNode "StringLiteral" (Some ln) "" v false None [].

Definition boollit (ln : nat) : Node := node "BooleanLiteral" ln [].

(** [import local from 'src'] *)
Definition import_default (ln : nat) (local src : string) : Node :=
  node "ImportDeclaration" ln
    [ ("specifiers", node "ImportDefaultSpecifier" ln [("local", ident ln local)]);
      ("source", strlit ln src) ].

(** [obj.member(arg);] *)
Definition call_member (ln : nat) (obj member arg : string) : Node :=
  node "ExpressionStatement" ln
    [ ("expression",
       node "CallExpression" ln
         [ ("callee", node "MemberExpression" ln
                        [ ("object", ident ln obj); ("property", ident ln member) ]);
           ("arguments", ident ln arg) ]) ].

(** [return true;] *)
Definition return_true (ln : nat) : Node :=
  node "ReturnStatement" ln [("argument", boollit ln)].

Definition block (ln : nat) (stmts : list Node) : Node :=
  node "BlockStatement" ln (map (fun s => ("body", s)) stmts).

(** [if (test) { stmts }] *)
Definition if_block (ln : nat) (test : string) (stmts : list Node) : Node :=
  node "IfStatement" ln
    [ ("test", ident ln test); ("consequent", block ln stmts) ].

(** [function f() { stmts }]; [referenced] is the answer of the scope
    analysis for the binding of [f]. *)
Definition function_decl (ln : nat) (f : string) (referenced : bool)
    (stmts : list Node) : Node :=
  mkNode "FunctionDeclaration" (Some ln) "" "" false (Some referenced)
    [ ("id", ident ln f); ("body", block ln stmts) ].

(** [const x = true;] *)
Definition const_decl (ln : nat) (x : string) (referenced : bool) : Node :=
  node "VariableDeclaration" ln
    [ ("declarations",
       mkNode "VariableDeclarator" (Some ln) "" "" false (Some referenced)
         [ ("id", ident ln x); ("init", boollit ln) ]) ].

(** [f();] *)
Definition call (ln : nat) (f : string) : Node :=
  node "ExpressionStatement" ln
    [ ("expression", node "CallExpression" ln [("callee", ident ln f)]) ].

(** A text of several lines. *)
Definition source (lines : list string) : string :=
  JsString.join (String (ascii_of_nat 10) "") lines.

(** The [File] node the parser returns for a module with these
    top-level statements. *)
Definition file (stmts : list Node) : Node :=
  node "File" 1 [("program", node "Program" 1 (map (fun s => ("body", s)) stmts))].

(** ** A file system in a table, POSIX paths *)

Definition basename_full (p : string) : string := List.last (JsString.split "/" p) "".

Definition dirname (p : string) : string :=
  JsString.join "/" (removelast (JsString.split "/" p)).

(** The suffix that starts at the last dot, if there is a dot. *)
Fixpoint last_dot (s : string) : option string :=
  match s with
  | EmptyString => None
  | String c t =>
      match last_dot t with
      | Some e => Some e
      | None => if Ascii.eqb c "."%char then Some s else None
      end
  end.

Definition extname (p : string) : string :=
  match basename_full p with
  | EmptyString => ""
  | String _ t => match last_dot t with Some e => e | None => "" end
  end.

Fixpoint strip_suffix (s ext : string) : string :=
  if String.eqb s ext then ""
  else match s with
       | EmptyString => ""
       | String c t => String c (strip_suffix t ext)
       end.

Definition basename (p ext : string) : string :=
  let b := basename_full p in
  if JsString.endsWith b ext then strip_suffix b ext else b.

Definition join (a b : string) : string := a +:+ "/" +:+ b.

(** Enough of [path.resolve] for sources of the forms [./x] and [/x]. *)
Definition resolve (dir src : string) : string :=
  if JsString.startsWith src "/" then src
  else if JsString.startsWith src "./"
       then dir +:+ "/" +:+ String.substring 2 (String.length src - 2) src
       else dir +:+ "/" +:+ src.

(** A scanned file: its path, its text and what the parser makes of it. *)
Record SourceFile := mkSourceFile {
  sf_path : string;
  sf_text : string;
  sf_ast : Res Node }.

Definition lookup_path (fs : list SourceFile) (p : string) : option SourceFile :=
  find (fun f => String.eqb (sf_path f) p) fs.

Definition lookup_text (fs : list SourceFile) (t : string) : option SourceFile :=
  find (fun f => String.eqb (sf_text f) t) fs.

(** The environment in which exactly the files [fs] exist, [glob] finds
    all of them whatever the pattern, and the manifest is [manifest]. *)
Definition env_of (fs : list SourceFile) (manifest : option PackageJson) : Env :=
  {| fs_readFile := fun p =>
       match lookup_path fs p with
       | Some f => Ret (sf_text f)
       | None => if String.eqb (basename_full p) "package.json"
                 then match manifest with
                      | Some _ => Ret "package.json"
                      | None => Raise "ENOENT"
                      end
                 else Raise "ENOENT"
       end;
     fs_existsSync := fun p =>
       match lookup_path fs p with Some _ => true | None => false end;
     glob := fun pattern cwd ignore => Ret (map sf_path fs);
     path_dirname := dirname;
     path_extname := extname;
     path_basename := basename;
     path_resolve := resolve;
     path_join := join;
     babel_parse := fun code isTypeScript =>
       match lookup_text fs code with
       | Some f => sf_ast f
       | None => Raise "SyntaxError"
       end;
     JSON_parse := fun content => Ret manifest |}.

End Fixture.

(* ===================================================================== *)
(** * Fixtures: small projects *)
(* ===================================================================== *)

Module Project.
Import Fixture.

(** [/p/a.ts] imports [./b] in two statements, [/p/b.ts] imports nothing. *)
Definition a_ts : SourceFile :=
  {| sf_path := "/p/a.ts";
     sf_text := source [ "import x from './b';"; "import y from './b';" ];
     sf_ast := Ret (file [import_default 1 "x" "./b"; import_default 2 "y" "./b"]) |}.

Definition b_ts : SourceFile :=
  {| sf_path := "/p/b.ts"; sf_text := "";
     sf_ast := Ret (file []) |}.

Definition twice : Env := env_of [a_ts; b_ts] None.
Definition twice_files : list string := ["/p/a.ts"; "/p/b.ts"].

End Project.

(* ===================================================================== *)
(** * What the import statements of a file resolve to *)
(* ===================================================================== *)

Section ResolvedImports.
Variable env : Env.

(** The targets, in statement order, of the imports [imps] of [filePath]
    that resolve to a file accepted by [known]. *)
Definition targets_in (known : string -> bool) (filePath : string)
    (imps : list ImportInfo) : list string :=
  flat_map
    (fun imp =>
       match FileUtils.resolveImportPath env filePath (imp_source imp)
               FileUtils.default_extensions with
       | Some resolvedPath => if known resolvedPath then [resolvedPath] else []
       | None => []
       end)
    imps.

(** One entry per import statement of [filePath] that resolves to one of
    [files]; nothing when the file cannot be read or parsed. *)
Definition resolved_imports (files : list string) (filePath : string)
  : list string :=
  match res_bind (FileUtils.readFile env filePath) (fun content =>
          ASTParser.extractImports (babel_parse env) content
            (isTypeScriptFile filePath)) with
  | Ret imps => targets_in (fun p => existsb (String.eqb p) files) filePath imps
  | Raise _ => []
  end.

End ResolvedImports.

(* ===================================================================== *)
(** * Predicates on stores *)
(* ===================================================================== *)

(** [m] keeps the property [P] of the store, whether it throws or not. *)
Definition preserves {S A} (P : S -> Prop) (m : M S A) : Prop :=
  forall s, P s -> P (fst (m s)).

(** Every edge is recorded as often at its source as at its target. *)
Definition balanced (nodes : GraphBuilder.Nodes) : Prop :=
  forall a b na nb,
    JsMap.get nodes a = Some na ->
    JsMap.get nodes b = Some nb ->
    count_occ string_dec (imports na) b = count_occ string_dec (importedBy nb) a.

(** No node has an edge yet: the state between the two phases of [build]. *)
Definition edgeless (nodes : GraphBuilder.Nodes) : Prop :=
  forall a na, JsMap.get nodes a = Some na -> imports na = [] /\ importedBy na = [].

(** The [imports] array under a key, when the key is present. *)
Definition imports_at (nodes : GraphBuilder.Nodes) (a : string)
  : option (list string) :=
  imports <$> JsMap.get nodes a.

(** The store after [add_import]. *)
Definition after_import (env : Env) (filePath : string) (imp : ImportInfo)
    (nodes : GraphBuilder.Nodes) : GraphBuilder.Nodes :=
  match FileUtils.resolveImportPath env filePath (imp_source imp)
          FileUtils.default_extensions with
  | Some resolvedPath =>
      if JsMap.has nodes resolvedPath then
        JsMap.update
          (JsMap.update nodes filePath (GraphBuilder.push_imports resolvedPath))
          resolvedPath (GraphBuilder.push_importedBy filePath)
      else nodes
  | None => nodes
  end.

(* ===================================================================== *)
(** * Fixtures: source files with issues *)
(* ===================================================================== *)

Module Sample.
Import Fixture.

(** [import moment from 'moment'; import lodash from 'lodash';
     lodash.map(items);], one statement per line. *)
Definition dates_ast : Node :=
  file [ import_default 1 "moment" "moment";
         import_default 2 "lodash" "lodash";
         call_member 3 "lodash" "map" "items" ].

Definition dates_ts : SourceFile :=
  {| sf_path := "/app/dates.ts";
     sf_text := source [ "import moment from 'moment';";
                         "import lodash from 'lodash';";
                         "lodash.map(items);" ];
     sf_ast := Ret dates_ast |}.

(** A file the parser rejects. *)
Definition broken_ts : SourceFile :=
  {| sf_path := "/app/broken.ts";
     sf_text := "import {";
     sf_ast := Raise "SyntaxError: Unexpected token (1:8)" |}.

Definition app : Env := env_of [dates_ts; broken_ts] None.

End Sample.

Module DeadSample.
Import Fixture.

(** [function unusedFunction() { return true; }] over three lines, never
    referenced. *)
Definition unused_fn : Node :=
  function_decl 1 "unusedFunction" false [return_true 2].

Definition unused_fn_program : Node := node "Program" 1 [("body", unused_fn)].

Definition unused_fn_ast : Node := node "File" 1 [("program", unused_fn_program)].

Definition unused_fn_ts : SourceFile :=
  {| sf_path := "/app/unused.ts";
     sf_text := source [ "function unusedFunction() {";
                         "  return true;";
                         "}" ];
     sf_ast := Ret unused_fn_ast |}.

(** [function check() { return true; console.log(x); }] with one
    statement per line, followed by a call of [check]. *)
Definition after_return_ast : Node :=
  file [ function_decl 1 "check" true
           [ return_true 2; call_member 3 "console" "log" "x" ];
         call 5 "check" ].

Definition after_return_ts : SourceFile :=
  {| sf_path := "/app/check.ts";
     sf_text := source [ "function check() {";
                         "  return true;";
                         "  console.log(x);";
                         "}";
                         "check();" ];
     sf_ast := Ret after_return_ast |}.

(** [function guard() { if (ready) { return true; console.log(x); } }]
    with one statement per line, followed by a call of [guard]. *)
Definition guard_fn : Node :=
  function_decl 1 "guard" true
    [ if_block 2 "ready" [ return_true 3; call_member 4 "console" "log" "x" ] ].

Definition nested_program : Node :=
  node "Program" 1 [("body", guard_fn); ("body", call 7 "guard")].

Definition nested_ast : Node := node "File" 1 [("program", nested_program)].

Definition nested_ts : SourceFile :=
  {| sf_path := "/app/guard.ts";
     sf_text := source [ "function guard() {";
                         "  if (ready) {";
                         "    return true;";
                         "    console.log(x);";
                         "  }";
                         "}";
                         "guard();" ];
     sf_ast := Ret nested_ast |}.

Definition app : Env := env_of [unused_fn_ts; after_return_ts; nested_ts] None.

End DeadSample.

(* ===================================================================== *)
(** * The issues a parsed file gives rise to *)
(* ===================================================================== *)

(** The issues of one import statement. *)
Definition flag_import (filePath : string) (used : gset string) (imp : ImportInfo)
  : list UnusedImport :=
  flat_map
    (fun specifier =>
       if negb (bool_decide (specifier ∈ used))
       then [ {| ui_file := filePath; ui_line := imp_line imp;
                 ui_importName := specifier; ui_from := imp_source imp |} ]
       else [])
    (imp_specifiers imp).

(** The array a call returned, nothing if it threw. *)
Definition ret_or_nil {A} (r : Res (list A)) : list A :=
  match r with
  | Ret l => l
  | Raise _ => []
  end.

(** The dead-code issues of a parsed file, in the order of [detectInFile]. *)
Definition dead_code_of (filePath : string) (ast : Node) : list DeadCodeIssue :=
  map (DeadCodeDetector.unreachable_issue filePath)
      (Ast.traverse ASTParser.visit_Function ast)
  ++ map (DeadCodeDetector.unused_var_issue filePath)
         (Ast.traverse ASTParser.visit_Declaration ast)
  ++ map (DeadCodeDetector.empty_catch_issue filePath)
         (Ast.traverse ASTParser.visit_CatchClause ast).

(** A file whose text the parser rejects. *)
Definition fails_to_parse (env : Env) (filePath : string) : Prop :=
  exists content e,
    fs_readFile env filePath = Ret content
    /\ babel_parse env content (isTypeScriptFile filePath) = Raise e.

(* ===================================================================== *)
(** * Positions in a syntax tree *)
(* ===================================================================== *)

(** A visited node with its parent and the property that holds it. *)
Record Position := mkPosition {
  pos_parent : Node;
  pos_key : string;
  pos_node : Node }.

(** The positions [traverse] visits, in order. *)
Definition positions (ast : Node) : list Position :=
  Ast.traverse (fun parent key n => [mkPosition parent key n]) ast.

(** The statements of the body of a function whose body is a block;
    nothing for other nodes and for arrow functions with an expression
    body. *)
Definition body_statements (n : Node) : list Node :=
  if Ast.isFunction n then
    match Ast.prop "body" n with
    | Some body => if Ast.is_type "BlockStatement" body
                   then Ast.props "body" body else []
    | None => []
    end
  else [].

(** The statements of a list that come after its first [return] or
    [throw]. *)
Fixpoint follows_exit (stmts : list Node) : list Node :=
  match stmts with
  | [] => []
  | stmt :: rest =>
      if ASTParser.isReturnOrThrow stmt then rest else follows_exit rest
  end.

Definition unreachable_item (stmt : Node) : UnreachableItem :=
  {| unr_line := Ast.line_or_0 stmt; unr_type := "unreachable-after-return" |}.

(** The statement lists of the blocks in and below a node. *)
Definition blocks_within (n : Node) : list (list Node) :=
  (if Ast.is_type "BlockStatement" n then [Ast.props "body" n] else [])
  ++ Ast.traverse
       (fun parent key c =>
          if Ast.is_type "BlockStatement" c then [Ast.props "body" c] else [])
       n.

(** The specification's unreachable statements of a function, read
    literally: the statements that follow a [return] or [throw] of their
    own block, for every block inside the body of the function. *)
Definition spec_unreachable_statements (fn : Node) : list Node :=
  match Ast.prop "body" fn with
  | Some body => flat_map follows_exit (blocks_within body)
  | None => []
  end.

(* ===================================================================== *)
(** * Fixtures: a project with an entry point and an orphan *)
(* ===================================================================== *)

Module Orphans.
Import Fixture.

(** No file imports another. *)
Definition export_default_number : Node :=
  node "ExportDefaultDeclaration" 1 [("declaration", node "NumericLiteral" 1 [])].

Definition index_ts : SourceFile :=
  {| sf_path := "/p/index.ts"; sf_text := "export default 1;";
     sf_ast := Ret (file [export_default_number]) |}.

Definition orphan_ts : SourceFile :=
  {| sf_path := "/p/orphan.ts"; sf_text := "export default 2;";
     sf_ast := Ret (file [export_default_number]) |}.

Definition project : Env := env_of [index_ts; orphan_ts] None.

End Orphans.

(* ===================================================================== *)
(** * Fixtures: manifests *)
(* ===================================================================== *)

Module Manifest.
Import Fixture.

(** [{"dependencies": {"axios": "1.0.0"}}] *)
Definition axios_only : PackageJson :=
  {| pkg_dependencies := Some [("axios", "1.0.0")];
     pkg_devDependencies := None;
     pkg_scripts := None |}.

(** [import format from 'date-fns';] *)
Definition report_ts : SourceFile :=
  {| sf_path := "/p/report.ts";
     sf_text := "import format from 'date-fns';";
     sf_ast := Ret (file [import_default 1 "format" "date-fns"]) |}.

(** The manifest declares [axios] alone; the only file imports
    [date-fns]. *)
Definition undeclared : Env := env_of [report_ts] (Some axios_only).

(** [import format from 'date-fns'; import build from 'constructor';] *)
Definition builder_ts : SourceFile :=
  {| sf_path := "/p/builder.ts";
     sf_text := source [ "import format from 'date-fns';";
                         "import build from 'constructor';" ];
     sf_ast := Ret (file [ import_default 1 "format" "date-fns";
                           import_default 2 "build" "constructor" ]) |}.

(** The same manifest; the only file also imports the package
    [constructor], which the manifest does not declare. *)
Definition inherited_name : Env := env_of [builder_ts] (Some axios_only).

(** [{"dependencies": {"left-pad": "1.3.0"},
      "devDependencies": {"jest-axe": "8.0.0", "my-vite-plugin": "1.2.3"}}] *)
Definition tooling : PackageJson :=
  {| pkg_dependencies := Some [("left-pad", "1.3.0")];
     pkg_devDependencies := Some [("jest-axe", "8.0.0"); ("my-vite-plugin", "1.2.3")];
     pkg_scripts := None |}.

(** No file imports any of the three declared packages. *)
Definition never_imported : Env := env_of [Orphans.orphan_ts] (Some tooling).

End Manifest.

(* ===================================================================== *)
(** * The external import roots of a project *)
(* ===================================================================== *)

(** The set [allImports] once the loop over the files has ended. *)
Definition used_roots (env : Env) (files : list string) : JsSet.t :=
  fst (ConfigAnalyzer.collect_imports env files JsSet.empty).

(** The dependencies the manifest declares: [dependencies] overlaid with
    [devDependencies]. *)
Definition declared (pkg : PackageJson) : JsObject.t :=
  JsObject.spread (JsObject.spread [] (pkg_dependencies pkg))
                  (pkg_devDependencies pkg).

(** [file] is read and parsed and has an import whose root is the
    external package [root]. *)
Definition imports_root (env : Env) (file root : string) : Prop :=
  exists content ast imp,
    fs_readFile env file = Ret content
    /\ babel_parse env content (isTypeScriptFile file) = Ret ast
    /\ In imp (Ast.traverse ASTParser.visit_ImportDeclaration ast)
    /\ ConfigAnalyzer.pkgName (imp_source imp) = root
    /\ JsString.startsWith root "." = false
    /\ JsString.startsWith root "/" = false.

(* ===================================================================== *)
(** * Import rings *)
(* ===================================================================== *)

(** The graph is the ring [a -> b -> c -> a]: three distinct nodes, each
    importing exactly the next one. *)
Definition ring3 (nodes : GraphBuilder.Nodes) (a b c : string) : Prop :=
  a <> b /\ b <> c /\ a <> c
  /\ Permutation (JsMap.keys nodes) [a; b; c]
  /\ (exists na, JsMap.get nodes a = Some na /\ imports na = [b])
  /\ (exists nb, JsMap.get nodes b = Some nb /\ imports nb = [c])
  /\ (exists nc, JsMap.get nodes c = Some nc /\ imports nc = [a]).

(** The first key of the map: where the search starts. *)
Definition first_key (nodes : GraphBuilder.Nodes) : option string :=
  head (JsMap.keys nodes).

Module Ring.
Import Fixture.

Definition a_ts : SourceFile :=
  {| sf_path := "/r/a.ts"; sf_text := "import b from './b';";
     sf_ast := Ret (file [import_default 1 "b" "./b"]) |}.
Definition b_ts : SourceFile :=
  {| sf_path := "/r/b.ts"; sf_text := "import c from './c';";
     sf_ast := Ret (file [import_default 1 "c" "./c"]) |}.
Definition c_ts : SourceFile :=
  {| sf_path := "/r/c.ts"; sf_text := "import a from './a';";
     sf_ast := Ret (file [import_default 1 "a" "./a"]) |}.

Definition project : Env := env_of [a_ts; b_ts; c_ts] None.

(** The graph [build] makes of the three files, scanned in the order
    [b], [c], [a]. *)
Definition graph : GraphBuilder.Nodes :=
  fst (GraphBuilder.build project "/r"
         (Some ["/r/b.ts"; "/r/c.ts"; "/r/a.ts"]) GraphBuilder.new).

End Ring.


(* ===================================================================== *)
(** * Further predicates on stores *)
(* ===================================================================== *)

(** Every edge ends at a node: the entries of [imports] and of
    [importedBy] are keys of the map. *)
Definition closed (nodes : GraphBuilder.Nodes) : Prop :=
  forall a na,
    JsMap.get nodes a = Some na ->
    (forall b, In b (imports na) -> JsMap.has nodes b = true)
    /\ (forall b, In b (importedBy na) -> JsMap.has nodes b = true).

(** Every node carries its key in its [path] field. *)
Definition well_keyed (nodes : GraphBuilder.Nodes) : Prop :=
  forall a na, JsMap.get nodes a = Some na -> path na = a.

(** The two loops of [build] over the files [allFiles]. *)
Definition node_phase (allFiles : list string) : M GraphBuilder.Nodes unit :=
  for_of allFiles
    (fun file => mmodify (fun nodes => JsMap.set nodes file (GraphBuilder.fresh_node file))).

Definition edge_phase (env : Env) (targetPath : string) (allFiles : list string)
  : M GraphBuilder.Nodes unit :=
  for_of allFiles (fun file => GraphBuilder.processFile env file targetPath).

(** The store of a new builder after both loops. *)
Definition built (env : Env) (targetPath : string) (allFiles : list string)
  : GraphBuilder.Nodes :=
  fst (edge_phase env targetPath allFiles
         (fst (node_phase allFiles GraphBuilder.new))).

(* ===================================================================== *)
(** * The exports of a file *)
(* ===================================================================== *)

(** The [exports] array under a key, when the key is present. *)
Definition exports_at (nodes : GraphBuilder.Nodes) (a : string)
  : option (list string) :=
  exports <$> JsMap.get nodes a.

(** What [extractExports] makes of the text of a file. *)
Definition exports_of (env : Env) (filePath : string) : Res (list string) :=
  res_bind (FileUtils.readFile env filePath) (fun content =>
    ASTParser.extractExports (babel_parse env) content (isTypeScriptFile filePath)).

(** A file that is read and parsed gets its exports; the exports of a
    file that is not stay as they are. *)
Definition with_exports (env : Env) (filePath : string) (old : list string)
  : list string :=
  match exports_of env filePath with
  | Ret names => names
  | Raise _ => old
  end.

(* ===================================================================== *)
(** * Import chains *)
(* ===================================================================== *)

(** [u] imports [v]. *)
Definition imports_edge (nodes : GraphBuilder.Nodes) (u v : string) : Prop :=
  exists n, JsMap.get nodes u = Some n /\ In v (imports n).

(** Each file of the list imports the next one. *)
Fixpoint chain (nodes : GraphBuilder.Nodes) (l : list string) : Prop :=
  match l with
  | [] => True
  | x :: rest =>
      match rest with
      | [] => True
      | y :: _ => imports_edge nodes x y /\ chain nodes rest
      end
  end.

(** A closed import chain: not empty, each file imports the next one and
    the last one imports the first. *)
Definition closed_chain (nodes : GraphBuilder.Nodes) (c : list string) : Prop :=
  exists first, head c = Some first
    /\ chain nodes c
    /\ imports_edge nodes (List.last c first) first.

(** The loop of [dfs] over the imports of a node, given the recursive
    call. *)
Definition dfs_loop (rec : string -> list string -> GraphBuilder.DfsState ->
                           option GraphBuilder.DfsState)
    (path : list string)
  : list string -> GraphBuilder.DfsState -> option GraphBuilder.DfsState :=
  fix loop (imps : list string) (st : GraphBuilder.DfsState)
    : option GraphBuilder.DfsState :=
    match imps with
    | [] => Some st
    | imported :: rest =>
        if negb (bool_decide (imported ∈ GraphBuilder.visited st)) then
          match rec imported path st with
          | Some st' => loop rest st'
          | None => None
          end
        else if bool_decide (imported ∈ GraphBuilder.recStack st) then
          let cycleStart := GraphBuilder.indexOf path imported in
          loop rest (GraphBuilder.push_cycle
                       (GraphBuilder.slice_from path cycleStart) st)
        else loop rest st
    end.

(** The keys not yet visited. *)
Definition unvisited (nodes : GraphBuilder.Nodes) (st : GraphBuilder.DfsState)
  : gset string :=
  list_to_set (JsMap.keys nodes) ∖ GraphBuilder.visited st.

(* ===================================================================== *)
(** * Fixtures: more source files *)
(* ===================================================================== *)

Module MoreSamples.
Import Fixture.

(** [function emptyCatch() { try { run(); } catch (e) { } }] over six
    lines, followed by a call of [emptyCatch]. *)
Definition catch_clause : Node :=
  node "CatchClause" 4 [ ("param", ident 4 "e"); ("body", block 4 []) ].

Definition try_statement : Node :=
  node "TryStatement" 2
    [ ("block", block 2 [ call 3 "run" ]);
      ("handler", catch_clause) ].

Definition catch_ast : Node :=
  file [ function_decl 1 "emptyCatch" true [ try_statement ];
         call 7 "emptyCatch" ].

Definition catch_ts : SourceFile :=
  {| sf_path := "/app/catch.ts";
     sf_text := source [ "function emptyCatch() {";
                         "  try {";
                         "    run();";
                         "  } catch (e) {";
                         "  }";
                         "}";
                         "emptyCatch();" ];
     sf_ast := Ret catch_ast |}.

(** [export const limit = true; export default limit;], one statement
    per line. *)
Definition exports_ast : Node :=
  file [ node "ExportNamedDeclaration" 1
           [ ("declaration", const_decl 1 "limit" true) ];
         node "ExportDefaultDeclaration" 2 [ ("declaration", ident 2 "limit") ] ].

Definition exports_ts : SourceFile :=
  {| sf_path := "/app/limit.ts";
     sf_text := source [ "export const limit = true;"; "export default limit;" ];
     sf_ast := Ret exports_ast |}.

Definition app : Env := env_of [catch_ts; exports_ts] None.

End MoreSamples.

(* ===================================================================== *)
(** * Strings without a separator *)
(* ===================================================================== *)

(** The character [sep] does not occur in [s]. *)
Definition free_of (sep : ascii) (s : string) : Prop :=
  ~ In sep (list_ascii_of_string s).

(** No character of [s] is a separator. *)
Definition segment (sep : ascii -> bool) (s : string) : Prop :=
  forallb (fun c => negb (sep c)) (list_ascii_of_string s) = true.

(* ===================================================================== *)
(** * ConfigAnalyzer.findConfigConflicts  (src/core/configAnalyzer.ts) *)
(* ===================================================================== *)

Module ConfigConflicts.
Section ConfigConflicts.
Variable env : Env.
(** [fs.access(path)]: resolves, or rejects with an error. *)
Variable fs_access : string -> Res unit.






End ConfigConflicts.
End ConfigConflicts.

(* ===================================================================== *)
(** * StaleDetector: components and duplicates  (src/core/staleDetector.ts) *)
(* ===================================================================== *)

Module StaleComponents.
Section StaleComponents.
Variable env : Env.

(** Get component files *)
Definition componentPatterns : list string :=
  [ "**/components/**/*.{jsx,tsx,vue,svelte}";
    "**/Components/**/*.{jsx,tsx,vue,svelte}" ].

(** The body of the loop over the component files. *)
Definition check_component (nodes : GraphBuilder.Nodes) (file : string)
  : list UnusedFile :=
  match GraphBuilder.getNode nodes file with
  | None => []
  | Some node =>
      (* Check if never imported *)
      (if (length (importedBy node) =? 0)%nat
       then [ {| uf_path := file; uf_reason := "Component never imported" |} ]
       else [])
      ++
      (* Check for stale naming *)
      (if FileUtils.isStaleFilename env file
       then [ {| uf_path := file; uf_reason := "Stale component name" |} ]
       else [])
  end.

Definition findStaleComponents (targetPath : string) : Res (list UnusedFile) :=
  res_bind (FileUtils.getFiles env targetPath componentPatterns
              FileUtils.default_exclude)
    (fun files =>
  (* Build dependency graph *)
  match GraphBuilder.build env targetPath None GraphBuilder.new with
  | (_, Raise e) => Raise e
  | (nodes, Ret _) => Ret (flat_map (check_component nodes) files)
  end).

End StaleComponents.
End StaleComponents.

Module Duplicates.
Section Duplicates.
Variable env : Env.
(** [String.prototype.toLowerCase] *)
Variable toLowerCase : string -> string.

(** [s.split(/[\\/]/)]: never empty. *)
Fixpoint split_where (sep : ascii -> bool) (s : string) : list string :=
  match s with
  | EmptyString => [EmptyString]
  | String c t =>
      if sep c then EmptyString :: split_where sep t
      else match split_where sep t with
           | [] => [String c EmptyString]
           | h :: r => String c h :: r
           end
  end.

Definition is_separator (c : ascii) : bool :=
  Ascii.eqb c "\" || Ascii.eqb c "/".

Definition source_extensions : list string :=
  [ "js"; "jsx"; "ts"; "tsx"; "py"; "go" ].

(** [s.replace(/\.(js|jsx|ts|tsx|py|go)$/, '')]: at most one of the
    alternatives matches at the end of the string. *)
Definition strip_extension (s : string) : string :=
  match find (fun ext => JsString.endsWith s ("." +:+ ext)) source_extensions with
  | Some ext => substring 0 (String.length s - String.length ext - 1) s
  | None => s
  end.

(** [file.split(/[\\/]/).pop()?.replace(...) || ''] *)
Definition basename_of (file : string) : string :=
  strip_extension (List.last (split_where is_separator file) "").

Definition normalized (file : string) : string := toLowerCase (basename_of file).

(** Group by basename without extension *)
Definition group_file (groups : JsMap.t (list string)) (file : string)
  : JsMap.t (list string) :=
  let groups :=
    if negb (JsMap.has groups (normalized file))
    then JsMap.set groups (normalized file) []
    else groups in
  JsMap.update groups (normalized file) (fun fileList => fileList ++ [file]).

(** Find groups with multiple files *)
Definition keep_group (duplicates : JsMap.t (list string))
    (entry : string * list string) : JsMap.t (list string) :=
  let (name, fileList) := entry in
  if (1 <? length fileList)%nat then JsMap.set duplicates name fileList
  else duplicates.

Definition findDuplicates (targetPath : string) : Res (JsMap.t (list string)) :=
  res_bind (FileUtils.getFiles env targetPath FileUtils.default_patterns
              FileUtils.default_exclude)
    (fun files =>
  let groups := fold_left group_file files JsMap.empty in
  Ret (fold_left keep_group groups JsMap.empty)).

End Duplicates.
End Duplicates.

(* ===================================================================== *)
(** * Fixtures: files that share a name *)
(* ===================================================================== *)

Module DuplicateSample.
Import Fixture.

Definition button_tsx : SourceFile :=
  {| sf_path := "/p/src/Button.tsx";
     sf_text := "export const Button = 1;";
     sf_ast := Ret (file []) |}.

Definition button_js : SourceFile :=
  {| sf_path := "/p/lib/button.js";
     sf_text := "module.exports = 2;";
     sf_ast := Ret (file []) |}.

Definition card_tsx : SourceFile :=
  {| sf_path := "/p/src/Card.tsx";
     sf_text := "export const Card = 3;";
     sf_ast := Ret (file []) |}.

Definition project : Env := env_of [button_tsx; button_js; card_tsx] None.

End DuplicateSample.

(* ===================================================================== *)
(** * Scanner  (src/core/scanner.ts) *)
(* ===================================================================== *)

Record DetoxReport := mkDetoxReport {
  unusedImports : list UnusedImport;
  unusedFiles : list UnusedFile;
  deadCode : list DeadCodeIssue;
  dependencyIssues : list DependencyIssue;
  scannedFiles : nat;
  timestamp : nat }.

Module Scanner.
Section Scanner.
Variable env : Env.
(** [new Date()] at the end of the scan. *)
Variable now : nat.

(** [scan(options)].  The four detectors of [Promise.all] read the files
    and write nothing; they are run here in the order of the array, and
    the scan throws when one of them does. *)
Definition scan (targetPath : string) : Res DetoxReport :=
  (* Get all files to scan *)
  res_bind (FileUtils.getFiles env targetPath FileUtils.default_patterns
              FileUtils.default_exclude) (fun files =>
  (* Run all detectors in parallel *)
  res_bind (UnusedFinder.findInProject env targetPath) (fun unusedImports =>
  res_bind (StaleDetector.findUnusedFiles env targetPath) (fun unusedFiles =>
  res_bind (DeadCodeDetector.detectInProject env targetPath) (fun deadCode =>
  res_bind (ConfigAnalyzer.analyzePackageJson env targetPath) (fun packageAnalysis =>
  let dependencyIssues :=
    unusedDependencies packageAnalysis ++ missingDependencies packageAnalysis in
  Ret {| unusedImports := unusedImports;
         unusedFiles := unusedFiles;
         deadCode := deadCode;
         dependencyIssues := dependencyIssues;
         scannedFiles := length files;
         timestamp := now |}))))).

Definition scanUnusedImports (targetPath : string) : Res (list UnusedImport) :=
  UnusedFinder.findInProject env targetPath.

Definition scanDeadCode (targetPath : string) : Res (list DeadCodeIssue) :=
  DeadCodeDetector.detectInProject env targetPath.

Definition scanUnusedFiles (targetPath : string) : Res (list UnusedFile) :=
  StaleDetector.findUnusedFiles env targetPath.

End Scanner.
End Scanner.

(* ===================================================================== *)
(** * Fixer  (src/core/fixer.ts) *)
(* ===================================================================== *)

Module Fixer.

(** The files the fixer works on: the text stored under each path. *)
Abbreviation Disk := (gmap string string).

(** What a fixer changes while it runs: the files, and its counter
    ([let fixed = 0], [let removed = 0]). *)
Record Run := mkRun {
  disk : Disk;
  counter : nat }.

Definition newline : ascii := ascii_of_nat 10.

Section Fixer.
(** Whether [fs.writeFile] and [fs.unlink] are permitted on a path. *)
Variable writable : string -> bool.

(** [fs.readFile(file, 'utf-8')] *)
Definition fs_readFile (file : string) : M Run string :=
  fun s => (s, match disk s !! file with
               | Some content => Ret content
               | None => Raise "ENOENT"
               end).

(** [fs.writeFile(file, content, 'utf-8')] *)
Definition fs_writeFile (file content : string) : M Run unit :=
  fun s => if writable file
           then ({| disk := <[file := content]> (disk s); counter := counter s |},
                 Ret tt)
           else (s, Raise "EACCES").

(** [fs.unlink(file)] *)
Definition fs_unlink (file : string) : M Run unit :=
  fun s => match disk s !! file with
           | Some _ =>
               if writable file
               then ({| disk := delete file (disk s); counter := counter s |}, Ret tt)
               else (s, Raise "EACCES")
           | None => (s, Raise "ENOENT")
           end.

(** The counter: [fixed], [removed]. *)
Definition get_counter : M Run nat := fun s => (s, Ret (counter s)).

Definition set_counter (n : nat) : M Run unit :=
  mmodify (fun s => {| disk := disk s; counter := n |}).

(** Group by file *)
Definition group_item {A} (file : A -> string) (byFile : JsMap.t (list A))
    (item : A) : JsMap.t (list A) :=
  let byFile :=
    if negb (JsMap.has byFile (file item))
    then JsMap.set byFile (file item) []
    else byFile in
  JsMap.update byFile (file item) (fun items => items ++ [item]).

Definition group_by_file {A} (file : A -> string) (items : list A)
  : JsMap.t (list A) :=
  fold_left (group_item file) items JsMap.empty.

(** [items.sort((a, b) => b.line - a.line)]: descending by line; the sort
    is stable, items of one line keep their order. *)
Fixpoint insert_desc {A} (line : A -> nat) (x : A) (sorted : list A) : list A :=
  match sorted with
  | [] => [x]
  | y :: rest =>
      if (line y <=? line x)%nat then x :: y :: rest
      else y :: insert_desc line x rest
  end.

Definition sort_desc {A} (line : A -> nat) (items : list A) : list A :=
  fold_right (insert_desc line) [] items.

(** ** removeUnusedImports *)

(** The body of the loop over the sorted imports of one file, on the
    locals [lines] and [fixed]; nothing in it throws. *)
Definition remove_import (locals : list string * nat) (imp : UnusedImport)
  : list string * nat :=
  let (lines, fixed) := locals in
  match ui_line imp with
  | 0 => locals                          (* lineIndex < 0 *)
  | S lineIndex =>
      match lines !! lineIndex with
      | None => locals                   (* lineIndex >= lines.length *)
      | Some line =>
          (* Simple removal: remove entire line if it only contains this import *)
          if JsString.includes line "import"
             && JsString.includes line (ui_importName imp)
          then (delete lineIndex lines, S fixed)
          else locals
      end
  end.

Definition fix_imports (entry : string * list UnusedImport) : M Run unit :=
  let (file, imports) := entry in
  try_catch
    (let! content := fs_readFile file in
     let lines := JsString.split newline content in
     (* Sort by line number in descending order to avoid index shifting *)
     let sortedImports := sort_desc ui_line imports in
     let! fixed := get_counter in
     let (lines, fixed) := fold_left remove_import sortedImports (lines, fixed) in
     do! set_counter fixed in
     fs_writeFile file (JsString.join (String newline "") lines))%m
    (fun error => mret tt).

Definition removeUnusedImports (unusedImports : list UnusedImport) (files : Disk)
  : Disk * Res nat :=
  let byFile := group_by_file ui_file unusedImports in
  match for_of byFile fix_imports {| disk := files; counter := 0 |} with
  | (s, Ret _) => (disk s, Ret (counter s))
  | (s, Raise e) => (disk s, Raise e)
  end.

(** ** removeUnusedFiles *)

Definition remove_file (file : string) : M Run unit :=
  try_catch
    (do! fs_unlink file in
     let! removed := get_counter in
     set_counter (S removed))%m
    (fun error => mret tt).

Definition removeUnusedFiles (paths : list string) (files : Disk) : Disk * Res nat :=
  match for_of paths remove_file {| disk := files; counter := 0 |} with
  | (s, Ret _) => (disk s, Ret (counter s))
  | (s, Raise e) => (disk s, Raise e)
  end.

(** ** commentDeadCode *)

Definition dead_code_mark : string := "// [DEAD CODE] ".

(** The body of the loop over the sorted issues of one file, on the locals
    [lines] and [fixed]; nothing in it throws. *)
Definition comment_issue (locals : list string * nat) (issue : DeadCodeIssue)
  : list string * nat :=
  let (lines, fixed) := locals in
  match dc_line issue with
  | 0 => locals                          (* lineIndex < 0 *)
  | S lineIndex =>
      match lines !! lineIndex with
      | None => locals                   (* lineIndex >= lines.length *)
      | Some line =>
          (* Comment out the line *)
          (<[lineIndex := dead_code_mark +:+ line]> lines, S fixed)
      end
  end.

Definition fix_dead_code (entry : string * list DeadCodeIssue) : M Run unit :=
  let (file, fileIssues) := entry in
  try_catch
    (let! content := fs_readFile file in
     let lines := JsString.split newline content in
     (* Sort by line number in descending order *)
     let sortedIssues := sort_desc dc_line fileIssues in
     let! fixed := get_counter in
     let (lines, fixed) := fold_left comment_issue sortedIssues (lines, fixed) in
     do! set_counter fixed in
     fs_writeFile file (JsString.join (String newline "") lines))%m
    (fun error => mret tt).

Definition commentDeadCode (issues : list DeadCodeIssue) (files : Disk)
  : Disk * Res nat :=
  let byFile := group_by_file dc_file issues in
  match for_of byFile fix_dead_code {| disk := files; counter := 0 |} with
  | (s, Ret _) => (disk s, Ret (counter s))
  | (s, Raise e) => (disk s, Raise e)
  end.

End Fixer.

(** ** What the fixers are meant to do to one file *)

(** The text of line [n] of a file, counted from 1. *)
Definition line_of (files : Disk) (file : string) (n : nat) : option string :=
  match n with
  | 0 => None
  | S lineIndex =>
      match files !! file with
      | Some content => JsString.split newline content !! lineIndex
      | None => None
      end
  end.

(** Some issue of the list names line [n]. *)
Definition marks (issues : list DeadCodeIssue) (n : nat) : nat :=
  length (List.filter (fun issue => (dc_line issue =? n)%nat) issues).

(** The lines, each with one mark in front for every issue on it; [n] is
    the number of the first line. *)
Fixpoint commented (issues : list DeadCodeIssue) (n : nat) (lines : list string)
  : list string :=
  match lines with
  | [] => []
  | line :: rest =>
      Nat.iter (marks issues n) (fun text => dead_code_mark +:+ text) line
        :: commented issues (S n) rest
  end.

(** The import names line [n] and both the word and the name occur in the
    line. *)
Definition hits (n : nat) (line : string) (imp : UnusedImport) : bool :=
  (ui_line imp =? n)%nat
  && JsString.includes line "import"
  && JsString.includes line (ui_importName imp).

(** The import names a line of [lines], and both the word and the name
    occur in that line. *)
Definition hit_line (lines : list string) (imp : UnusedImport) : bool :=
  match ui_line imp with
  | 0 => false
  | S lineIndex =>
      match lines !! lineIndex with
      | Some line => hits (S lineIndex) line imp
      | None => false
      end
  end.

(** The lines that no import of the list hits; [n] is the number of the
    first line. *)
Fixpoint kept (imports : list UnusedImport) (n : nat) (lines : list string)
  : list string :=
  match lines with
  | [] => []
  | line :: rest =>
      if existsb (hits n line) imports then kept imports (S n) rest
      else line :: kept imports (S n) rest
  end.

(** Every item names a smaller line than the items before it. *)
Fixpoint descending {A} (line : A -> nat) (items : list A) : Prop :=
  match items with
  | [] => True
  | x :: rest => (forall y, In y rest -> line y < line x) /\ descending line rest
  end.

(** [lines'] is [lines] without some of the lines that satisfy [gone]. *)
Inductive dropped (gone : string -> Prop) : list string -> list string -> Prop :=
| dropped_nil : dropped gone [] []
| dropped_keep line lines lines' :
    dropped gone lines lines' -> dropped gone (line :: lines) (line :: lines')
| dropped_drop line lines lines' :
    gone line -> dropped gone lines lines' -> dropped gone (line :: lines) lines'.

End Fixer.

(* ===================================================================== *)
(** * Fixtures: files to fix *)
(* ===================================================================== *)

Module FixSample.

Definition text (lines : list string) : string :=
  JsString.join (String Fixer.newline "") lines.

Definition files : Fixer.Disk :=
  {[ "/p/a.ts" := text [ "import moment from 'moment';";
                         "import _ from 'lodash';";
                         "console.log(_.map([1], x => x));" ];
     "/p/b.ts" := text [ "function f() {"; "  return 1;"; "  g();"; "}" ] ]}.

Definition unused : list UnusedImport :=
  [ {| ui_file := "/p/a.ts"; ui_line := 1; ui_importName := "moment";
       ui_from := "moment" |} ].

Definition dead : list DeadCodeIssue :=
  [ {| dc_file := "/p/b.ts"; dc_line := 3; dc_type := unreachable;
       dc_description := "Unreachable code after return/throw statement" |} ].

End FixSample.

(* ===================================================================== *)
(** * Facts about the building blocks *)
(* ===================================================================== *)

Lemma traverse_eq {A} (visit : Node -> string -> Node -> list A) ast :
  Ast.traverse visit ast = Ast.traverse_children visit ast (Ast.children ast).
Proof.
  destruct ast as [t l n v c b kids]. unfold Ast.traverse_children. simpl.
  set (p := mkNode t l n v c b kids). clearbody p.
  induction kids as [|[k c'] rest IH]; simpl; [reflexivity|].
  rewrite IH. reflexivity.
Qed.

(** ** JavaScript maps *)

Lemma jsmap_get_set {V} (m : JsMap.t V) k v k' :
  JsMap.get (JsMap.set m k v) k' =
  if String.eqb k k' then Some v else JsMap.get m k'.
Proof.
  induction m as [|[k0 v0] m IH]; simpl.
  - destruct (String.eqb k k'); reflexivity.
  - destruct (String.eqb k0 k) eqn:E0; simpl.
    + apply String.eqb_eq in E0. subst k0.
      destruct (String.eqb k k'); reflexivity.
    + destruct (String.eqb k0 k') eqn:E1.
      * apply String.eqb_eq in E1. subst k0.
        rewrite String.eqb_sym, E0. reflexivity.
      * apply IH.
Qed.

Lemma jsmap_get_update {V} (m : JsMap.t V) k f k' :
  JsMap.get (JsMap.update m k f) k' =
  if String.eqb k k' then f <$> JsMap.get m k' else JsMap.get m k'.
Proof.
  unfold JsMap.update. destruct (JsMap.get m k) as [v|] eqn:E.
  - rewrite jsmap_get_set. destruct (String.eqb k k') eqn:Ek; [|reflexivity].
    apply String.eqb_eq in Ek. subst k'. rewrite E. reflexivity.
  - destruct (String.eqb k k') eqn:Ek; [|reflexivity].
    apply String.eqb_eq in Ek. subst k'. rewrite E. reflexivity.
Qed.

Lemma jsmap_keys_set_present {V} (m : JsMap.t V) k v :
  JsMap.has m k = true -> JsMap.keys (JsMap.set m k v) = JsMap.keys m.
Proof.
  unfold JsMap.has, JsMap.keys.
  induction m as [|[k0 v0] m IH]; simpl; [discriminate|].
  destruct (String.eqb k0 k) eqn:E0; simpl; [reflexivity|].
  intros H. f_equal. apply IH, H.
Qed.

Lemma jsmap_keys_set_absent {V} (m : JsMap.t V) k v :
  JsMap.has m k = false -> JsMap.keys (JsMap.set m k v) = JsMap.keys m ++ [k].
Proof.
  unfold JsMap.has, JsMap.keys.
  induction m as [|[k0 v0] m IH]; simpl; [reflexivity|].
  destruct (String.eqb k0 k) eqn:E0; simpl; [discriminate|].
  intros H. f_equal. apply IH, H.
Qed.

Lemma jsmap_keys_update {V} (m : JsMap.t V) k f :
  JsMap.keys (JsMap.update m k f) = JsMap.keys m.
Proof.
  unfold JsMap.update. destruct (JsMap.get m k) eqn:E; [|reflexivity].
  apply jsmap_keys_set_present. unfold JsMap.has. rewrite E. reflexivity.
Qed.

Lemma jsmap_has_in_keys {V} (m : JsMap.t V) k :
  JsMap.has m k = true <-> In k (JsMap.keys m).
Proof.
  unfold JsMap.has, JsMap.keys.
  induction m as [|[k0 v0] m IH]; simpl.
  - split; [discriminate | tauto].
  - destruct (String.eqb k0 k) eqn:E0.
    + apply String.eqb_eq in E0. split; auto.
    + apply String.eqb_neq in E0. rewrite IH. split; [auto | intros [?|?]; congruence].
Qed.

(** ** State that survives exceptions *)

Lemma preserves_mret {S A} (P : S -> Prop) (a : A) : preserves P (mret a).
Proof. intros s H. exact H. Qed.

Lemma preserves_lift {S A} (P : S -> Prop) (r : Res A) : preserves P (lift r).
Proof. intros s H. exact H. Qed.

Lemma preserves_mget {S} (P : S -> Prop) : preserves P mget.
Proof. intros s H. exact H. Qed.

Lemma preserves_mmodify {S} (P : S -> Prop) (f : S -> S) :
  (forall s, P s -> P (f s)) -> preserves P (mmodify f).
Proof. intros Hf s H. apply Hf, H. Qed.

Lemma preserves_mbind {S A B} (P : S -> Prop) (m : M S A) (k : A -> M S B) :
  preserves P m -> (forall a, preserves P (k a)) -> preserves P (mbind m k).
Proof.
  intros Hm Hk s H. unfold mbind. specialize (Hm s H).
  destruct (m s) as [s' [a|e]]; simpl in *; [apply Hk, Hm | exact Hm].
Qed.

Lemma preserves_try_catch {S A} (P : S -> Prop) (body : M S A) handler :
  preserves P body -> (forall e, preserves P (handler e)) ->
  preserves P (try_catch body handler).
Proof.
  intros Hb Hh s H. unfold try_catch. specialize (Hb s H).
  destruct (body s) as [s' [a|e]]; simpl in *; [exact Hb | apply Hh, Hb].
Qed.

Lemma preserves_for_of {S A} (P : S -> Prop) (xs : list A) body :
  (forall x, preserves P (body x)) -> preserves P (for_of xs body).
Proof.
  intros Hb. induction xs as [|x xs IH]; simpl.
  - apply preserves_mret.
  - apply preserves_mbind; [apply Hb | intros _; exact IH].
Qed.

(* ===================================================================== *)
(** * The dependency graph: symmetry of the edges *)
(* ===================================================================== *)

Lemma edgeless_balanced nodes : edgeless nodes -> balanced nodes.
Proof.
  intros H a b na nb Ha Hb.
  destruct (H a na Ha) as [-> _]. destruct (H b nb Hb) as [_ ->]. reflexivity.
Qed.

Lemma edgeless_new : edgeless GraphBuilder.new.
Proof. intros a na H. discriminate H. Qed.

Lemma edgeless_set_fresh nodes file :
  edgeless nodes -> edgeless (JsMap.set nodes file (GraphBuilder.fresh_node file)).
Proof.
  intros H a na. rewrite jsmap_get_set.
  destruct (String.eqb file a).
  - intros [= <-]. split; reflexivity.
  - apply H.
Qed.

(** The store after the two pushes of one edge, seen from any key. *)
Lemma get_after_edge (nodes : GraphBuilder.Nodes) source target x :
  JsMap.get
    (JsMap.update
       (JsMap.update nodes source (GraphBuilder.push_imports target))
       target (GraphBuilder.push_importedBy source)) x
  = (fun n =>
       (if String.eqb target x then GraphBuilder.push_importedBy source else id)
         ((if String.eqb source x then GraphBuilder.push_imports target else id) n))
    <$> JsMap.get nodes x.
Proof.
  rewrite !jsmap_get_update.
  destruct (String.eqb target x), (String.eqb source x),
    (JsMap.get nodes x); reflexivity.
Qed.

Lemma count_occ_snoc (l : list string) x y :
  count_occ string_dec (l ++ [y]) x =
  count_occ string_dec l x + (if String.eqb y x then 1 else 0).
Proof.
  rewrite count_occ_app. simpl.
  destruct (string_dec y x) as [->|Hne].
  - rewrite String.eqb_refl. reflexivity.
  - apply String.eqb_neq in Hne. rewrite Hne. reflexivity.
Qed.

Lemma balanced_edge nodes source target :
  balanced nodes ->
  balanced
    (JsMap.update
       (JsMap.update nodes source (GraphBuilder.push_imports target))
       target (GraphBuilder.push_importedBy source)).
Proof.
  intros H a b na nb. rewrite !get_after_edge.
  destruct (JsMap.get nodes a) as [na0|] eqn:Ea; [|discriminate].
  destruct (JsMap.get nodes b) as [nb0|] eqn:Eb; [|discriminate].
  simpl. intros [= <-] [= <-].
  specialize (H a b na0 nb0 Ea Eb).
  destruct (String.eqb target a) eqn:Ta, (String.eqb source a) eqn:Sa,
    (String.eqb target b) eqn:Tb, (String.eqb source b) eqn:Sb;
    simpl; rewrite ?count_occ_snoc, ?Ta, ?Sa, ?Tb, ?Sb; lia.
Qed.

Lemma balanced_set_exports nodes file names :
  balanced nodes ->
  balanced (JsMap.update nodes file (GraphBuilder.set_exports names)).
Proof.
  intros H a b na nb. rewrite !jsmap_get_update.
  destruct (JsMap.get nodes a) as [na0|] eqn:Ea;
    [|destruct (String.eqb file a); discriminate].
  destruct (JsMap.get nodes b) as [nb0|] eqn:Eb;
    [|destruct (String.eqb file b); discriminate].
  specialize (H a b na0 nb0 Ea Eb).
  destruct (String.eqb file a), (String.eqb file b); simpl;
    intros [= <-] [= <-]; exact H.
Qed.

Section GraphFacts.
Variable env : Env.

Lemma add_import_balanced filePath imp :
  preserves balanced (GraphBuilder.add_import env filePath imp).
Proof.
  intros nodes H. unfold GraphBuilder.add_import.
  destruct (FileUtils.resolveImportPath _ _ _ _) as [resolvedPath|]; [|exact H].
  destruct (JsMap.has nodes resolvedPath); [|exact H].
  simpl. apply balanced_edge, H.
Qed.

Lemma processFile_balanced filePath rootPath :
  preserves balanced (GraphBuilder.processFile env filePath rootPath).
Proof.
  intros nodes H. unfold GraphBuilder.processFile.
  destruct (JsMap.get nodes filePath); [|exact H].
  revert nodes H. change (preserves balanced
    (try_catch
       (let! content := lift (FileUtils.readFile env filePath) in
        let isTypeScript := isTypeScriptFile filePath in
        let! imports :=
          lift (ASTParser.extractImports (babel_parse env) content isTypeScript) in
        do! for_of imports (GraphBuilder.add_import env filePath) in
        let! names :=
          lift (ASTParser.extractExports (babel_parse env) content isTypeScript) in
        mmodify (fun nodes =>
                   JsMap.update nodes filePath (GraphBuilder.set_exports names)))%m
       (fun error => mret tt))).
  repeat first
    [ apply preserves_try_catch | apply preserves_mbind | apply preserves_lift
    | apply preserves_mret | apply preserves_for_of | apply preserves_mmodify
    | apply add_import_balanced | intro ].
  intros nodes H. apply (balanced_set_exports nodes filePath _ H).
Qed.

Lemma init_edgeless (files : list string) :
  preserves edgeless
    (for_of files (fun file =>
       mmodify (fun nodes => JsMap.set nodes file (GraphBuilder.fresh_node file)))).
Proof.
  apply preserves_for_of. intros file. apply preserves_mmodify.
  intros nodes H. apply edgeless_set_fresh, H.
Qed.

(** The initialisation loop cannot throw. *)
Lemma for_of_mmodify_ret {S A} (xs : list A) (f : A -> S -> S) s :
  snd (for_of xs (fun x => mmodify (f x)) s) = Ret tt.
Proof.
  revert s. induction xs as [|x xs IH]; intros s; simpl; [reflexivity|].
  unfold mbind, mmodify at 1. simpl. apply IH.
Qed.

Lemma build_balanced targetPath files :
  balanced (fst (GraphBuilder.build env targetPath files GraphBuilder.new)).
Proof.
  unfold GraphBuilder.build.
  set (getAll := match files with Some fs => mret fs | None => _ end).
  unfold mbind at 1.
  assert (Hget : fst (getAll GraphBuilder.new) = GraphBuilder.new).
  { unfold getAll. destruct files; reflexivity. }
  destruct (getAll GraphBuilder.new) as [s0 [allFiles|e]]; simpl in Hget; subst s0;
    [|apply edgeless_balanced, edgeless_new].
  unfold mbind at 1.
  pose proof (init_edgeless allFiles _ edgeless_new) as Hinit.
  pose proof (for_of_mmodify_ret allFiles
                (fun file nodes => JsMap.set nodes file (GraphBuilder.fresh_node file))
                GraphBuilder.new) as Hret.
  destruct (for_of allFiles _ GraphBuilder.new) as [s1 r1]. simpl in *. subst r1.
  apply edgeless_balanced in Hinit.
  apply (preserves_mbind balanced); auto.
  - apply preserves_for_of. intros file. apply processFile_balanced.
  - intros _. apply preserves_mget.
Qed.

End GraphFacts.

(** C1. Graph symmetry: in the graph [build] leaves in a new builder,
    for all nodes A and B, B is in [A.imports] if and only if A is in
    [B.importedBy]; the only insertion is the pair of pushes of
    [add_import], so both sides even agree in the number of entries. *)
Theorem graph_symmetry (env : Env) (targetPath : string)
    (files : option (list string)) (a b : string) (na nb : DependencyNode) :
  let nodes := fst (GraphBuilder.build env targetPath files GraphBuilder.new) in
  JsMap.get nodes a = Some na ->
  JsMap.get nodes b = Some nb ->
  (In b (imports na) <-> In a (importedBy nb))
  /\ count_occ string_dec (imports na) b = count_occ string_dec (importedBy nb) a.
Proof.
  intros nodes Ha Hb.
  pose proof (build_balanced env targetPath files a b na nb Ha Hb) as H.
  split; [|exact H].
  rewrite (count_occ_In string_dec (imports na) b).
  rewrite (count_occ_In string_dec (importedBy nb) a).
  rewrite H. reflexivity.
Qed.

Lemma graph_symmetry_witness :
  (In "/p/b.ts" ["/p/b.ts"; "/p/b.ts"] <-> In "/p/a.ts" ["/p/a.ts"; "/p/a.ts"])
  /\ count_occ string_dec ["/p/b.ts"; "/p/b.ts"] "/p/b.ts"
     = count_occ string_dec ["/p/a.ts"; "/p/a.ts"] "/p/a.ts".
Proof.
  apply (graph_symmetry Project.twice "/p" (Some Project.twice_files)
           "/p/a.ts" "/p/b.ts"
           {| path := "/p/a.ts"; imports := ["/p/b.ts"; "/p/b.ts"];
              importedBy := []; exports := [] |}
           {| path := "/p/b.ts"; imports := [];
              importedBy := ["/p/a.ts"; "/p/a.ts"]; exports := [] |});
    vm_compute; reflexivity.
Defined.

(* ===================================================================== *)
(** * The dependency graph: one entry per import statement *)
(* ===================================================================== *)

Section EdgeLists.
Variable env : Env.

Lemma targets_in_ext known known' filePath imps :
  (forall p, known p = known' p) ->
  targets_in env known filePath imps = targets_in env known' filePath imps.
Proof.
  intros H. unfold targets_in. induction imps as [|imp imps IH]; simpl; [reflexivity|].
  rewrite IH. destruct (FileUtils.resolveImportPath _ _ _ _); [|reflexivity].
  rewrite H. reflexivity.
Qed.

Lemma has_after_edge (nodes : GraphBuilder.Nodes) source target x :
  JsMap.has
    (JsMap.update
       (JsMap.update nodes source (GraphBuilder.push_imports target))
       target (GraphBuilder.push_importedBy source)) x
  = JsMap.has nodes x.
Proof.
  unfold JsMap.has. rewrite get_after_edge.
  destruct (JsMap.get nodes x); reflexivity.
Qed.

(** The loop over the imports of [filePath] appends, to the [imports] of
    [filePath] alone, the targets that are nodes; it cannot throw and
    leaves the set of keys alone. *)
Lemma add_import_eq filePath imp nodes :
  GraphBuilder.add_import env filePath imp nodes
  = (after_import env filePath imp nodes, Ret tt).
Proof.
  unfold GraphBuilder.add_import, after_import.
  destruct (FileUtils.resolveImportPath _ _ _ _) as [resolvedPath|]; [|reflexivity].
  destruct (JsMap.has nodes resolvedPath); reflexivity.
Qed.

Lemma add_imports_effect filePath imps : forall nodes,
  let out := for_of imps (GraphBuilder.add_import env filePath) nodes in
  snd out = Ret tt
  /\ (forall x, JsMap.has (fst out) x = JsMap.has nodes x)
  /\ (forall a, imports_at (fst out) a =
                (fun l => l ++ if String.eqb filePath a
                               then targets_in env (JsMap.has nodes) filePath imps
                               else [])
                <$> imports_at nodes a).
Proof.
  induction imps as [|imp imps IH]; intros nodes; simpl.
  - split; [reflexivity|]. split; [reflexivity|].
    intros a. unfold imports_at. destruct (JsMap.get nodes a); simpl; [|reflexivity].
    destruct (String.eqb filePath a); rewrite app_nil_r; reflexivity.
  - unfold mbind. rewrite add_import_eq.
    destruct (IH (after_import env filePath imp nodes)) as (Hret & Hhas & Himp).
    split; [exact Hret|].
    unfold after_import in *.
    destruct (FileUtils.resolveImportPath env filePath (imp_source imp)
                FileUtils.default_extensions) as [resolvedPath|] eqn:Er;
      [destruct (JsMap.has nodes resolvedPath) eqn:Eh|]; simpl.
    + set (nodes1 := JsMap.update (JsMap.update nodes filePath _) resolvedPath _) in *.
      split.
      * intros x. rewrite Hhas. apply has_after_edge.
      * intros a. rewrite Himp.
        rewrite (targets_in_ext (JsMap.has nodes1) (JsMap.has nodes))
          by (intros p; apply has_after_edge).
        unfold imports_at, nodes1. rewrite get_after_edge.
        destruct (JsMap.get nodes a) as [n|]; simpl; [|reflexivity].
        destruct (String.eqb resolvedPath a), (String.eqb filePath a); simpl;
          rewrite <- ?app_assoc; reflexivity.
    + split; [exact Hhas|exact Himp].
    + split; [exact Hhas|exact Himp].
Qed.

Lemma set_exports_effect (nodes : GraphBuilder.Nodes) filePath names :
  (forall x, JsMap.has (JsMap.update nodes filePath (GraphBuilder.set_exports names)) x
             = JsMap.has nodes x)
  /\ (forall a, imports_at (JsMap.update nodes filePath (GraphBuilder.set_exports names)) a
                = imports_at nodes a).
Proof.
  split; intros x; unfold JsMap.has, imports_at; rewrite jsmap_get_update;
    destruct (String.eqb filePath x), (JsMap.get nodes x); reflexivity.
Qed.

(** What [processFile] does to the [imports] arrays of a store whose
    keys are the scanned files. *)
Lemma processFile_effect files filePath rootPath nodes :
  (forall x, JsMap.has nodes x = existsb (String.eqb x) files) ->
  let out := GraphBuilder.processFile env filePath rootPath nodes in
  snd out = Ret tt
  /\ (forall x, JsMap.has (fst out) x = JsMap.has nodes x)
  /\ (forall a, imports_at (fst out) a =
                (fun l => l ++ if String.eqb filePath a
                               then resolved_imports env files filePath
                               else [])
                <$> imports_at nodes a).
Proof.
  intros Hkeys. unfold GraphBuilder.processFile.
  assert (Hid : forall a (tail : list string),
             tail = [] \/ JsMap.get nodes filePath = None ->
             imports_at nodes a =
             (fun l => l ++ if String.eqb filePath a then tail else [])
             <$> imports_at nodes a).
  { intros a tail Ht. unfold imports_at.
    destruct (JsMap.get nodes a) as [n|] eqn:Ea; simpl; [|reflexivity].
    destruct (String.eqb filePath a) eqn:Efa; [|rewrite app_nil_r; reflexivity].
    apply String.eqb_eq in Efa. subst a.
    destruct Ht as [->|Hn]; [rewrite app_nil_r; reflexivity|congruence]. }
  destruct (JsMap.get nodes filePath) as [n0|] eqn:E0; simpl.
  2:{ split; [reflexivity|]. split; [reflexivity|]. intros a. apply Hid. auto. }
  unfold resolved_imports, try_catch, mbind, lift. simpl.
  destruct (FileUtils.readFile env filePath) as [content|e]; simpl.
  2:{ split; [reflexivity|]. split; [reflexivity|]. intros a. apply Hid. auto. }
  destruct (ASTParser.extractImports (babel_parse env) content
              (isTypeScriptFile filePath)) as [imps|e]; simpl.
  2:{ split; [reflexivity|]. split; [reflexivity|]. intros a. apply Hid. auto. }
  destruct (add_imports_effect filePath imps nodes) as (Hret & Hhas & Himp).
  destruct (for_of imps (GraphBuilder.add_import env filePath) nodes)
    as [nodes1 r1]. simpl in *. subst r1.
  rewrite (targets_in_ext _ (JsMap.has nodes)) by (intros p; symmetry; apply Hkeys).
  destruct (ASTParser.extractExports (babel_parse env) content
              (isTypeScriptFile filePath)) as [names|e]; simpl.
  - destruct (set_exports_effect nodes1 filePath names) as [Hh Hi].
    unfold mmodify, mret. simpl.
    split; [reflexivity|]. split.
    + intros x. rewrite Hh. apply Hhas.
    + intros a. rewrite Hi. apply Himp.
  - unfold mret. simpl. split; [reflexivity|]. split; [exact Hhas|exact Himp].
Qed.

(** The edge phase over a duplicate-free list of files. *)
Lemma edge_phase_effect files rootPath : forall todo nodes,
  NoDup todo ->
  (forall x, JsMap.has nodes x = existsb (String.eqb x) files) ->
  let out := for_of todo (fun file => GraphBuilder.processFile env file rootPath) nodes in
  snd out = Ret tt
  /\ (forall x, JsMap.has (fst out) x = JsMap.has nodes x)
  /\ (forall a, imports_at (fst out) a =
                (fun l => l ++ if existsb (String.eqb a) todo
                               then resolved_imports env files a
                               else [])
                <$> imports_at nodes a).
Proof.
  induction todo as [|file todo IH]; intros nodes Hnd Hkeys; simpl.
  - split; [reflexivity|]. split; [reflexivity|].
    intros a. unfold imports_at. destruct (JsMap.get nodes a); simpl; [|reflexivity].
    rewrite app_nil_r. reflexivity.
  - inversion Hnd as [|? ? Hnotin Hnd']; subst.
    destruct (processFile_effect files file rootPath nodes Hkeys)
      as (Hret & Hhas & Himp).
    unfold mbind.
    destruct (GraphBuilder.processFile env file rootPath nodes) as [nodes1 r1].
    simpl in *. subst r1.
    assert (Hkeys1 : forall x, JsMap.has nodes1 x = existsb (String.eqb x) files).
    { intros x. rewrite Hhas. apply Hkeys. }
    destruct (IH nodes1 Hnd' Hkeys1) as (Hret' & Hhas' & Himp').
    split; [exact Hret'|]. split.
    + intros x. rewrite Hhas'. apply Hhas.
    + intros a. rewrite Himp', Himp. unfold imports_at.
      destruct (JsMap.get nodes a) as [n|]; simpl; [|reflexivity].
      f_equal. rewrite <- app_assoc. f_equal.
      rewrite (String.eqb_sym a file).
      destruct (String.eqb file a) eqn:Efa; simpl.
      * apply String.eqb_eq in Efa. subst a.
        assert (Hex : existsb (String.eqb file) todo = false).
        { apply not_true_is_false. intros Hex. apply existsb_exists in Hex.
          destruct Hex as (y & Hy & Heq). apply String.eqb_eq in Heq. subst y.
          apply Hnotin, list_elem_of_In, Hy. }
        rewrite Hex. apply app_nil_r.
      * reflexivity.
Qed.

(** The node phase: afterwards the keys are the files, on top of what
    was there. *)
Lemma node_phase_keys (files : list string) : forall nodes x,
  JsMap.has
    (fst (for_of files (fun file =>
            mmodify (fun nodes => JsMap.set nodes file (GraphBuilder.fresh_node file)))
          nodes)) x
  = JsMap.has nodes x || existsb (String.eqb x) files.
Proof.
  induction files as [|file files IH]; intros nodes x; simpl.
  - rewrite orb_false_r. reflexivity.
  - unfold mbind, mmodify at 1. simpl. rewrite IH.
    unfold JsMap.has at 1. rewrite jsmap_get_set.
    rewrite (String.eqb_sym x file).
    destruct (String.eqb file x); simpl.
    + rewrite orb_true_r. reflexivity.
    + reflexivity.
Qed.

(** The [imports] array of every node of a built graph. *)
Lemma build_imports targetPath (files : list string) a na :
  NoDup files ->
  JsMap.get (fst (GraphBuilder.build env targetPath (Some files) GraphBuilder.new)) a
    = Some na ->
  imports na = resolved_imports env files a.
Proof.
  intros Hnd. unfold GraphBuilder.build. unfold mbind at 1, mret at 1.
  unfold mbind at 1.
  pose proof (init_edgeless files _ edgeless_new) as Hedge.
  pose proof (node_phase_keys files GraphBuilder.new) as Hkeys.
  pose proof (for_of_mmodify_ret files
                (fun file nodes => JsMap.set nodes file (GraphBuilder.fresh_node file))
                GraphBuilder.new) as Hret.
  destruct (for_of files _ GraphBuilder.new) as [nodes1 r1]. simpl in *. subst r1.
  destruct (edge_phase_effect files targetPath files nodes1 Hnd Hkeys)
    as (Hret' & Hhas' & Himp').
  unfold mbind.
  destruct (for_of files _ nodes1) as [nodes2 r2]. simpl in *. subst r2.
  unfold mget. simpl. intros Ha.
  specialize (Himp' a). unfold imports_at in Himp'. rewrite Ha in Himp'.
  assert (Hin : existsb (String.eqb a) files = true).
  { rewrite <- Hkeys, <- Hhas'. unfold JsMap.has. rewrite Ha. reflexivity. }
  rewrite Hin in Himp'.
  destruct (JsMap.get nodes1 a) as [n1|] eqn:E1; simpl in Himp'; [|discriminate].
  destruct (Hedge a n1 E1) as [Hi _]. rewrite Hi in Himp'.
  injection Himp' as ->. reflexivity.
Qed.

End EdgeLists.

(** C2, as stated, fails: [/p/a.ts] imports [./b] in two statements, and
    the built graph holds [/p/b.ts] twice in its [imports] and
    [/p/a.ts] twice in the [importedBy] of [/p/b.ts]. *)
Lemma imports_hold_duplicates :
  let nodes := fst (GraphBuilder.build Project.twice "/p"
                      (Some Project.twice_files) GraphBuilder.new) in
  exists na nb,
    JsMap.get nodes "/p/a.ts" = Some na
    /\ JsMap.get nodes "/p/b.ts" = Some nb
    /\ count_occ string_dec (imports na) "/p/b.ts" = 2
    /\ count_occ string_dec (importedBy nb) "/p/a.ts" = 2
    /\ ~ NoDup (imports na)
    /\ ~ NoDup (importedBy nb).
Proof.
  eexists _, _. split; [vm_compute; reflexivity|]. split; [vm_compute; reflexivity|].
  split; [reflexivity|]. split; [reflexivity|].
  split; intros H; apply NoDup_cons_1_1 in H; apply H; left.
Qed.

(** C2, amended.  [imports] and [importedBy] are arrays with one entry per
    import statement: in the graph built over a duplicate-free list of
    files, [A.imports] lists, in statement order, the targets of the
    import statements of A that resolve to a scanned file, so B occurs
    in [A.imports], and A in [B.importedBy], exactly as many times as A
    has import statements that resolve to B. *)
Theorem edges_counted_per_import (env : Env) (targetPath : string)
    (files : list string) (a b : string) (na nb : DependencyNode) :
  NoDup files ->
  let nodes := fst (GraphBuilder.build env targetPath (Some files) GraphBuilder.new) in
  JsMap.get nodes a = Some na ->
  JsMap.get nodes b = Some nb ->
  imports na = resolved_imports env files a
  /\ count_occ string_dec (imports na) b
     = count_occ string_dec (resolved_imports env files a) b
  /\ count_occ string_dec (importedBy nb) a
     = count_occ string_dec (resolved_imports env files a) b.
Proof.
  intros Hnd nodes Ha Hb.
  pose proof (build_imports env targetPath files a na Hnd Ha) as Hi.
  pose proof (build_balanced env targetPath (Some files) a b na nb Ha Hb) as Hbal.
  split; [exact Hi|]. split; [rewrite Hi; reflexivity|].
  rewrite <- Hbal, Hi. reflexivity.
Qed.

Lemma edges_counted_per_import_witness :
  ["/p/b.ts"; "/p/b.ts"] = resolved_imports Project.twice Project.twice_files "/p/a.ts"
  /\ count_occ string_dec ["/p/b.ts"; "/p/b.ts"] "/p/b.ts"
     = count_occ string_dec
         (resolved_imports Project.twice Project.twice_files "/p/a.ts") "/p/b.ts"
  /\ count_occ string_dec ["/p/a.ts"; "/p/a.ts"] "/p/a.ts"
     = count_occ string_dec
         (resolved_imports Project.twice Project.twice_files "/p/a.ts") "/p/b.ts".
Proof.
  apply (edges_counted_per_import Project.twice "/p" Project.twice_files
           "/p/a.ts" "/p/b.ts"
           {| path := "/p/a.ts"; imports := ["/p/b.ts"; "/p/b.ts"];
              importedBy := []; exports := [] |}
           {| path := "/p/b.ts"; imports := [];
              importedBy := ["/p/a.ts"; "/p/a.ts"]; exports := [] |}).
  - refine (bool_decide_unpack (NoDup Project.twice_files) _).
    vm_compute. reflexivity.
  - vm_compute; reflexivity.
  - vm_compute; reflexivity.
Defined.

(* ===================================================================== *)
(** * Loops that only push *)
(* ===================================================================== *)

(** A loop whose body appends [g x] to the array and does not throw
    appends the concatenation of the [g x]. *)
Lemma for_of_push {A B} (xs : list A) (body : A -> M (list B) unit)
    (g : A -> list B) :
  (forall x acc, body x acc = (acc ++ g x, Ret tt)) ->
  forall acc, for_of xs body acc = (acc ++ flat_map g xs, Ret tt).
Proof.
  intros Hbody. induction xs as [|x xs IH]; intros acc; simpl.
  - rewrite app_nil_r. reflexivity.
  - unfold mbind. rewrite Hbody, IH, <- app_assoc. reflexivity.
Qed.

Lemma for_of_cons {S A} (x : A) (xs : list A) (body : A -> M S unit) s :
  for_of (x :: xs) body s
  = match body x s with
    | (s', Ret _) => for_of xs body s'
    | (s', Raise e) => (s', Raise e)
    end.
Proof. reflexivity. Qed.

(** The same for a loop over files whose body calls a function that
    returns an array or throws: the first throw ends the loop. *)
Lemma for_of_collect {B} (files : list string) (f : string -> Res (list B))
    (g : string -> list B) :
  (forall file, f file = Ret (g file)) ->
  returning_local []
    (for_of files (fun file =>
       let! found := lift (f file) in
       mmodify (fun all => all ++ found))%m)
  = Ret (flat_map g files).
Proof.
  intros Hf. unfold returning_local.
  rewrite (for_of_push files _ g); [reflexivity|].
  intros file acc. unfold mbind, lift, mmodify. rewrite Hf. reflexivity.
Qed.

(* ===================================================================== *)
(** * Unused imports *)
(* ===================================================================== *)

Section UnusedImports.
Variable env : Env.

Lemma check_specifier_push filePath used imp specifier acc :
  UnusedFinder.check_specifier filePath used imp specifier acc
  = (acc ++ (if negb (bool_decide (specifier ∈ used))
             then [ {| ui_file := filePath; ui_line := imp_line imp;
                       ui_importName := specifier; ui_from := imp_source imp |} ]
             else []), Ret tt).
Proof.
  unfold UnusedFinder.check_specifier.
  destruct (negb (bool_decide (specifier ∈ used))); simpl.
  - reflexivity.
  - unfold mret. rewrite app_nil_r. reflexivity.
Qed.

(** [findInFile] on a file that is read and parsed. *)
Lemma findInFile_parsed filePath content ast :
  fs_readFile env filePath = Ret content ->
  babel_parse env content (isTypeScriptFile filePath) = Ret ast ->
  UnusedFinder.findInFile env filePath
  = Ret (flat_map
           (flag_import filePath
              (list_to_set (Ast.traverse ASTParser.visit_Identifier ast)))
           (Ast.traverse ASTParser.visit_ImportDeclaration ast)).
Proof.
  intros Hread Hparse.
  unfold UnusedFinder.findInFile, returning_local, try_catch, mbind, lift,
    FileUtils.readFile, ASTParser.extractImports, ASTParser.extractIdentifiers,
    ASTParser.parse.
  rewrite Hread. simpl. rewrite Hparse. simpl.
  rewrite (for_of_push _ _ (flag_import filePath
             (list_to_set (Ast.traverse ASTParser.visit_Identifier ast)))).
  - reflexivity.
  - intros imp acc. apply for_of_push. intros specifier acc'.
    apply check_specifier_push.
Qed.

(** [findInFile] on a file that cannot be read or parsed. *)
Lemma findInFile_skipped filePath :
  (exists e, fs_readFile env filePath = Raise e)
  \/ (exists content e, fs_readFile env filePath = Ret content
        /\ babel_parse env content (isTypeScriptFile filePath) = Raise e) ->
  UnusedFinder.findInFile env filePath = Ret [].
Proof.
  unfold UnusedFinder.findInFile, returning_local, try_catch, mbind, lift,
    FileUtils.readFile, ASTParser.extractImports, ASTParser.parse.
  intros [[e Hread]|(content & e & Hread & Hparse)]; rewrite Hread; simpl.
  - reflexivity.
  - rewrite Hparse. reflexivity.
Qed.

(** [findInFile] never throws. *)
Lemma findInFile_total filePath :
  exists unused, UnusedFinder.findInFile env filePath = Ret unused.
Proof.
  destruct (fs_readFile env filePath) as [content|e] eqn:Hread.
  - destruct (babel_parse env content (isTypeScriptFile filePath)) as [ast|e] eqn:Hparse.
    + eexists. apply (findInFile_parsed filePath content ast Hread Hparse).
    + exists []. apply findInFile_skipped. right. eauto.
  - exists []. apply findInFile_skipped. left. eauto.
Qed.

End UnusedImports.

Lemma in_flag_import filePath used imp u :
  In u (flag_import filePath used imp) <->
  exists specifier,
    In specifier (imp_specifiers imp) /\ (specifier ∉ used)
    /\ u = {| ui_file := filePath; ui_line := imp_line imp;
              ui_importName := specifier; ui_from := imp_source imp |}.
Proof.
  unfold flag_import. rewrite in_flat_map. split.
  - intros (specifier & Hin & Hu). exists specifier.
    destruct (bool_decide (specifier ∈ used)) eqn:E; simpl in Hu; [contradiction|].
    apply bool_decide_eq_false in E.
    destruct Hu as [<-|[]]. auto.
  - intros (specifier & Hin & Hnot & ->). exists specifier. split; [exact Hin|].
    rewrite (bool_decide_eq_false_2 _ Hnot). left. reflexivity.
Qed.

(** C3. For a file that is read and parsed, a local name bound by an
    import specifier is flagged as unused if and only if it is not in
    the set of used identifiers of the file, every issue names such a
    specifier; and for the file that imports [moment] and [lodash] and
    refers to [lodash] only, the issues are exactly the one for
    [moment]. *)
Theorem unused_import_classifier :
  (forall (env : Env) (filePath content : string) (ast : Node),
      fs_readFile env filePath = Ret content ->
      babel_parse env content (isTypeScriptFile filePath) = Ret ast ->
      let imps := Ast.traverse ASTParser.visit_ImportDeclaration ast in
      let used : gset string :=
        list_to_set (Ast.traverse ASTParser.visit_Identifier ast) in
      exists unused,
        UnusedFinder.findInFile env filePath = Ret unused
        /\ (forall imp specifier,
               In imp imps -> In specifier (imp_specifiers imp) ->
               (In {| ui_file := filePath; ui_line := imp_line imp;
                      ui_importName := specifier; ui_from := imp_source imp |}
                   unused
                <-> specifier ∉ used))
        /\ (forall x,
               (exists imp, In imp imps /\ In x (imp_specifiers imp)) ->
               ((exists u, In u unused /\ ui_importName u = x) <-> x ∉ used))
        /\ (forall u, In u unused ->
               exists imp, In imp imps /\ In (ui_importName u) (imp_specifiers imp)))
  /\ UnusedFinder.findInFile Sample.app "/app/dates.ts"
     = Ret [ {| ui_file := "/app/dates.ts"; ui_line := 1;
                ui_importName := "moment"; ui_from := "moment" |} ]
  /\ "lodash" ∈ (list_to_set (Ast.traverse ASTParser.visit_Identifier Sample.dates_ast)
                 : gset string)
  /\ "moment" ∉ (list_to_set (Ast.traverse ASTParser.visit_Identifier Sample.dates_ast)
                 : gset string).
Proof.
  split.
  - intros env filePath content ast Hread Hparse imps used.
    eexists. split; [apply (findInFile_parsed env filePath content ast Hread Hparse)|].
    fold imps used. split; [|split].
    + intros imp specifier Himp Hspec. rewrite in_flat_map. split.
      * intros (imp' & _ & Hu). apply in_flag_import in Hu.
        destruct Hu as (specifier' & _ & Hnot & [= _ -> _]). exact Hnot.
      * intros Hnot. exists imp. split; [exact Himp|].
        apply in_flag_import. eauto.
    + intros x (imp & Himp & Hspec). split.
      * intros (u & Hu & <-). apply in_flat_map in Hu.
        destruct Hu as (imp' & _ & Hu). apply in_flag_import in Hu.
        destruct Hu as (specifier' & _ & Hnot & ->). exact Hnot.
      * intros Hnot. eexists. split.
        -- apply in_flat_map. exists imp. split; [exact Himp|].
           apply in_flag_import. eauto.
        -- reflexivity.
    + intros u Hu. apply in_flat_map in Hu. destruct Hu as (imp & Himp & Hu).
      apply in_flag_import in Hu. destruct Hu as (specifier & Hspec & _ & ->).
      exists imp. auto.
  - split; [vm_compute; reflexivity|]. split.
    + refine (bool_decide_unpack _ _). vm_compute. reflexivity.
    + refine (proj1 (bool_decide_eq_false _) _). vm_compute. reflexivity.
Qed.

Lemma unused_import_classifier_witness :
  exists unused,
    UnusedFinder.findInFile Sample.app "/app/dates.ts" = Ret unused
    /\ (In {| ui_file := "/app/dates.ts"; ui_line := 1;
              ui_importName := "moment"; ui_from := "moment" |} unused
        <-> "moment" ∉ (list_to_set
                          (Ast.traverse ASTParser.visit_Identifier Sample.dates_ast)
                        : gset string)).
Proof.
  destruct (proj1 unused_import_classifier Sample.app "/app/dates.ts"
              (Fixture.sf_text Sample.dates_ts) Sample.dates_ast
              eq_refl eq_refl) as (unused & Hrun & Hiff & _).
  exists unused. split; [exact Hrun|].
  apply (Hiff {| imp_source := "moment"; imp_specifiers := ["moment"];
                 imp_line := 1 |} "moment").
  - vm_compute. left. reflexivity.
  - left. reflexivity.
Defined.

(* ===================================================================== *)
(** * Dead code *)
(* ===================================================================== *)

Section Classifiers.
Variable env : Env.

Lemma push_all_eq {A} (mk : A -> DeadCodeIssue) items acc :
  DeadCodeDetector.push_all mk items acc = (acc ++ map mk items, Ret tt).
Proof.
  unfold DeadCodeDetector.push_all.
  rewrite (for_of_push items _ (fun item => [mk item])).
  - assert (H : flat_map (fun item => [mk item]) items = map mk items)
      by (induction items; simpl; congruence).
    rewrite H. reflexivity.
  - reflexivity.
Qed.

(** [detectInFile] on a file that is read and parsed. *)
Lemma detectInFile_parsed filePath content ast :
  fs_readFile env filePath = Ret content ->
  babel_parse env content (isTypeScriptFile filePath) = Ret ast ->
  DeadCodeDetector.detectInFile env filePath = Ret (dead_code_of filePath ast).
Proof.
  intros Hread Hparse.
  unfold DeadCodeDetector.detectInFile, returning_local, try_catch, mbind, lift,
    FileUtils.readFile, ASTParser.findUnreachableCode,
    ASTParser.findUnusedVariables, ASTParser.findEmptyCatchBlocks,
    ASTParser.parse.
  rewrite Hread. simpl. rewrite Hparse. simpl.
  rewrite !push_all_eq. simpl. unfold dead_code_of.
  rewrite <- app_assoc. reflexivity.
Qed.

(** [detectInFile] on a file that cannot be read or parsed. *)
Lemma detectInFile_skipped filePath :
  (exists e, fs_readFile env filePath = Raise e) \/ fails_to_parse env filePath ->
  DeadCodeDetector.detectInFile env filePath = Ret [].
Proof.
  unfold DeadCodeDetector.detectInFile, returning_local, try_catch, mbind, lift,
    FileUtils.readFile, ASTParser.findUnreachableCode, ASTParser.parse.
  intros [[e Hread]|(content & e & Hread & Hparse)]; rewrite Hread; simpl.
  - reflexivity.
  - rewrite Hparse. reflexivity.
Qed.

(** [detectInFile] never throws. *)
Lemma detectInFile_total filePath :
  exists issues, DeadCodeDetector.detectInFile env filePath = Ret issues.
Proof.
  destruct (fs_readFile env filePath) as [content|e] eqn:Hread.
  - destruct (babel_parse env content (isTypeScriptFile filePath)) as [ast|e] eqn:Hparse.
    + eexists. apply (detectInFile_parsed filePath content ast Hread Hparse).
    + exists []. apply detectInFile_skipped. right. exists content, e. auto.
  - exists []. apply detectInFile_skipped. left. eauto.
Qed.

Lemma detectInFiles_eq files :
  DeadCodeDetector.detectInFiles env files
  = Ret (flat_map (fun file => ret_or_nil (DeadCodeDetector.detectInFile env file)) files).
Proof.
  apply for_of_collect. intros file.
  destruct (detectInFile_total file) as [issues ->]. reflexivity.
Qed.

Lemma findInFiles_eq files :
  UnusedFinder.findInFiles env files
  = Ret (flat_map (fun file => ret_or_nil (UnusedFinder.findInFile env file)) files).
Proof.
  apply for_of_collect. intros file.
  destruct (findInFile_total env file) as [unused ->]. reflexivity.
Qed.

End Classifiers.

(** C9. A file whose text fails to parse is skipped: both classifiers
    return no issue for it and do not throw, and over any list of files
    that contains it they return, without throwing, exactly the issues of
    the other files, in order. *)
Theorem parse_failure_is_skipped (env : Env) (before after : list string)
    (bad : string) :
  fails_to_parse env bad ->
  UnusedFinder.findInFile env bad = Ret []
  /\ DeadCodeDetector.detectInFile env bad = Ret []
  /\ UnusedFinder.findInFiles env (before ++ bad :: after)
     = Ret (flat_map (fun file => ret_or_nil (UnusedFinder.findInFile env file))
              (before ++ after))
  /\ UnusedFinder.findInFiles env (before ++ bad :: after)
     = UnusedFinder.findInFiles env (before ++ after)
  /\ DeadCodeDetector.detectInFiles env (before ++ bad :: after)
     = Ret (flat_map (fun file => ret_or_nil (DeadCodeDetector.detectInFile env file))
              (before ++ after))
  /\ DeadCodeDetector.detectInFiles env (before ++ bad :: after)
     = DeadCodeDetector.detectInFiles env (before ++ after).
Proof.
  intros Hbad.
  assert (Hu : UnusedFinder.findInFile env bad = Ret []).
  { apply findInFile_skipped. right. exact Hbad. }
  assert (Hd : DeadCodeDetector.detectInFile env bad = Ret []).
  { apply detectInFile_skipped. right. exact Hbad. }
  split; [exact Hu|]. split; [exact Hd|].
  rewrite !findInFiles_eq, !detectInFiles_eq, !flat_map_app. simpl.
  rewrite Hu, Hd. simpl. auto.
Qed.

Lemma parse_failure_is_skipped_witness :
  UnusedFinder.findInFiles Sample.app ["/app/broken.ts"; "/app/dates.ts"]
  = UnusedFinder.findInFiles Sample.app ["/app/dates.ts"]
  /\ DeadCodeDetector.detectInFiles Sample.app ["/app/broken.ts"; "/app/dates.ts"]
     = DeadCodeDetector.detectInFiles Sample.app ["/app/dates.ts"].
Proof.
  assert (Hbad : fails_to_parse Sample.app "/app/broken.ts").
  { exists "import {", "SyntaxError: Unexpected token (1:8)".
    split; vm_compute; reflexivity. }
  destruct (parse_failure_is_skipped Sample.app [] ["/app/dates.ts"]
              "/app/broken.ts" Hbad) as (_ & _ & _ & Hu & _ & Hd).
  split; [exact Hu | exact Hd].
Defined.

(* ===================================================================== *)
(** * Traversal, declaratively *)
(* ===================================================================== *)

(** Induction on syntax trees. *)
Lemma Node_induction (P : Node -> Prop) :
  (forall ty ln x v c b kids,
      Forall (fun kc => P (snd kc)) kids -> P (mkNode ty ln x v c b kids)) ->
  forall n, P n.
Proof.
  intros H. fix IH 1. intros [ty ln x v c b kids]. apply H.
  induction kids as [|kc kids IHkids]; constructor.
  - apply IH.
  - exact IHkids.
Qed.

(** A visitor that only pushes sees each position once, in order. *)
Lemma traverse_positions {A} (visit : Node -> string -> Node -> list A) ast :
  Ast.traverse visit ast
  = flat_map (fun p => visit (pos_parent p) (pos_key p) (pos_node p))
             (positions ast).
Proof.
  induction ast as [ty ln x v c b kids IH] using Node_induction.
  unfold positions. rewrite !traverse_eq. simpl.
  set (parent := mkNode ty ln x v c b kids). clearbody parent.
  unfold Ast.traverse_children.
  induction IH as [|[k child] kids Hchild _ IHkids]; simpl; [reflexivity|].
  rewrite flat_map_app. simpl.
  rewrite IHkids. simpl in Hchild. rewrite Hchild.
  rewrite <- app_assoc. reflexivity.
Qed.

Lemma in_traverse {A} (visit : Node -> string -> Node -> list A) ast p x :
  In p (positions ast) ->
  In x (visit (pos_parent p) (pos_key p) (pos_node p)) ->
  In x (Ast.traverse visit ast).
Proof.
  intros Hp Hx. rewrite traverse_positions. apply in_flat_map. eauto.
Qed.

Lemma is_type_eq ty n : Ast.is_type ty n = true -> Ast.type n = ty.
Proof. apply String.eqb_eq. Qed.

(* ===================================================================== *)
(** * Unused declarations *)
(* ===================================================================== *)

(** C4, as stated, fails: the only top-level function of [/app/unused.ts]
    is never referenced, and the one issue reported for it has the kind
    [unused-var]; no issue has the kind [unused-function]. *)
Lemma unused_function_reported_as_unused_var :
  In (mkPosition DeadSample.unused_fn_program "body" DeadSample.unused_fn)
     (positions DeadSample.unused_fn_ast)
  /\ DeadCodeDetector.detectInFile DeadSample.app "/app/unused.ts"
     = Ret [ {| dc_file := "/app/unused.ts"; dc_line := 1; dc_type := unused_var;
                dc_description := "Unused variable 'unusedFunction'" |} ]
  /\ ~ (exists issues issue,
           DeadCodeDetector.detectInFile DeadSample.app "/app/unused.ts" = Ret issues
           /\ In issue issues /\ dc_type issue = unused_function).
Proof.
  split; [vm_compute; right; left; reflexivity|].
  split; [vm_compute; reflexivity|].
  intros (issues & issue & Hrun & Hin & Hty).
  vm_compute in Hrun. injection Hrun as <-.
  destruct Hin as [<-|[]]. discriminate Hty.
Qed.

(** C4, amended.  In a file that is read and parsed, every function
    declaration directly under [Program] whose binding has no reference
    is reported with the kind [unused-var], the kind also used for every
    variable declarator whose binding has no reference, at any depth;
    an issue of the kind [unused-function] is never reported. *)
Theorem unused_declarations_are_unused_var (env : Env)
    (filePath content : string) (ast : Node) :
  fs_readFile env filePath = Ret content ->
  babel_parse env content (isTypeScriptFile filePath) = Ret ast ->
  exists issues,
    DeadCodeDetector.detectInFile env filePath = Ret issues
    /\ (forall p id,
           In p (positions ast) ->
           Ast.is_type "FunctionDeclaration" (pos_node p) = true ->
           Ast.is_type "Program" (pos_parent p) = true ->
           Ast.prop "id" (pos_node p) = Some id ->
           Ast.binding (pos_node p) = Some false ->
           In {| dc_file := filePath;
                 dc_line := Ast.line_or_0 (pos_node p);
                 dc_type := unused_var;
                 dc_description := "Unused variable '" +:+ Ast.name id +:+ "'" |}
              issues)
    /\ (forall p id,
           In p (positions ast) ->
           Ast.is_type "VariableDeclarator" (pos_node p) = true ->
           Ast.prop "id" (pos_node p) = Some id ->
           Ast.is_type "Identifier" id = true ->
           Ast.binding (pos_node p) = Some false ->
           In {| dc_file := filePath;
                 dc_line := Ast.line_or_0 (pos_node p);
                 dc_type := unused_var;
                 dc_description := "Unused variable '" +:+ Ast.name id +:+ "'" |}
              issues)
    /\ (forall issue, In issue issues -> dc_type issue <> unused_function).
Proof.
  intros Hread Hparse. exists (dead_code_of filePath ast).
  split; [apply (detectInFile_parsed env filePath content ast Hread Hparse)|].
  assert (Hmid : forall item,
             In item (Ast.traverse ASTParser.visit_Declaration ast) ->
             In (DeadCodeDetector.unused_var_issue filePath item)
                (dead_code_of filePath ast)).
  { intros item Hitem. unfold dead_code_of. apply in_or_app. right.
    apply in_or_app. left. apply in_map, Hitem. }
  split; [|split].
  - intros p id Hp Hfun Hprog Hid Hbind.
    apply (Hmid {| uv_name := Ast.name id; uv_line := Ast.line_or_0 (pos_node p) |}).
    apply (in_traverse _ ast p _ Hp).
    unfold ASTParser.visit_Declaration, ASTParser.unreferenced.
    rewrite Hfun, Hprog, Hid, Hbind.
    unfold Ast.is_type. rewrite (is_type_eq _ _ Hfun). simpl. left. reflexivity.
  - intros p id Hp Hvar Hid Hident Hbind.
    apply (Hmid {| uv_name := Ast.name id; uv_line := Ast.line_or_0 (pos_node p) |}).
    apply (in_traverse _ ast p _ Hp).
    unfold ASTParser.visit_Declaration, ASTParser.unreferenced.
    rewrite Hvar, Hid, Hident, Hbind. simpl. left. reflexivity.
  - intros issue Hin. unfold dead_code_of in Hin.
    repeat (apply in_app_or in Hin; destruct Hin as [Hin|Hin]);
      apply in_map_iff in Hin; destruct Hin as (item & <- & _); discriminate.
Qed.

Lemma unused_declarations_are_unused_var_witness :
  exists issues,
    DeadCodeDetector.detectInFile DeadSample.app "/app/unused.ts" = Ret issues
    /\ In {| dc_file := "/app/unused.ts"; dc_line := 1; dc_type := unused_var;
             dc_description := "Unused variable 'unusedFunction'" |} issues
    /\ (forall issue, In issue issues -> dc_type issue <> unused_function).
Proof.
  destruct (unused_declarations_are_unused_var DeadSample.app "/app/unused.ts"
              (Fixture.sf_text DeadSample.unused_fn_ts) DeadSample.unused_fn_ast
              eq_refl eq_refl) as (issues & Hrun & Hfun & _ & Hnever).
  exists issues. split; [exact Hrun|]. split; [|exact Hnever].
  apply (Hfun (mkPosition DeadSample.unused_fn_program "body" DeadSample.unused_fn)
              (Fixture.ident 1 "unusedFunction")).
  - vm_compute. right. left. reflexivity.
  - reflexivity.
  - reflexivity.
  - reflexivity.
  - reflexivity.
Defined.

(* ===================================================================== *)
(** * Unreachable statements *)
(* ===================================================================== *)

Lemma scan_body_found stmts :
  ASTParser.scan_body true stmts = map unreachable_item stmts.
Proof.
  induction stmts as [|stmt rest IH]; simpl; [reflexivity|].
  rewrite IH. reflexivity.
Qed.

Lemma scan_body_follows stmts :
  ASTParser.scan_body false stmts = map unreachable_item (follows_exit stmts).
Proof.
  induction stmts as [|stmt rest IH]; simpl; [reflexivity|].
  destruct (ASTParser.isReturnOrThrow stmt); [apply scan_body_found | exact IH].
Qed.

Lemma visit_Function_follows parent key n :
  ASTParser.visit_Function parent key n
  = map unreachable_item (follows_exit (body_statements n)).
Proof.
  unfold ASTParser.visit_Function, body_statements.
  destruct (Ast.isFunction n); [|reflexivity].
  destruct (Ast.prop "body" n) as [body|]; [|reflexivity].
  destruct (Ast.is_type "BlockStatement" body); [|reflexivity].
  apply scan_body_follows.
Qed.

(** [follows_exit] keeps exactly the statements that have an earlier
    sibling which is a [return] or a [throw]. *)
Lemma follows_exit_index (stmts : list Node) :
  exists m,
    follows_exit stmts = drop m stmts
    /\ forall j, j < length stmts ->
         (m <= j <->
          exists i r, i < j /\ stmts !! i = Some r
                      /\ ASTParser.isReturnOrThrow r = true).
Proof.
  induction stmts as [|stmt rest IH].
  - exists 0. split; [reflexivity|]. simpl. intros j Hj. lia.
  - simpl. destruct (ASTParser.isReturnOrThrow stmt) eqn:E.
    + exists 1. split; [reflexivity|]. intros j Hj. split.
      * intros Hle. exists 0, stmt. split; [lia|]. split; [reflexivity|exact E].
      * intros (i & r & Hi & _). lia.
    + destruct IH as (m & Hm & Hiff). exists (S m). split; [exact Hm|].
      intros [|j] Hj.
      * split; [lia|]. intros (i & r & Hi & _). lia.
      * specialize (Hiff j ltac:(lia)). split.
        -- intros Hle. destruct (proj1 Hiff ltac:(lia)) as (i & r & Hi & Hr & Hrt).
           exists (S i), r. split; [lia|]. split; [exact Hr|exact Hrt].
        -- intros (i & r & Hi & Hr & Hrt). destruct i as [|i].
           ++ simpl in Hr. injection Hr as <-. congruence.
           ++ simpl in Hr. assert (m <= j); [|lia].
              apply Hiff. exists i, r. split; [lia|]. split; [exact Hr|exact Hrt].
Qed.

(** C7, as stated, fails: in the body of [guard], [console.log(x)]
    follows [return true] in the block of the [if], at the same
    block-nesting level, and no unreachable issue is reported. *)
Lemma unreachable_in_nested_block_not_reported :
  In (mkPosition DeadSample.nested_program "body" DeadSample.guard_fn)
     (positions DeadSample.nested_ast)
  /\ Ast.isFunction DeadSample.guard_fn = true
  /\ map Ast.line_or_0 (spec_unreachable_statements DeadSample.guard_fn) = [4]
  /\ DeadCodeDetector.detectInFile DeadSample.app "/app/guard.ts" = Ret []
  /\ length (ret_or_nil (DeadCodeDetector.detectInFile DeadSample.app "/app/guard.ts"))
     <> length (spec_unreachable_statements DeadSample.guard_fn).
Proof.
  split; [vm_compute; right; left; reflexivity|].
  split; [reflexivity|]. split; [vm_compute; reflexivity|].
  split; [vm_compute; reflexivity|]. vm_compute. discriminate.
Qed.

(** C7, amended.  In a file that is read and parsed, the unreachable
    issues are, function after function in traversal order, one per
    statement of the function body's own statement list that comes after
    a [return] or [throw] of that list, at the line of that statement;
    the statements of nested blocks are not examined.  The body
    [return true; console.log(x);] yields exactly one issue, unreachable,
    at the line of [console.log(x)]. *)
Theorem unreachable_after_exit_in_body :
  (forall (env : Env) (filePath content : string) (ast : Node),
      fs_readFile env filePath = Ret content ->
      babel_parse env content (isTypeScriptFile filePath) = Ret ast ->
      exists others,
        DeadCodeDetector.detectInFile env filePath
        = Ret (map (fun stmt =>
                      {| dc_file := filePath;
                         dc_line := Ast.line_or_0 stmt;
                         dc_type := unreachable;
                         dc_description :=
                           "Unreachable code after return/throw statement" |})
                   (flat_map (fun p => follows_exit (body_statements (pos_node p)))
                             (positions ast))
               ++ others)
        /\ Forall (fun issue => dc_type issue <> unreachable) others)
  /\ (forall stmts : list Node,
         exists m,
           follows_exit stmts = drop m stmts
           /\ forall j, j < length stmts ->
                (m <= j <->
                 exists i r, i < j /\ stmts !! i = Some r
                             /\ ASTParser.isReturnOrThrow r = true))
  /\ DeadCodeDetector.detectInFile DeadSample.app "/app/check.ts"
     = Ret [ {| dc_file := "/app/check.ts"; dc_line := 3; dc_type := unreachable;
                dc_description :=
                  "Unreachable code after return/throw statement" |} ].
Proof.
  split; [|split; [exact follows_exit_index | vm_compute; reflexivity]].
  intros env filePath content ast Hread Hparse.
  rewrite (detectInFile_parsed env filePath content ast Hread Hparse).
  unfold dead_code_of. eexists. split.
  - f_equal. f_equal. rewrite traverse_positions.
    rewrite (flat_map_ext _ (fun p => map unreachable_item
                               (follows_exit (body_statements (pos_node p)))))
      by (intros p; apply visit_Function_follows).
    rewrite flat_map_concat_map, <- (map_map (fun p => follows_exit _) (map _)).
    rewrite <- concat_map, <- flat_map_concat_map, map_map. reflexivity.
  - apply Forall_app. split; apply Forall_forall; intros issue Hin;
      apply list_elem_of_In, in_map_iff in Hin;
      destruct Hin as (item & <- & _); discriminate.
Qed.

Lemma unreachable_after_exit_in_body_witness :
  exists others,
    DeadCodeDetector.detectInFile DeadSample.app "/app/check.ts"
    = Ret (map (fun stmt =>
                  {| dc_file := "/app/check.ts";
                     dc_line := Ast.line_or_0 stmt;
                     dc_type := unreachable;
                     dc_description :=
                       "Unreachable code after return/throw statement" |})
               (flat_map (fun p => follows_exit (body_statements (pos_node p)))
                         (positions DeadSample.after_return_ast))
           ++ others)
    /\ Forall (fun issue => dc_type issue <> unreachable) others.
Proof.
  apply (proj1 unreachable_after_exit_in_body DeadSample.app "/app/check.ts"
           (Fixture.sf_text DeadSample.after_return_ts) DeadSample.after_return_ast);
    reflexivity.
Defined.

(* ===================================================================== *)
(** * Substrings *)
(* ===================================================================== *)

Lemma prefix_spec (p s : string) :
  String.prefix p s = true <-> exists post, s = p +:+ post.
Proof.
  revert s. induction p as [|c p IH]; intros s; simpl.
  - split; [intros _; exists s; reflexivity | intros _; destruct s; reflexivity].
  - destruct s as [|c' s]; simpl.
    + split; [discriminate | intros [post H]; discriminate H].
    + destruct (ascii_dec c c') as [->|Hne].
      * rewrite IH. split; intros [post H]; exists post.
        -- rewrite H. reflexivity.
        -- injection H as ->. reflexivity.
      * split; [discriminate|]. intros [post H]. injection H as -> _.
        contradiction.
Qed.

(** [s.includes(p)] holds exactly when [p] occurs in [s]. *)
Lemma includes_spec (s p : string) :
  JsString.includes s p = true <-> JsString.occurs_in p s.
Proof.
  unfold JsString.occurs_in. induction s as [|c s IH].
  - change (JsString.includes "" p) with (String.prefix p "" || false).
    rewrite orb_false_r, prefix_spec. split.
    + intros [post H]. exists "", post. exact H.
    + intros (pre & post & H). destruct pre; [exists post; exact H|discriminate H].
  - change (JsString.includes (String c s) p)
      with (String.prefix p (String c s) || JsString.includes s p).
    rewrite orb_true_iff, prefix_spec, IH. split.
    + intros [[post H]|(pre & post & H)].
      * exists "", post. exact H.
      * exists (String c pre), post. rewrite H. reflexivity.
    + intros (pre & post & H). destruct pre as [|c' pre]; simpl in H.
      * left. exists post. exact H.
      * right. injection H as -> ->. exists pre, post. reflexivity.
Qed.

(* ===================================================================== *)
(** * Unused files *)
(* ===================================================================== *)

Lemma getUnusedFiles_skips_entry_points (nodes : GraphBuilder.Nodes)
    (entryPoints : list string) (filePath : string) :
  existsb (fun e => JsString.includes filePath e) entryPoints = true ->
  ~ In filePath (GraphBuilder.getUnusedFiles nodes entryPoints).
Proof.
  intros Hentry Hin. unfold GraphBuilder.getUnusedFiles in Hin.
  apply in_flat_map in Hin. destruct Hin as ([file node] & _ & Hin).
  destruct (existsb (fun e => JsString.includes file e) entryPoints) eqn:E;
    [contradiction|].
  destruct (Nat.eqb (length (importedBy node)) 0); [|contradiction].
  destruct Hin as [->|[]]. congruence.
Qed.

Lemma findUnusedFiles_paths env targetPath unusedFiles :
  StaleDetector.findUnusedFiles env targetPath = Ret unusedFiles ->
  exists nodes,
    map uf_path unusedFiles
    = GraphBuilder.getUnusedFiles nodes StaleDetector.entryPoints.
Proof.
  unfold StaleDetector.findUnusedFiles, res_bind.
  destruct (FileUtils.getFiles _ _ _ _) as [files|e]; [|discriminate].
  destruct (GraphBuilder.build env targetPath (Some files) GraphBuilder.new)
    as [nodes [returned|e]]; [|discriminate].
  intros [= <-]. exists nodes. rewrite map_map. simpl. apply map_id.
Qed.

(** C8. A file whose path contains one of the entry-point fragments
    ([index], [main], [app], [_app], [server], [config], the build-tool
    config basenames, [test], [spec], [.test], [.spec]) as a substring
    is never in the unused-file output, whatever its inbound edges; in
    particular no path that ends in [index.ts] is, and in a project of
    two files that import nothing only the one not named [index.ts] is
    reported. *)
Theorem entry_points_never_unused :
  (forall (env : Env) (targetPath : string) (unusedFiles : list UnusedFile)
          (filePath fragment : string),
      StaleDetector.findUnusedFiles env targetPath = Ret unusedFiles ->
      In fragment StaleDetector.entryPoints ->
      JsString.occurs_in fragment filePath ->
      ~ In filePath (map uf_path unusedFiles))
  /\ (forall (env : Env) (targetPath : string) (unusedFiles : list UnusedFile)
             (dir : string),
         StaleDetector.findUnusedFiles env targetPath = Ret unusedFiles ->
         ~ In (dir +:+ "index.ts") (map uf_path unusedFiles))
  /\ StaleDetector.findUnusedFiles Orphans.project "/p"
     = Ret [ {| uf_path := "/p/orphan.ts";
                uf_reason := "Never imported by any file" |} ].
Proof.
  assert (Hgen : forall env targetPath unusedFiles filePath fragment,
             StaleDetector.findUnusedFiles env targetPath = Ret unusedFiles ->
             In fragment StaleDetector.entryPoints ->
             JsString.occurs_in fragment filePath ->
             ~ In filePath (map uf_path unusedFiles)).
  { intros env targetPath unusedFiles filePath fragment Hrun Hfrag Hocc.
    destruct (findUnusedFiles_paths env targetPath unusedFiles Hrun) as [nodes ->].
    apply getUnusedFiles_skips_entry_points.
    apply existsb_exists. exists fragment. split; [exact Hfrag|].
    apply includes_spec, Hocc. }
  split; [exact Hgen|]. split; [|vm_compute; reflexivity].
  intros env targetPath unusedFiles dir Hrun.
  apply (Hgen env targetPath unusedFiles _ "index" Hrun).
  - left. reflexivity.
  - exists dir, ".ts". reflexivity.
Qed.

Lemma entry_points_never_unused_witness :
  ~ In "/p/index.ts"
      (map uf_path [ {| uf_path := "/p/orphan.ts";
                        uf_reason := "Never imported by any file" |} ]).
Proof.
  apply (proj1 entry_points_never_unused Orphans.project "/p" _ "/p/index.ts" "index").
  - vm_compute. reflexivity.
  - left. reflexivity.
  - exists "/p/", ".ts". reflexivity.
Defined.

(* ===================================================================== *)
(** * The dependency cross-check *)
(* ===================================================================== *)

Lemma jsset_has_in (s : JsSet.t) x : JsSet.has s x = true <-> In x s.
Proof.
  unfold JsSet.has. rewrite existsb_exists. split.
  - intros (y & Hy & Heq). apply String.eqb_eq in Heq. subst y. exact Hy.
  - intros Hx. exists x. split; [exact Hx | apply String.eqb_refl].
Qed.

Lemma jsset_in_add (s : JsSet.t) x y : In x (JsSet.add s y) <-> In x s \/ x = y.
Proof.
  unfold JsSet.add. destruct (JsSet.has s y) eqn:E.
  - apply jsset_has_in in E. split; [auto|]. intros [H| ->]; assumption.
  - rewrite in_app_iff. simpl. split; intros [H|H]; auto.
    + destruct H as [<-|[]]. auto.
Qed.

Section CrossCheck.
Variable env : Env.

(** The callback that tracks one import never throws. *)
Lemma track_import_eq imp (allImports : JsSet.t) :
  ConfigAnalyzer.track_import imp allImports
  = (if negb (JsString.startsWith (ConfigAnalyzer.pkgName (imp_source imp)) ".")
        && negb (JsString.startsWith (ConfigAnalyzer.pkgName (imp_source imp)) "/")
     then JsSet.add allImports (ConfigAnalyzer.pkgName (imp_source imp))
     else allImports, Ret tt).
Proof.
  unfold ConfigAnalyzer.track_import.
  destruct (negb _ && negb _); reflexivity.
Qed.

Lemma track_imports_spec imps : forall (allImports : JsSet.t),
  snd (for_of imps ConfigAnalyzer.track_import allImports) = Ret tt
  /\ forall root,
       In root (fst (for_of imps ConfigAnalyzer.track_import allImports)) <->
       In root allImports
       \/ exists imp, In imp imps
            /\ ConfigAnalyzer.pkgName (imp_source imp) = root
            /\ JsString.startsWith root "." = false
            /\ JsString.startsWith root "/" = false.
Proof.
  induction imps as [|imp imps IH]; intros allImports; simpl.
  - split; [reflexivity|]. intros root. split; [auto|].
    intros [H|(imp & [] & _)]. exact H.
  - unfold mbind. rewrite track_import_eq.
    match goal with |- context [for_of imps _ ?s] => destruct (IH s) as [Hret Hin] end.
    split; [exact Hret|]. intros root. rewrite Hin. clear Hin Hret.
    set (name := ConfigAnalyzer.pkgName (imp_source imp)).
    destruct (negb (JsString.startsWith name ".")
              && negb (JsString.startsWith name "/")) eqn:E.
    + apply andb_prop in E. destruct E as [Edot Eslash].
      apply negb_true_iff in Edot, Eslash.
      rewrite jsset_in_add. split.
      * intros [[H| ->]|(imp' & Himp' & Hrest)].
        -- left. exact H.
        -- right. exists imp. split; [left; reflexivity|]. auto.
        -- right. exists imp'. split; [right; exact Himp'|exact Hrest].
      * intros [H|(imp' & [<-|Himp'] & Hname & Hrest)].
        -- left. left. exact H.
        -- left. right. symmetry. exact Hname.
        -- right. exists imp'. auto.
    + split.
      * intros [H|(imp' & Himp' & Hrest)].
        -- left. exact H.
        -- right. exists imp'. split; [right; exact Himp'|exact Hrest].
      * intros [H|(imp' & [<-|Himp'] & Hname & Hd & Hs)].
        -- left. exact H.
        -- fold name in Hname. subst root. rewrite Hd, Hs in E. discriminate E.
        -- right. exists imp'. auto.
Qed.

(** The loop over the files never throws, and collects exactly the
    roots of the external imports of the files that are read and
    parsed. *)
Lemma collect_imports_spec files : forall (allImports : JsSet.t),
  snd (ConfigAnalyzer.collect_imports env files allImports) = Ret tt
  /\ forall root,
       In root (fst (ConfigAnalyzer.collect_imports env files allImports)) <->
       In root allImports \/ exists file, In file files /\ imports_root env file root.
Proof.
  induction files as [|file files IH]; intros allImports.
  - split; [reflexivity|]. intros root. split; [auto|].
    intros [H|(file & [] & _)]. exact H.
  - unfold ConfigAnalyzer.collect_imports. rewrite for_of_cons.
    fold (ConfigAnalyzer.collect_imports env files).
    set (step := try_catch _ _ allImports).
    assert (Hstep : snd step = Ret tt
              /\ forall root, In root (fst step) <->
                   In root allImports \/ imports_root env file root).
    { unfold step, try_catch, mbind, lift, FileUtils.readFile,
        ASTParser.extractImports, ASTParser.parse, imports_root.
      destruct (fs_readFile env file) as [content|e] eqn:Hread; simpl.
      - destruct (babel_parse env content (isTypeScriptFile file)) as [ast|e] eqn:Hparse;
          simpl.
        + destruct (track_imports_spec
                      (Ast.traverse ASTParser.visit_ImportDeclaration ast) allImports)
            as [Hret Hin].
          destruct (for_of _ ConfigAnalyzer.track_import allImports) as [s r].
          simpl in *. subst r. split; [reflexivity|].
          intros root. rewrite Hin. split.
          * intros [H|(imp & Himp & Hrest)]; [auto|].
            right. exists content, ast, imp. auto.
          * intros [H|(content' & ast' & imp & [= <-] & Hp & Himp & Hrest)]; [auto|].
            rewrite Hparse in Hp. injection Hp as <-. right. exists imp. auto.
        + split; [reflexivity|]. intros root. split; [auto|].
          intros [H|(content' & ast' & imp & [= <-] & Hp & _)]; [exact H|].
          rewrite Hparse in Hp. discriminate Hp.
      - split; [reflexivity|]. intros root. split; [auto|].
        intros [H|(content' & ast' & imp & Hr & _)]; [exact H|discriminate Hr]. }
    destruct step as [s r]. simpl in Hstep. destruct Hstep as [-> Hin1].
    cbv beta iota.
    destruct (IH s) as [Hret Hin2]. split; [exact Hret|].
    intros root. rewrite Hin2, Hin1. split.
    + intros [[H|H]|(f & Hf & Hroot)]; auto.
      * right. exists file. split; [left; reflexivity|exact H].
      * right. exists f. split; [right; exact Hf|exact Hroot].
    + intros [H|(f & [<-|Hf] & Hroot)]; auto.
      right. exists f. auto.
Qed.

(** A root is in [allImports] exactly when some scanned file that is
    read and parsed imports it. *)
Lemma used_roots_spec files root :
  In root (used_roots env files) <->
  exists file, In file files /\ imports_root env file root.
Proof.
  unfold used_roots.
  destruct (collect_imports_spec files JsSet.empty) as [_ Hin]. rewrite Hin.
  split; [intros [[]|H]; exact H | auto].
Qed.

(** What [analyzePackageJson] returns when there is a manifest. *)
Lemma analyzePackageJson_eq targetPath pkg files :
  FileUtils.getPackageJson env targetPath = Some pkg ->
  FileUtils.getFiles env targetPath ["**/*.{js,jsx,ts,tsx}"] FileUtils.default_exclude
    = Ret files ->
  ConfigAnalyzer.analyzePackageJson env targetPath
  = Ret {| unusedDependencies :=
             ConfigAnalyzer.unused_deps (used_roots env files) (declared pkg);
           missingDependencies :=
             ConfigAnalyzer.missing_deps (used_roots env files) (declared pkg);
           unusedScripts := ConfigAnalyzer.stale_scripts (pkg_scripts pkg) |}.
Proof.
  intros Hpkg Hfiles. unfold ConfigAnalyzer.analyzePackageJson.
  rewrite Hpkg, Hfiles. simpl. unfold returning_local, used_roots.
  destruct (collect_imports_spec files JsSet.empty) as [Hret _].
  destruct (ConfigAnalyzer.collect_imports env files JsSet.empty) as [s r].
  simpl in *. subst r. reflexivity.
Qed.

End CrossCheck.

Lemma skip_list_spec depName :
  existsb (fun skip => JsString.includes depName skip) ConfigAnalyzer.skipList = true
  <-> exists skip, In skip ConfigAnalyzer.skipList /\ JsString.occurs_in skip depName.
Proof.
  rewrite existsb_exists. split; intros (skip & Hin & H); exists skip;
    (split; [exact Hin | apply includes_spec, H]).
Qed.

(** The unused list: the declared entries that are neither imported nor
    exempted by the skip list. *)
Lemma in_unused_deps (allImports : JsSet.t) (dependencies : JsObject.t) issue :
  In issue (ConfigAnalyzer.unused_deps allImports dependencies) <->
  exists depName version,
    In (depName, version) (JsObject.entries dependencies)
    /\ ~ In depName allImports
    /\ ~ (exists skip, In skip ConfigAnalyzer.skipList
                       /\ JsString.occurs_in skip depName)
    /\ issue = {| di_name := depName; di_type := dep_unused;
                  di_installedVersion := Some version |}.
Proof.
  unfold ConfigAnalyzer.unused_deps. rewrite in_flat_map. split.
  - intros ([depName version] & Hin & Hissue). exists depName, version.
    destruct (JsSet.has allImports depName) eqn:Ehas;
      destruct (existsb (fun skip => JsString.includes depName skip)
                  ConfigAnalyzer.skipList) eqn:Eskip;
      try contradiction Hissue.
    destruct Hissue as [<-|[]]. split; [exact Hin|]. split; [|split; [|reflexivity]].
    + intros H. apply jsset_has_in in H. congruence.
    + intros H. apply skip_list_spec in H. congruence.
  - intros (depName & version & Hin & Hnot & Hskip & ->).
    exists (depName, version). split; [exact Hin|].
    destruct (JsSet.has allImports depName) eqn:Ehas.
    { apply jsset_has_in in Ehas. contradiction. }
    destruct (existsb _ ConfigAnalyzer.skipList) eqn:Eskip.
    { apply skip_list_spec in Eskip. contradiction. }
    left. reflexivity.
Qed.

(** The missing list: the used roots for which [dependencies[root]] is
    falsy. *)
Lemma in_missing_deps (allImports : JsSet.t) (dependencies : JsObject.t) issue :
  In issue (ConfigAnalyzer.missing_deps allImports dependencies) <->
  exists root,
    In root allImports
    /\ JsObject.truthy (JsObject.get dependencies root) = false
    /\ issue = {| di_name := root; di_type := dep_missing;
                  di_installedVersion := None |}.
Proof.
  unfold ConfigAnalyzer.missing_deps. rewrite in_flat_map. split.
  - intros (root & Hin & Hissue). exists root.
    destruct (JsObject.truthy _) eqn:E; simpl in Hissue; [contradiction|].
    destruct Hissue as [<-|[]]. auto.
  - intros (root & Hin & E & ->). exists root. split; [exact Hin|].
    rewrite E. left. reflexivity.
Qed.

Lemma jsmap_get_none_keys {V} (m : JsMap.t V) k :
  JsMap.get m k = None <-> ~ In k (JsMap.keys m).
Proof.
  rewrite <- jsmap_has_in_keys. unfold JsMap.has.
  destruct (JsMap.get m k); split; intros H; congruence.
Qed.

(** [Object.entries] and [Object.keys] list the own properties, all of
    them and nothing else. *)
Lemma insert_by_index_in n kv sorted x :
  In x (JsObject.insert_by_index n kv sorted) <-> x = (n, kv) \/ In x sorted.
Proof.
  induction sorted as [|[m kv'] sorted IH]; simpl.
  - split; [intros [<-|[]]; auto|intros [->|[]]; auto].
  - destruct (n <? m)%N; simpl; [|rewrite IH]; split; intros H;
      intuition congruence.
Qed.

Lemma indexed_in (obj : JsObject.t) n kv :
  In (n, kv) (JsObject.indexed obj) <->
  In kv obj /\ JsObject.array_index (fst kv) = Some n.
Proof.
  induction obj as [|kv' obj IH]; simpl; [tauto|].
  destruct (JsObject.array_index (fst kv')) as [m|] eqn:E.
  - rewrite insert_by_index_in, IH. split.
    + intros [[= -> ->]|[H1 H2]]; auto.
    + intros [[->|H1] H2]; [left; congruence|auto].
  - rewrite IH. split; [tauto|]. intros [[->|H1] H2]; [congruence|auto].
Qed.

Lemma jsobject_entries_in (obj : JsObject.t) kv :
  In kv (JsObject.entries obj) <-> In kv obj.
Proof.
  unfold JsObject.entries. rewrite in_app_iff, in_map_iff, filter_In. split.
  - intros [([n kv'] & <- & H)|[H _]]; [|exact H].
    apply indexed_in in H. simpl. tauto.
  - intros H. destruct (JsObject.array_index (fst kv)) as [n|] eqn:E.
    + left. exists (n, kv). split; [reflexivity|]. apply indexed_in. auto.
    + right. auto.
Qed.

Lemma jsobject_keys_in (obj : JsObject.t) k :
  In k (JsObject.keys obj) <-> In k (JsMap.keys obj).
Proof.
  unfold JsObject.keys, JsMap.keys. rewrite !in_map_iff.
  split; intros (kv & <- & H); exists kv; split; try reflexivity;
    apply jsobject_entries_in; exact H.
Qed.

(** An undeclared name that no object inherits reads as [undefined]. *)
Lemma get_undeclared (dependencies : JsObject.t) root :
  ~ JsObject.declares dependencies root ->
  ~ In root JsObject.prototype_names ->
  JsObject.get dependencies root = JsObject.undefined.
Proof.
  intros Hdecl Hproto. unfold JsObject.get.
  unfold JsObject.declares in Hdecl. rewrite jsobject_keys_in in Hdecl.
  apply jsmap_get_none_keys in Hdecl. rewrite Hdecl.
  destruct (existsb (String.eqb root) JsObject.prototype_names) eqn:E; [|reflexivity].
  apply existsb_exists in E. destruct E as (y & Hy & Heq).
  apply String.eqb_eq in Heq. subst y. contradiction.
Qed.

(** The cross-check, for a manifest that is found: every declared entry
    that no file imports and that the skip list does not exempt is
    unused; every root some file imports that is not declared is
    missing, provided it is not the name of a member of
    [Object.prototype]. *)
Lemma cross_check_spec (env : Env) targetPath pkg files :
  FileUtils.getPackageJson env targetPath = Some pkg ->
  FileUtils.getFiles env targetPath ["**/*.{js,jsx,ts,tsx}"] FileUtils.default_exclude
    = Ret files ->
  exists result,
    ConfigAnalyzer.analyzePackageJson env targetPath = Ret result
    /\ (forall depName version,
           In (depName, version) (JsObject.entries (declared pkg)) ->
           ~ (exists file, In file files /\ imports_root env file depName) ->
           ~ (exists skip, In skip ConfigAnalyzer.skipList
                           /\ JsString.occurs_in skip depName) ->
           In {| di_name := depName; di_type := dep_unused;
                 di_installedVersion := Some version |}
              (unusedDependencies result))
    /\ (forall root,
           (exists file, In file files /\ imports_root env file root) ->
           ~ JsObject.declares (declared pkg) root ->
           ~ In root JsObject.prototype_names ->
           In {| di_name := root; di_type := dep_missing;
                 di_installedVersion := None |}
              (missingDependencies result)).
Proof.
  intros Hpkg Hfiles. eexists.
  split; [apply (analyzePackageJson_eq env targetPath pkg files Hpkg Hfiles)|].
  simpl. split.
  - intros depName version Hin Hnot Hskip. apply in_unused_deps.
    exists depName, version. split; [exact Hin|]. split; [|auto].
    rewrite used_roots_spec. exact Hnot.
  - intros root Hused Hdecl Hproto. apply in_missing_deps. exists root.
    split; [apply used_roots_spec, Hused|].
    rewrite (get_undeclared _ root Hdecl Hproto). auto.
Qed.

(** The example of the specification: the manifest declares [axios]
    alone, the only file imports [date-fns]. *)
Lemma cross_check_example :
  ConfigAnalyzer.analyzePackageJson Manifest.undeclared "/p"
  = Ret {| unusedDependencies :=
             [ {| di_name := "axios"; di_type := dep_unused;
                  di_installedVersion := Some "1.0.0" |} ];
           missingDependencies :=
             [ {| di_name := "date-fns"; di_type := dep_missing;
                  di_installedVersion := None |} ];
           unusedScripts := [] |}.
Proof. vm_compute. reflexivity. Qed.

(** C5.  The missing list is computed by the truthiness of
    [dependencies[importedPkg]], which also finds what every object
    inherits: [/p/builder.ts] imports the packages [date-fns] and
    [constructor], the manifest declares neither, and only [date-fns] is
    reported as missing. *)
Theorem undeclared_inherited_name_not_missing :
  In "constructor" (used_roots Manifest.inherited_name ["/p/builder.ts"])
  /\ ~ JsObject.declares (declared Manifest.axios_only) "constructor"
  /\ JsObject.get (declared Manifest.axios_only) "constructor" = JsObject.inherited
  /\ ConfigAnalyzer.analyzePackageJson Manifest.inherited_name "/p"
     = Ret {| unusedDependencies :=
                [ {| di_name := "axios"; di_type := dep_unused;
                     di_installedVersion := Some "1.0.0" |} ];
              missingDependencies :=
                [ {| di_name := "date-fns"; di_type := dep_missing;
                     di_installedVersion := None |} ];
              unusedScripts := [] |}
  /\ ~ In "constructor"
        (map di_name
           (ret_or_nil
              (res_bind (ConfigAnalyzer.analyzePackageJson Manifest.inherited_name "/p")
                 (fun result => Ret (missingDependencies result))))).
Proof.
  split; [vm_compute; tauto|]. split; [|split; [|split]]; try (vm_compute; reflexivity).
  - vm_compute. intros [H|[]]. discriminate H.
  - vm_compute. intros [H|[]]. discriminate H.
Qed.

(** C10. The skip list exempts by substring: a declared dependency in
    whose name an entry of the skip list occurs anywhere is never
    reported as unused; so with [left-pad], [jest-axe] and
    [my-vite-plugin] declared and none of them imported, only
    [left-pad] is reported. *)
Theorem skip_list_exempts_by_substring :
  (forall (env : Env) (targetPath : string) (result : PackageAnalysis)
          (depName skip : string),
      ConfigAnalyzer.analyzePackageJson env targetPath = Ret result ->
      In skip ConfigAnalyzer.skipList ->
      JsString.occurs_in skip depName ->
      ~ In depName (map di_name (unusedDependencies result)))
  /\ ConfigAnalyzer.skipList
     = [ "typescript"; "eslint"; "prettier"; "jest"; "vitest"; "vite";
         "webpack"; "rollup"; "esbuild"; "@types/" ]
  /\ ConfigAnalyzer.analyzePackageJson Manifest.never_imported "/p"
     = Ret {| unusedDependencies :=
                [ {| di_name := "left-pad"; di_type := dep_unused;
                     di_installedVersion := Some "1.3.0" |} ];
              missingDependencies := [];
              unusedScripts := [] |}.
Proof.
  split; [|split; [reflexivity | vm_compute; reflexivity]].
  intros env targetPath result depName skip Hrun Hskip Hocc Hin.
  apply in_map_iff in Hin. destruct Hin as (issue & Hname & Hin).
  destruct (FileUtils.getPackageJson env targetPath) as [pkg|] eqn:Hpkg.
  - destruct (FileUtils.getFiles env targetPath ["**/*.{js,jsx,ts,tsx}"]
                FileUtils.default_exclude) as [files|e] eqn:Hfiles.
    + rewrite (analyzePackageJson_eq env targetPath pkg files Hpkg Hfiles) in Hrun.
      injection Hrun as <-. simpl in Hin. apply in_unused_deps in Hin.
      destruct Hin as (depName' & version & _ & _ & Hnot & ->).
      simpl in Hname. subst depName'. apply Hnot. eauto.
    + unfold ConfigAnalyzer.analyzePackageJson in Hrun.
      rewrite Hpkg, Hfiles in Hrun. discriminate Hrun.
  - unfold ConfigAnalyzer.analyzePackageJson in Hrun. rewrite Hpkg in Hrun.
    injection Hrun as <-. contradiction Hin.
Qed.

Lemma skip_list_exempts_by_substring_witness :
  ~ In "jest-axe"
      (map di_name [ {| di_name := "left-pad"; di_type := dep_unused;
                        di_installedVersion := Some "1.3.0" |} ])
  /\ ~ In "my-vite-plugin"
       (map di_name [ {| di_name := "left-pad"; di_type := dep_unused;
                         di_installedVersion := Some "1.3.0" |} ]).
Proof.
  split.
  - apply (proj1 skip_list_exempts_by_substring Manifest.never_imported "/p"
             {| unusedDependencies :=
                  [ {| di_name := "left-pad"; di_type := dep_unused;
                       di_installedVersion := Some "1.3.0" |} ];
                missingDependencies := []; unusedScripts := [] |}
             "jest-axe" "jest").
    + vm_compute. reflexivity.
    + vm_compute. tauto.
    + exists "", "-axe". reflexivity.
  - apply (proj1 skip_list_exempts_by_substring Manifest.never_imported "/p"
             {| unusedDependencies :=
                  [ {| di_name := "left-pad"; di_type := dep_unused;
                       di_installedVersion := Some "1.3.0" |} ];
                missingDependencies := []; unusedScripts := [] |}
             "my-vite-plugin" "vite").
    + vm_compute. reflexivity.
    + vm_compute. tauto.
    + exists "my-", "-plugin". reflexivity.
Defined.

(* ===================================================================== *)
(** * Cycles *)
(* ===================================================================== *)

(** One call of [dfs] on a node with a single import. *)
Lemma dfs_single fuel (nodes : GraphBuilder.Nodes) node nd imported path st :
  JsMap.get nodes node = Some nd ->
  imports nd = [imported] ->
  GraphBuilder.dfs (S fuel) nodes node path st
  = GraphBuilder.leave node <$>
      (let st1 := GraphBuilder.enter node st in
       if negb (bool_decide (imported ∈ GraphBuilder.visited st1)) then
         GraphBuilder.dfs fuel nodes imported (path ++ [node]) st1
       else if bool_decide (imported ∈ GraphBuilder.recStack st1) then
         Some (GraphBuilder.push_cycle
                 (GraphBuilder.slice_from (path ++ [node])
                    (GraphBuilder.indexOf (path ++ [node]) imported)) st1)
       else Some st1).
Proof.
  intros Hget Himp. cbn [GraphBuilder.dfs]. rewrite Hget, Himp. cbv zeta.
  destruct (negb (bool_decide (imported ∈ GraphBuilder.visited
                                 (GraphBuilder.enter node st)))).
  - destruct (GraphBuilder.dfs fuel nodes imported (path ++ [node])
                (GraphBuilder.enter node st)); reflexivity.
  - destruct (bool_decide (imported ∈ GraphBuilder.recStack
                             (GraphBuilder.enter node st))); reflexivity.
Qed.

Ltac decide_membership :=
  repeat match goal with
    | |- context [bool_decide (?x ∈ ?s)] =>
        first [ rewrite (bool_decide_eq_true_2 (x ∈ s)) by set_solver
              | rewrite (bool_decide_eq_false_2 (x ∈ s)) by set_solver ]
    end.

(** The search from [x] around the ring [x -> y -> z -> x], started with
    nothing visited, finds the cycle [x; y; z] and leaves the three
    nodes visited. *)
Lemma dfs_ring fuel (nodes : GraphBuilder.Nodes) x y z nx ny nz :
  x <> y -> y <> z -> x <> z ->
  JsMap.get nodes x = Some nx -> imports nx = [y] ->
  JsMap.get nodes y = Some ny -> imports ny = [z] ->
  JsMap.get nodes z = Some nz -> imports nz = [x] ->
  exists st,
    GraphBuilder.dfs (S (S (S fuel))) nodes x []
      {| GraphBuilder.visited := ∅; GraphBuilder.recStack := ∅;
         GraphBuilder.cycles := [] |} = Some st
    /\ GraphBuilder.cycles st = [[x; y; z]]
    /\ x ∈ GraphBuilder.visited st
    /\ y ∈ GraphBuilder.visited st
    /\ z ∈ GraphBuilder.visited st.
Proof.
  intros Hxy Hyz Hxz Hx Hix Hy Hiy Hz Hiz.
  rewrite (dfs_single _ nodes x nx y _ _ Hx Hix). cbv zeta.
  unfold GraphBuilder.enter at 1 2 3. cbn [GraphBuilder.visited GraphBuilder.recStack
    GraphBuilder.cycles]. decide_membership. cbn [negb].
  rewrite (dfs_single _ nodes y ny z _ _ Hy Hiy). cbv zeta.
  unfold GraphBuilder.enter at 1 2 3. cbn [GraphBuilder.visited GraphBuilder.recStack
    GraphBuilder.cycles]. decide_membership. cbn [negb].
  rewrite (dfs_single _ nodes z nz x _ _ Hz Hiz). cbv zeta.
  unfold GraphBuilder.enter. cbn [GraphBuilder.visited GraphBuilder.recStack
    GraphBuilder.cycles]. decide_membership. cbn [negb].
  cbn [app GraphBuilder.indexOf]. rewrite String.eqb_refl.
  eexists. split; [reflexivity|].
  cbn. split; [reflexivity|]. set_solver.
Qed.

Lemma dfs_roots_visited fuel (nodes : GraphBuilder.Nodes) roots st :
  (forall r, In r roots -> r ∈ GraphBuilder.visited st) ->
  GraphBuilder.dfs_roots fuel nodes roots st = Some st.
Proof.
  induction roots as [|r roots IH]; intros Hall; simpl; [reflexivity|].
  rewrite (bool_decide_eq_true_2 (r ∈ GraphBuilder.visited st))
    by (apply Hall; left; reflexivity).
  simpl. apply IH. intros r' Hr'. apply Hall. right. exact Hr'.
Qed.

(** The detector on a ring, when the first key of the map is [x]. *)
Lemma ring_from_first_key fuel (nodes : GraphBuilder.Nodes) x y z rest :
  JsMap.keys nodes = x :: rest ->
  (forall r, In r rest -> r = x \/ r = y \/ r = z) ->
  x <> y -> y <> z -> x <> z ->
  (exists nx, JsMap.get nodes x = Some nx /\ imports nx = [y]) ->
  (exists ny, JsMap.get nodes y = Some ny /\ imports ny = [z]) ->
  (exists nz, JsMap.get nodes z = Some nz /\ imports nz = [x]) ->
  GraphBuilder.findCircularDependencies (S (S (S fuel))) nodes = Some [[x; y; z]].
Proof.
  intros Hkeys Hrest Hxy Hyz Hxz (nx & Hx & Hix) (ny & Hy & Hiy) (nz & Hz & Hiz).
  unfold GraphBuilder.findCircularDependencies. rewrite Hkeys.
  cbn [GraphBuilder.dfs_roots GraphBuilder.visited].
  rewrite (bool_decide_eq_false_2 (x ∈ (∅ : gset string))) by set_solver.
  cbn [negb].
  destruct (dfs_ring fuel nodes x y z nx ny nz Hxy Hyz Hxz Hx Hix Hy Hiy Hz Hiz)
    as (st & -> & Hcycles & Hvx & Hvy & Hvz).
  rewrite dfs_roots_visited.
  - simpl. rewrite Hcycles. reflexivity.
  - intros r Hr. destruct (Hrest r Hr) as [->|[->| ->]]; assumption.
Qed.

(** C6. On a graph that is a ring [a -> b -> c -> a] of three nodes,
    and with a depth bound of at least three, the detector returns
    exactly one cycle: the three nodes in import order, starting from the
    node that comes first in the map. *)
Theorem ring_cycle_found (nodes : GraphBuilder.Nodes) (a b c : string)
    (fuel : nat) :
  ring3 nodes a b c ->
  3 <= fuel ->
  exists cycle,
    GraphBuilder.findCircularDependencies fuel nodes = Some [cycle]
    /\ (cycle = [a; b; c] \/ cycle = [b; c; a] \/ cycle = [c; a; b])
    /\ first_key nodes = head cycle.
Proof.
  intros (Hab & Hbc & Hac & Hperm & Ha & Hb & Hc) Hfuel.
  destruct fuel as [|[|[|fuel]]]; try lia.
  assert (Hmem : forall r, In r (JsMap.keys nodes) -> r = a \/ r = b \/ r = c).
  { intros r Hr. apply (Permutation_in _ Hperm) in Hr.
    destruct Hr as [<-|[<-|[<-|[]]]]; auto. }
  unfold first_key.
  destruct (JsMap.keys nodes) as [|k rest] eqn:Hkeys.
  { apply Permutation_nil in Hperm. discriminate Hperm. }
  assert (Hrest : forall r, In r rest -> r = a \/ r = b \/ r = c).
  { intros r Hr. apply Hmem. right. exact Hr. }
  destruct (Hmem k (or_introl eq_refl)) as [->|[->| ->]].
  - exists [a; b; c]. split; [|split; [auto|reflexivity]].
    apply (ring_from_first_key fuel nodes a b c rest Hkeys); auto.
  - exists [b; c; a]. split; [|split; [auto|reflexivity]].
    apply (ring_from_first_key fuel nodes b c a rest Hkeys); auto.
    intros r Hr. destruct (Hrest r Hr) as [?|[?|?]]; auto.
  - exists [c; a; b]. split; [|split; [auto|reflexivity]].
    apply (ring_from_first_key fuel nodes c a b rest Hkeys); auto.
    intros r Hr. destruct (Hrest r Hr) as [?|[?|?]]; auto.
Qed.

Lemma ring_cycle_found_witness :
  exists cycle,
    GraphBuilder.findCircularDependencies 3 Ring.graph = Some [cycle]
    /\ (cycle = ["/r/a.ts"; "/r/b.ts"; "/r/c.ts"]
        \/ cycle = ["/r/b.ts"; "/r/c.ts"; "/r/a.ts"]
        \/ cycle = ["/r/c.ts"; "/r/a.ts"; "/r/b.ts"])
    /\ first_key Ring.graph = head cycle.
Proof.
  apply (ring_cycle_found Ring.graph "/r/a.ts" "/r/b.ts" "/r/c.ts" 3); [|lia].
  unfold ring3. split; [discriminate|]. split; [discriminate|].
  split; [discriminate|]. split.
  - vm_compute. apply Permutation_sym, Permutation_cons_append.
  - split; [|split]; eexists; (split; [vm_compute; reflexivity|reflexivity]).
Defined.

(* ===================================================================== *)
(** * Files and import resolution *)
(* ===================================================================== *)

Lemma jsset_fold_add_in (l : list string) : forall (acc : JsSet.t) x,
  In x (fold_left JsSet.add l acc) <-> In x acc \/ In x l.
Proof.
  induction l as [|y l IH]; intros acc x; simpl.
  - tauto.
  - rewrite IH, jsset_in_add. intuition congruence.
Qed.

Lemma jsset_add_NoDup (s : JsSet.t) x : List.NoDup s -> List.NoDup (JsSet.add s x).
Proof.
  intros H. unfold JsSet.add. destruct (JsSet.has s x) eqn:E; [exact H|].
  apply NoDup_ListNoDup, NoDup_app. apply NoDup_ListNoDup in H.
  split; [exact H|]. split.
  - intros y Hy Hy'. apply list_elem_of_In in Hy. apply list_elem_of_In in Hy'.
    destruct Hy' as [<-|[]]. apply jsset_has_in in Hy. congruence.
  - apply NoDup_singleton.
Qed.

Lemma jsset_fold_add_NoDup (l : list string) : forall (acc : JsSet.t),
  List.NoDup acc -> List.NoDup (fold_left JsSet.add l acc).
Proof.
  induction l as [|y l IH]; intros acc H; simpl; [exact H|].
  apply IH, jsset_add_NoDup, H.
Qed.

Lemma glob_all_spec (env : Env) targetPath patterns exclude files :
  FileUtils.glob_all env targetPath patterns exclude = Ret files ->
  forall f, In f files <->
            exists pattern matches,
              In pattern patterns
              /\ glob env pattern targetPath exclude = Ret matches
              /\ In f matches.
Proof.
  revert files. induction patterns as [|pattern patterns IH]; intros files; simpl.
  - intros [= <-] f. split; [intros [] | intros (p & m & [] & _)].
  - destruct (glob env pattern targetPath exclude) as [matches|e] eqn:Eg;
      simpl; [|discriminate].
    destruct (FileUtils.glob_all env targetPath patterns exclude) as [rest|e];
      simpl; [|discriminate].
    intros [= <-] f. rewrite in_app_iff, (IH rest eq_refl). split.
    + intros [H|(p & m & Hp & Hg & Hf)].
      * exists pattern, matches. auto.
      * exists p, m. auto.
    + intros (p & m & [<-|Hp] & Hg & Hf).
      * left. congruence.
      * right. exists p, m. auto.
Qed.

(** X1. [getFiles] returns every path matched by one of the patterns,
    nothing else, and no path twice. *)
Theorem getFiles_distinct_matches (env : Env) (targetPath : string)
    (patterns exclude files : list string) :
  FileUtils.getFiles env targetPath patterns exclude = Ret files ->
  List.NoDup files
  /\ forall f, In f files <->
               exists pattern matches,
                 In pattern patterns
                 /\ glob env pattern targetPath exclude = Ret matches
                 /\ In f matches.
Proof.
  unfold FileUtils.getFiles.
  destruct (FileUtils.glob_all env targetPath patterns exclude) as [all|e] eqn:Eall;
    simpl; [|discriminate].
  intros [= <-]. unfold JsSet.of_list. split.
  - apply jsset_fold_add_NoDup. constructor.
  - intros f. rewrite jsset_fold_add_in, <- (glob_all_spec env _ _ _ _ Eall).
    unfold JsSet.empty. simpl. tauto.
Qed.

Lemma getFiles_distinct_matches_witness :
  List.NoDup ["/p/a.ts"; "/p/b.ts"]
  /\ forall f, In f ["/p/a.ts"; "/p/b.ts"] <->
               exists pattern matches,
                 In pattern ["**/*.ts"; "**/*.tsx"]
                 /\ glob Project.twice pattern "/p" [] = Ret matches
                 /\ In f matches.
Proof.
  apply (getFiles_distinct_matches Project.twice "/p" ["**/*.ts"; "**/*.tsx"] []
           ["/p/a.ts"; "/p/b.ts"]).
  vm_compute. reflexivity.
Defined.

(** X2. [resolveImportPath] answers [null] for every source that does
    not start with [.] or [/]; a path it returns exists on disk; and a
    source whose resolved path has an extension is never probed: the
    answer is that path if it exists and [null] otherwise. *)
Theorem resolveImportPath_existing (env : Env) (fromFile importPath : string)
    (extensions : list string) :
  (JsString.startsWith importPath "." = false ->
   JsString.startsWith importPath "/" = false ->
   FileUtils.resolveImportPath env fromFile importPath extensions = None)
  /\ (forall p,
         FileUtils.resolveImportPath env fromFile importPath extensions = Some p ->
         fs_existsSync env p = true)
  /\ (let resolved := path_resolve env (path_dirname env fromFile) importPath in
      (JsString.startsWith importPath "." = true
       \/ JsString.startsWith importPath "/" = true) ->
      path_extname env resolved <> "" ->
      FileUtils.resolveImportPath env fromFile importPath extensions
      = if fs_existsSync env resolved then Some resolved else None).
Proof.
  unfold FileUtils.resolveImportPath. split; [|split].
  - intros -> ->. reflexivity.
  - intros p.
    destruct (negb (JsString.startsWith importPath ".")
              && negb (JsString.startsWith importPath "/")); [discriminate|].
    set (resolved := path_resolve env (path_dirname env fromFile) importPath).
    assert (Hdirect : (if fs_existsSync env resolved then Some resolved else None)
                      = Some p -> fs_existsSync env p = true).
    { destruct (fs_existsSync env resolved) eqn:E; [|discriminate].
      intros [= <-]. exact E. }
    destruct (String.eqb (path_extname env resolved) ""); [|exact Hdirect].
    destruct (find (fun ext => fs_existsSync env (resolved +:+ ext)) extensions)
      as [ext|] eqn:E1.
    { intros H. apply find_some in E1. destruct E1 as [_ E1].
      inversion H. subst p. exact E1. }
    destruct (find (fun ext => fs_existsSync env
                                 (path_join env resolved ("index" +:+ ext)))
                extensions) as [ext|] eqn:E2.
    { intros H. apply find_some in E2. destruct E2 as [_ E2].
      inversion H. subst p. exact E2. }
    exact Hdirect.
  - cbv zeta. intros Hrel Hext.
    set (resolved := path_resolve env (path_dirname env fromFile) importPath) in *.
    assert (Hguard : negb (JsString.startsWith importPath ".")
                     && negb (JsString.startsWith importPath "/") = false).
    { destruct Hrel as [-> | ->]; [reflexivity | apply andb_false_r]. }
    rewrite Hguard.
    apply String.eqb_neq in Hext. rewrite Hext. reflexivity.
Qed.

Lemma resolveImportPath_existing_witness :
  FileUtils.resolveImportPath Project.twice "/p/a.ts" "lodash"
    FileUtils.default_extensions = None.
Proof.
  apply (proj1 (resolveImportPath_existing Project.twice "/p/a.ts" "lodash"
                  FileUtils.default_extensions)); reflexivity.
Defined.

(* ===================================================================== *)
(** * The nodes of a built graph *)
(* ===================================================================== *)

Lemma try_catch_ret {S} (body : M S unit) (s : S) :
  snd (try_catch body (fun _ => mret tt) s) = Ret tt.
Proof.
  unfold try_catch. destruct (body s) as [s' [[]|e]]; reflexivity.
Qed.

Lemma for_of_ret {S A} (xs : list A) (body : A -> M S unit) :
  (forall x s, snd (body x s) = Ret tt) ->
  forall s, snd (for_of xs body s) = Ret tt.
Proof.
  intros Hbody. induction xs as [|x xs IH]; intros s; [reflexivity|].
  rewrite for_of_cons. specialize (Hbody x s).
  destruct (body x s) as [s' r]. simpl in Hbody. subst r. apply IH.
Qed.

Lemma processFile_ret env filePath rootPath nodes :
  snd (GraphBuilder.processFile env filePath rootPath nodes) = Ret tt.
Proof.
  unfold GraphBuilder.processFile.
  destruct (JsMap.get nodes filePath); [apply try_catch_ret | reflexivity].
Qed.

(** [build] either stops because [glob] threw, leaving the builder
    empty, or runs both loops and returns the store. *)
Lemma build_cases env targetPath files :
  (files = None
   /\ (exists e, FileUtils.getFiles env targetPath FileUtils.default_patterns
                   FileUtils.default_exclude = Raise e
                 /\ GraphBuilder.build env targetPath files GraphBuilder.new
                    = (GraphBuilder.new, Raise e)))
  \/ (exists allFiles,
         (files = Some allFiles
          \/ (files = None
              /\ FileUtils.getFiles env targetPath FileUtils.default_patterns
                   FileUtils.default_exclude = Ret allFiles))
         /\ GraphBuilder.build env targetPath files GraphBuilder.new
            = (built env targetPath allFiles, Ret (built env targetPath allFiles))).
Proof.
  assert (Hrun : forall allFiles,
             (let! _ := node_phase allFiles in
              let! _ := edge_phase env targetPath allFiles in mget)%m GraphBuilder.new
             = (built env targetPath allFiles, Ret (built env targetPath allFiles))).
  { intros allFiles. unfold mbind, built, node_phase, edge_phase.
    pose proof (for_of_mmodify_ret allFiles
                  (fun file nodes => JsMap.set nodes file (GraphBuilder.fresh_node file))
                  GraphBuilder.new) as H1.
    destruct (for_of allFiles _ GraphBuilder.new) as [s1 r1]. simpl in *. subst r1.
    pose proof (for_of_ret allFiles
                  (fun file => GraphBuilder.processFile env file targetPath)
                  (fun x s => processFile_ret env x targetPath s) s1) as H2.
    destruct (for_of allFiles _ s1) as [s2 r2]. simpl in *. subst r2.
    reflexivity. }
  unfold GraphBuilder.build. destruct files as [allFiles|].
  - right. exists allFiles. split; [left; reflexivity|]. apply Hrun.
  - destruct (FileUtils.getFiles env targetPath FileUtils.default_patterns
                FileUtils.default_exclude) as [allFiles|e] eqn:Eg.
    + right. exists allFiles. split; [right; auto|].
      unfold mbind at 1, lift. apply Hrun.
    + left. split; [reflexivity|]. exists e. split; [reflexivity|].
      reflexivity.
Qed.

Lemma jsset_has_keys {V} (m : JsMap.t V) k :
  JsSet.has (JsMap.keys m) k = JsMap.has m k.
Proof.
  destruct (JsMap.has m k) eqn:E.
  - apply jsset_has_in, jsmap_has_in_keys, E.
  - apply not_true_is_false. intros H. apply jsset_has_in, jsmap_has_in_keys in H.
    congruence.
Qed.

Lemma jsmap_keys_set {V} (m : JsMap.t V) k v :
  JsMap.keys (JsMap.set m k v) = JsSet.add (JsMap.keys m) k.
Proof.
  unfold JsSet.add. rewrite jsset_has_keys. destruct (JsMap.has m k) eqn:E.
  - apply jsmap_keys_set_present, E.
  - apply jsmap_keys_set_absent, E.
Qed.

Lemma node_phase_key_list (files : list string) : forall nodes,
  JsMap.keys (fst (node_phase files nodes))
  = fold_left JsSet.add files (JsMap.keys nodes).
Proof.
  unfold node_phase. induction files as [|file files IH]; intros nodes; [reflexivity|].
  rewrite for_of_cons. unfold mmodify at 1. simpl. rewrite IH, jsmap_keys_set.
  reflexivity.
Qed.

Section Keeps.
Variable env : Env.

(** What holds of the store when [processFile] finds its node, and is
    kept by each push, holds when [processFile] ends, thrown or not. *)
Lemma processFile_keeps (Q : GraphBuilder.Nodes -> Prop) filePath rootPath :
  (forall imp, preserves Q (GraphBuilder.add_import env filePath imp)) ->
  (forall names nodes, Q nodes ->
      Q (JsMap.update nodes filePath (GraphBuilder.set_exports names))) ->
  forall nodes,
    JsMap.get nodes filePath <> None -> Q nodes ->
    Q (fst (GraphBuilder.processFile env filePath rootPath nodes)).
Proof.
  intros Hadd Hexp nodes Hget HQ. unfold GraphBuilder.processFile.
  destruct (JsMap.get nodes filePath); [|congruence].
  clear Hget. revert nodes HQ. change (preserves Q
    (try_catch
       (let! content := lift (FileUtils.readFile env filePath) in
        let isTypeScript := isTypeScriptFile filePath in
        let! imports :=
          lift (ASTParser.extractImports (babel_parse env) content isTypeScript) in
        do! for_of imports (GraphBuilder.add_import env filePath) in
        let! names :=
          lift (ASTParser.extractExports (babel_parse env) content isTypeScript) in
        mmodify (fun nodes =>
                   JsMap.update nodes filePath (GraphBuilder.set_exports names)))%m
       (fun error => mret tt))).
  apply preserves_try_catch; [|intros e; apply preserves_mret].
  apply preserves_mbind; [apply preserves_lift|]. intros content.
  apply preserves_mbind; [apply preserves_lift|]. intros imps.
  apply preserves_mbind; [apply preserves_for_of, Hadd|]. intros _.
  apply preserves_mbind; [apply preserves_lift|]. intros names.
  apply preserves_mmodify. intros nodes HQ. apply Hexp, HQ.
Qed.

Lemma processFile_absent filePath rootPath nodes :
  JsMap.get nodes filePath = None ->
  GraphBuilder.processFile env filePath rootPath nodes = (nodes, Ret tt).
Proof. intros H. unfold GraphBuilder.processFile. rewrite H. reflexivity. Qed.

(** The same for a property that needs nothing of the file. *)
Lemma edge_phase_keeps (Q : GraphBuilder.Nodes -> Prop) targetPath allFiles :
  (forall filePath imp, preserves Q (GraphBuilder.add_import env filePath imp)) ->
  (forall filePath names nodes, Q nodes ->
      Q (JsMap.update nodes filePath (GraphBuilder.set_exports names))) ->
  preserves Q (edge_phase env targetPath allFiles).
Proof.
  intros Hadd Hexp. apply preserves_for_of. intros file nodes HQ.
  destruct (JsMap.get nodes file) eqn:E.
  - apply processFile_keeps; auto. congruence.
  - rewrite (processFile_absent file targetPath nodes E). exact HQ.
Qed.

Lemma has_after_import filePath imp nodes x :
  JsMap.has (after_import env filePath imp nodes) x = JsMap.has nodes x.
Proof.
  unfold after_import.
  destruct (FileUtils.resolveImportPath _ _ _ _) as [rp|]; [|reflexivity].
  destruct (JsMap.has nodes rp); [apply has_after_edge | reflexivity].
Qed.

Lemma has_set_exports (nodes : GraphBuilder.Nodes) filePath names x :
  JsMap.has (JsMap.update nodes filePath (GraphBuilder.set_exports names)) x
  = JsMap.has nodes x.
Proof. apply set_exports_effect. Qed.

Lemma keys_after_import filePath imp nodes :
  JsMap.keys (after_import env filePath imp nodes) = JsMap.keys nodes.
Proof.
  unfold after_import.
  destruct (FileUtils.resolveImportPath _ _ _ _) as [rp|]; [|reflexivity].
  destruct (JsMap.has nodes rp); [|reflexivity].
  rewrite !jsmap_keys_update. reflexivity.
Qed.

Lemma edge_phase_keys targetPath allFiles nodes :
  JsMap.keys (fst (edge_phase env targetPath allFiles nodes)) = JsMap.keys nodes.
Proof.
  apply (edge_phase_keeps (fun s => JsMap.keys s = JsMap.keys nodes)).
  - intros filePath imp s Hs. rewrite add_import_eq. simpl.
    rewrite keys_after_import. exact Hs.
  - intros filePath names s Hs. rewrite jsmap_keys_update. exact Hs.
  - reflexivity.
Qed.

Lemma well_keyed_edge_phase targetPath allFiles :
  preserves well_keyed (edge_phase env targetPath allFiles).
Proof.
  apply edge_phase_keeps.
  - intros filePath imp s Hs. rewrite add_import_eq. simpl. unfold after_import.
    destruct (FileUtils.resolveImportPath _ _ _ _) as [rp|]; [|exact Hs].
    destruct (JsMap.has s rp); [|exact Hs].
    intros a na. rewrite get_after_edge.
    destruct (JsMap.get s a) as [n|] eqn:E; [|discriminate].
    simpl. intros [= <-]. specialize (Hs a n E).
    destruct (String.eqb rp a), (String.eqb filePath a); exact Hs.
  - intros filePath names s Hs a na. rewrite jsmap_get_update.
    destruct (JsMap.get s a) as [n|] eqn:E;
      [|destruct (String.eqb filePath a); discriminate].
    specialize (Hs a n E).
    destruct (String.eqb filePath a); simpl; intros [= <-]; exact Hs.
Qed.

Lemma well_keyed_node_phase allFiles :
  preserves well_keyed (node_phase allFiles).
Proof.
  apply preserves_for_of. intros file. apply preserves_mmodify.
  intros s Hs a na. rewrite jsmap_get_set.
  destruct (String.eqb file a) eqn:E.
  - apply String.eqb_eq in E. intros [= <-]. exact E.
  - apply Hs.
Qed.

End Keeps.

(** X3. [build] on a new builder, given the files, does not throw and
    returns the store of the builder; the store has one node per
    distinct file, in the order of first occurrence, each with its own
    path in its [path] field; so [getNode] finds exactly the files. *)
Theorem build_nodes (env : Env) (targetPath : string) (files : list string) :
  let out := GraphBuilder.build env targetPath (Some files) GraphBuilder.new in
  snd out = Ret (fst out)
  /\ JsMap.keys (fst out) = JsSet.of_list files
  /\ List.NoDup (JsMap.keys (fst out))
  /\ (forall f, GraphBuilder.getNode (fst out) f <> None <-> In f files)
  /\ (forall f n, GraphBuilder.getNode (fst out) f = Some n -> path n = f).
Proof.
  destruct (build_cases env targetPath (Some files))
    as [[Hnone _]|(allFiles & [[= <-]|[Hnone _]] & Hrun)]; try discriminate.
  cbv zeta. rewrite Hrun. simpl.
  assert (Hkeys : JsMap.keys (built env targetPath files) = JsSet.of_list files).
  { unfold built. rewrite edge_phase_keys, node_phase_key_list. reflexivity. }
  split; [reflexivity|]. split; [exact Hkeys|]. split; [|split].
  - rewrite Hkeys. apply jsset_fold_add_NoDup. constructor.
  - intros f. unfold GraphBuilder.getNode.
    assert (Hin : In f files <-> In f (JsMap.keys (built env targetPath files))).
    { rewrite Hkeys. unfold JsSet.of_list. rewrite jsset_fold_add_in.
      unfold JsSet.empty. simpl. tauto. }
    rewrite Hin, <- jsmap_has_in_keys. unfold JsMap.has.
    destruct (JsMap.get (built env targetPath files) f); split; intros H; congruence.
  - unfold GraphBuilder.getNode, built.
    apply (well_keyed_edge_phase env), (well_keyed_node_phase files).
    intros a na H. discriminate H.
Qed.

Lemma build_nodes_witness :
  path {| path := "/p/a.ts"; imports := ["/p/b.ts"; "/p/b.ts"];
          importedBy := []; exports := [] |} = "/p/a.ts".
Proof.
  destruct (build_nodes Project.twice "/p" Project.twice_files)
    as (_ & _ & _ & _ & Hpath).
  apply (Hpath "/p/a.ts"). vm_compute. reflexivity.
Defined.

(* ===================================================================== *)
(** * Edges stay inside the graph *)
(* ===================================================================== *)

Lemma closed_edge (nodes : GraphBuilder.Nodes) source target :
  closed nodes ->
  JsMap.has nodes source = true ->
  JsMap.has nodes target = true ->
  closed (JsMap.update
            (JsMap.update nodes source (GraphBuilder.push_imports target))
            target (GraphBuilder.push_importedBy source)).
Proof.
  intros Hc Hs Ht a na. rewrite get_after_edge.
  destruct (JsMap.get nodes a) as [n|] eqn:E; [|discriminate].
  simpl. intros [= <-]. destruct (Hc a n E) as [Hi Hb].
  split; intros b Hin; rewrite has_after_edge;
    destruct (String.eqb target a), (String.eqb source a); simpl in Hin;
    try apply in_app_or in Hin;
    try (destruct Hin as [Hin|[<-|[]]]); auto.
Qed.

Lemma closed_set_exports (nodes : GraphBuilder.Nodes) filePath names :
  closed nodes ->
  closed (JsMap.update nodes filePath (GraphBuilder.set_exports names)).
Proof.
  intros Hc a na. rewrite jsmap_get_update.
  destruct (JsMap.get nodes a) as [n|] eqn:E;
    [|destruct (String.eqb filePath a); discriminate].
  destruct (Hc a n E) as [Hi Hb].
  destruct (String.eqb filePath a); simpl; intros [= <-];
    split; intros b Hin; rewrite has_set_exports; auto.
Qed.

Lemma edgeless_closed nodes : edgeless nodes -> closed nodes.
Proof.
  intros H a na Ha. destruct (H a na Ha) as [-> ->].
  split; intros b [].
Qed.

Lemma closed_edge_phase env targetPath allFiles :
  preserves closed (edge_phase env targetPath allFiles).
Proof.
  apply preserves_for_of. intros file nodes Hc.
  destruct (JsMap.get nodes file) eqn:E.
  2:{ rewrite (processFile_absent env file targetPath nodes E). exact Hc. }
  apply (processFile_keeps env
           (fun s => closed s /\ JsMap.has s file = true) file targetPath).
  - intros imp s [Hcs Hhas]. rewrite add_import_eq. simpl.
    split; [|rewrite has_after_import; exact Hhas].
    unfold after_import.
    destruct (FileUtils.resolveImportPath _ _ _ _) as [rp|]; [|exact Hcs].
    destruct (JsMap.has s rp) eqn:Erp; [|exact Hcs].
    apply closed_edge; assumption.
  - intros names s [Hcs Hhas]. split; [apply closed_set_exports, Hcs|].
    rewrite has_set_exports. exact Hhas.
  - congruence.
  - split; [exact Hc|]. unfold JsMap.has. rewrite E. reflexivity.
Qed.

Lemma built_closed env targetPath allFiles : closed (built env targetPath allFiles).
Proof.
  unfold built. apply closed_edge_phase, edgeless_closed.
  apply (init_edgeless allFiles), edgeless_new.
Qed.

Lemma graph_closure_helper env targetPath (files : list string) a b na :
  JsMap.get (fst (GraphBuilder.build env targetPath (Some files) GraphBuilder.new)) a
    = Some na ->
  In b (importedBy na) ->
  exists nb,
    JsMap.get (fst (GraphBuilder.build env targetPath (Some files) GraphBuilder.new)) b
      = Some nb.
Proof.
  intros Ha Hb.
  destruct (build_cases env targetPath (Some files))
    as [[Hnone _]|(allFiles & _ & Hrun)]; [discriminate|].
  rewrite Hrun in *. simpl in *.
  destruct (built_closed env targetPath allFiles a na Ha) as [_ Hby].
  specialize (Hby b Hb). unfold JsMap.has in Hby.
  destruct (JsMap.get (built env targetPath allFiles) b); [eauto|discriminate].
Qed.

(** X4. In the graph [build] leaves in a new builder, every entry of an
    [imports] or [importedBy] array is the key of a node of the graph:
    no edge leads to a file outside the scanned set. *)
Theorem graph_edges_stay_inside (env : Env) (targetPath : string)
    (files : option (list string)) (a b : string) (na : DependencyNode) :
  let nodes := fst (GraphBuilder.build env targetPath files GraphBuilder.new) in
  GraphBuilder.getNode nodes a = Some na ->
  In b (imports na) \/ In b (importedBy na) ->
  exists nb, GraphBuilder.getNode nodes b = Some nb.
Proof.
  intros nodes Ha Hb. unfold GraphBuilder.getNode in *.
  assert (Hc : closed nodes).
  { unfold nodes.
    destruct (build_cases env targetPath files)
      as [(_ & e & _ & ->)|(allFiles & _ & ->)]; simpl.
    - apply edgeless_closed, edgeless_new.
    - apply built_closed. }
  destruct (Hc a na Ha) as [Hi Hby].
  assert (Hhas : JsMap.has nodes b = true) by (destruct Hb; auto).
  unfold JsMap.has in Hhas. destruct (JsMap.get nodes b) as [nb|]; [eauto|discriminate].
Qed.

Lemma graph_edges_stay_inside_witness :
  exists nb,
    GraphBuilder.getNode
      (fst (GraphBuilder.build Project.twice "/p" (Some Project.twice_files)
              GraphBuilder.new)) "/p/b.ts" = Some nb.
Proof.
  apply (graph_edges_stay_inside Project.twice "/p" (Some Project.twice_files)
           "/p/a.ts" "/p/b.ts"
           {| path := "/p/a.ts"; imports := ["/p/b.ts"; "/p/b.ts"];
              importedBy := []; exports := [] |}).
  - vm_compute. reflexivity.
  - left. left. reflexivity.
Defined.

(* ===================================================================== *)
(** * Which files are reported as unused *)
(* ===================================================================== *)

Lemma jsmap_get_in {V} (m : JsMap.t V) k v :
  JsMap.get m k = Some v -> In (k, v) m.
Proof.
  induction m as [|[k0 v0] m IH]; simpl; [discriminate|].
  destruct (String.eqb k0 k) eqn:E.
  - apply String.eqb_eq in E. intros [= <-]. left. congruence.
  - intros H. right. apply IH, H.
Qed.

Lemma jsmap_in_get {V} (m : JsMap.t V) k v :
  List.NoDup (JsMap.keys m) -> In (k, v) m -> JsMap.get m k = Some v.
Proof.
  unfold JsMap.keys. induction m as [|[k0 v0] m IH]; simpl; [intros _ []|].
  intros Hnd. inversion Hnd as [|? ? Hnotin Hnd']; subst.
  intros [[= -> ->]|Hin].
  - rewrite String.eqb_refl. reflexivity.
  - destruct (String.eqb k0 k) eqn:E.
    + apply String.eqb_eq in E. subst k0. exfalso. apply Hnotin.
      apply in_map_iff. exists (k, v). auto.
    + apply IH; assumption.
Qed.

Lemma in_getUnusedFiles (nodes : GraphBuilder.Nodes) entryPoints f :
  In f (GraphBuilder.getUnusedFiles nodes entryPoints) <->
  exists node,
    In (f, node) nodes
    /\ (forall e, In e entryPoints -> ~ JsString.occurs_in e f)
    /\ importedBy node = [].
Proof.
  unfold GraphBuilder.getUnusedFiles. rewrite in_flat_map. split.
  - intros ([file node] & Hin & Hout).
    destruct (existsb (fun e => JsString.includes file e) entryPoints) eqn:Ee;
      [contradiction|].
    destruct (importedBy node) as [|x l] eqn:Ei; simpl in Hout; [|contradiction].
    destruct Hout as [<-|[]]. exists node. split; [exact Hin|]. split; [|exact Ei].
    intros e He Hocc. apply includes_spec in Hocc.
    assert (existsb (fun e => JsString.includes file e) entryPoints = true);
      [|congruence].
    apply existsb_exists. eauto.
  - intros (node & Hin & Hfrag & Hby). exists (f, node). split; [exact Hin|].
    destruct (existsb (fun e => JsString.includes f e) entryPoints) eqn:Ee.
    + apply existsb_exists in Ee. destruct Ee as (e & He & Hinc).
      apply includes_spec in Hinc. exfalso. apply (Hfrag e He Hinc).
    + rewrite Hby. left. reflexivity.
Qed.

(** X5. Over a duplicate-free list of files, a file is reported by
    [getUnusedFiles] exactly when it was scanned, none of the entry-point
    fragments occurs in its path, and no import statement of any scanned
    file resolves to it. *)
Theorem unused_files_are_the_unimported (env : Env) (targetPath : string)
    (files entryPoints : list string) (f : string) :
  NoDup files ->
  let nodes := fst (GraphBuilder.build env targetPath (Some files) GraphBuilder.new) in
  In f (GraphBuilder.getUnusedFiles nodes entryPoints) <->
  In f files
  /\ (forall e, In e entryPoints -> ~ JsString.occurs_in e f)
  /\ (forall a, In a files -> ~ In f (resolved_imports env files a)).
Proof.
  intros Hnd nodes.
  destruct (build_nodes env targetPath files) as (_ & _ & Hkeys & Hget & _).
  fold nodes in Hkeys, Hget. unfold GraphBuilder.getNode in Hget.
  assert (Hsome : forall a, In a files -> exists na, JsMap.get nodes a = Some na).
  { intros a Ha. apply Hget in Ha. destruct (JsMap.get nodes a); [eauto|congruence]. }
  rewrite in_getUnusedFiles. split.
  - intros (node & Hin & Hfrag & Hby).
    apply (jsmap_in_get _ _ _ Hkeys) in Hin.
    assert (Hf : In f files) by (apply Hget; congruence).
    split; [exact Hf|]. split; [exact Hfrag|].
    intros a Ha Hres. destruct (Hsome a Ha) as [na Hna].
    pose proof (build_imports env targetPath files a na Hnd Hna) as Himp.
    pose proof (build_balanced env targetPath (Some files) a f na node Hna Hin) as Hbal.
    rewrite Hby in Hbal. simpl in Hbal. rewrite <- Himp in Hres.
    apply (count_occ_In string_dec) in Hres. lia.
  - intros (Hf & Hfrag & Hnone). destruct (Hsome f Hf) as [node Hnode].
    exists node. split; [apply jsmap_get_in, Hnode|]. split; [exact Hfrag|].
    destruct (importedBy node) as [|a l] eqn:Eby; [reflexivity|]. exfalso.
    destruct (graph_closure_helper env targetPath files f a node) as [na Hna].
    + exact Hnode.
    + rewrite Eby. left. reflexivity.
    + fold nodes in Hna.
      assert (Ha : In a files) by (apply Hget; congruence).
      pose proof (build_imports env targetPath files a na Hnd Hna) as Himp.
      pose proof (build_balanced env targetPath (Some files) a f na node Hna Hnode)
        as Hbal.
      rewrite Eby in Hbal. simpl in Hbal.
      destruct (string_dec a a) as [_|Hne]; [|congruence].
      apply (Hnone a Ha). rewrite <- Himp.
      apply (count_occ_In string_dec). lia.
Qed.

Lemma unused_files_are_the_unimported_witness :
  In "/p/a.ts"
     (GraphBuilder.getUnusedFiles
        (fst (GraphBuilder.build Project.twice "/p" (Some Project.twice_files)
                GraphBuilder.new)) [])
  <-> In "/p/a.ts" Project.twice_files
      /\ (forall e, In e [] -> ~ JsString.occurs_in e "/p/a.ts")
      /\ (forall a, In a Project.twice_files ->
            ~ In "/p/a.ts" (resolved_imports Project.twice Project.twice_files a)).
Proof.
  apply (unused_files_are_the_unimported Project.twice "/p" Project.twice_files []
           "/p/a.ts").
  refine (bool_decide_unpack (NoDup Project.twice_files) _).
  vm_compute. reflexivity.
Defined.

(* ===================================================================== *)
(** * The cycle search: termination *)
(* ===================================================================== *)

Lemma dfs_unfold fuel (nodes : GraphBuilder.Nodes) node path st :
  GraphBuilder.dfs (S fuel) nodes node path st
  = GraphBuilder.leave node <$>
      match JsMap.get nodes node with
      | Some nodeData =>
          dfs_loop (GraphBuilder.dfs fuel nodes) (path ++ [node])
            (imports nodeData) (GraphBuilder.enter node st)
      | None => Some (GraphBuilder.enter node st)
      end.
Proof. reflexivity. Qed.

Lemma dfs_loop_cons rec path imported rest st :
  dfs_loop rec path (imported :: rest) st
  = if negb (bool_decide (imported ∈ GraphBuilder.visited st)) then
      match rec imported path st with
      | Some st' => dfs_loop rec path rest st'
      | None => None
      end
    else if bool_decide (imported ∈ GraphBuilder.recStack st) then
      dfs_loop rec path rest
        (GraphBuilder.push_cycle
           (GraphBuilder.slice_from path (GraphBuilder.indexOf path imported)) st)
    else dfs_loop rec path rest st.
Proof. reflexivity. Qed.

Section Termination.
Variable nodes : GraphBuilder.Nodes.

Lemma unvisited_mono st st' :
  GraphBuilder.visited st ⊆ GraphBuilder.visited st' ->
  size (unvisited nodes st') <= size (unvisited nodes st).
Proof. intros H. apply subseteq_size. unfold unvisited. set_solver. Qed.

Lemma unvisited_enter node st :
  JsMap.get nodes node <> None ->
  node ∉ GraphBuilder.visited st ->
  size (unvisited nodes (GraphBuilder.enter node st)) < size (unvisited nodes st).
Proof.
  intros Hkey Hnot. apply subset_size. unfold unvisited, GraphBuilder.enter. simpl.
  assert (Hin : node ∈ (list_to_set (JsMap.keys nodes) : gset string)).
  { apply elem_of_list_to_set, list_elem_of_In, jsmap_has_in_keys.
    unfold JsMap.has. destruct (JsMap.get nodes node); congruence. }
  set_solver.
Qed.

(** With more depth allowed than there are unvisited keys, [dfs]
    returns; what was visited stays visited. *)
Lemma dfs_returns : forall fuel node path st,
  size (unvisited nodes st) < fuel ->
  node ∉ GraphBuilder.visited st ->
  exists st',
    GraphBuilder.dfs fuel nodes node path st = Some st'
    /\ GraphBuilder.visited st ⊆ GraphBuilder.visited st'.
Proof.
  induction fuel as [|fuel IH]; intros node path st Hfuel Hnot; [lia|].
  rewrite dfs_unfold.
  destruct (JsMap.get nodes node) as [nodeData|] eqn:Eget.
  2:{ eexists. split; [reflexivity|]. simpl. set_solver. }
  assert (Hlt : size (unvisited nodes (GraphBuilder.enter node st)) < fuel).
  { pose proof (unvisited_enter node st ltac:(congruence) Hnot). lia. }
  assert (Hloop : forall imps cur,
             GraphBuilder.visited (GraphBuilder.enter node st)
               ⊆ GraphBuilder.visited cur ->
             exists st',
               dfs_loop (GraphBuilder.dfs fuel nodes) (path ++ [node]) imps cur
               = Some st'
               /\ GraphBuilder.visited cur ⊆ GraphBuilder.visited st').
  { induction imps as [|imported rest IHl]; intros cur Hsub.
    - exists cur. split; [reflexivity|]. set_solver.
    - rewrite dfs_loop_cons.
      destruct (bool_decide (imported ∈ GraphBuilder.visited cur)) eqn:Ev; simpl.
      + destruct (bool_decide (imported ∈ GraphBuilder.recStack cur)).
        * destruct (IHl (GraphBuilder.push_cycle
                           (GraphBuilder.slice_from (path ++ [node])
                              (GraphBuilder.indexOf (path ++ [node]) imported)) cur)
                     Hsub) as (st' & -> & Hst'). eauto.
        * apply IHl, Hsub.
      + apply bool_decide_eq_false in Ev.
        destruct (IH imported (path ++ [node]) cur) as (st1 & -> & Hst1).
        * pose proof (unvisited_mono _ _ Hsub). lia.
        * exact Ev.
        * destruct (IHl st1) as (st' & -> & Hst'); [set_solver|].
          exists st'. split; [reflexivity|]. set_solver. }
  destruct (Hloop (imports nodeData) (GraphBuilder.enter node st)) as (st' & -> & Hst');
    [set_solver|].
  eexists. split; [reflexivity|]. simpl in *. set_solver.
Qed.

Lemma dfs_roots_returns fuel : forall roots st,
  size (list_to_set (JsMap.keys nodes) : gset string) < fuel ->
  exists st', GraphBuilder.dfs_roots fuel nodes roots st = Some st'.
Proof.
  induction roots as [|node roots IH]; intros st Hfuel; simpl; [eauto|].
  destruct (bool_decide (node ∈ GraphBuilder.visited st)) eqn:Ev; simpl.
  - apply IH, Hfuel.
  - apply bool_decide_eq_false in Ev.
    destruct (dfs_returns fuel node [] st) as (st1 & -> & _); [|exact Ev|apply IH, Hfuel].
    assert (size (unvisited nodes st) <= size (list_to_set (JsMap.keys nodes) : gset string)).
    { apply subseteq_size. unfold unvisited. set_solver. }
    lia.
Qed.

(** A deeper bound does not change what a search that returned
    returns. *)
Lemma dfs_fuel_S : forall fuel node path st st',
  GraphBuilder.dfs fuel nodes node path st = Some st' ->
  GraphBuilder.dfs (S fuel) nodes node path st = Some st'.
Proof.
  induction fuel as [|fuel IH]; intros node path st st' H; [discriminate H|].
  rewrite dfs_unfold in *.
  destruct (JsMap.get nodes node) as [nodeData|]; [|exact H].
  assert (Hloop : forall imps cur out,
             dfs_loop (GraphBuilder.dfs fuel nodes) (path ++ [node]) imps cur = Some out ->
             dfs_loop (GraphBuilder.dfs (S fuel) nodes) (path ++ [node]) imps cur
             = Some out).
  { induction imps as [|imported rest IHl]; intros cur out Hout; [exact Hout|].
    rewrite dfs_loop_cons in *.
    destruct (negb (bool_decide (imported ∈ GraphBuilder.visited cur))).
    - destruct (GraphBuilder.dfs fuel nodes imported (path ++ [node]) cur)
        as [st1|] eqn:E1; [|discriminate].
      rewrite (IH _ _ _ _ E1). apply IHl, Hout.
    - destruct (bool_decide (imported ∈ GraphBuilder.recStack cur)); apply IHl, Hout. }
  destruct (dfs_loop (GraphBuilder.dfs fuel nodes) (path ++ [node])
              (imports nodeData) (GraphBuilder.enter node st)) as [out|] eqn:E;
    [|discriminate].
  rewrite (Hloop _ _ _ E). exact H.
Qed.

Lemma dfs_fuel_le fuel fuel' node path st st' :
  fuel <= fuel' ->
  GraphBuilder.dfs fuel nodes node path st = Some st' ->
  GraphBuilder.dfs fuel' nodes node path st = Some st'.
Proof.
  induction 1 as [|fuel' _ IH]; intros H; [exact H|].
  apply dfs_fuel_S, IH, H.
Qed.

Lemma dfs_roots_fuel_le fuel fuel' : forall roots st st',
  fuel <= fuel' ->
  GraphBuilder.dfs_roots fuel nodes roots st = Some st' ->
  GraphBuilder.dfs_roots fuel' nodes roots st = Some st'.
Proof.
  induction roots as [|node roots IH]; intros st st' Hle; simpl; [auto|].
  destruct (negb (bool_decide (node ∈ GraphBuilder.visited st))); [|apply IH, Hle].
  destruct (GraphBuilder.dfs fuel nodes node [] st) as [st1|] eqn:E; [|discriminate].
  rewrite (dfs_fuel_le _ _ _ _ _ _ Hle E). apply IH, Hle.
Qed.

Lemma size_list_to_set_le (l : list string) :
  size (list_to_set l : gset string) <= length l.
Proof.
  induction l as [|x l IH].
  - rewrite list_to_set_nil, size_empty. simpl. lia.
  - rewrite list_to_set_cons, size_union_alt, size_singleton. simpl.
    assert (size ((list_to_set l : gset string) ∖ {[x]}) <= size (list_to_set l : gset string))
      by (apply subseteq_size; set_solver).
    lia.
Qed.

End Termination.

(** X6. The cycle search terminates on every graph: with a depth bound
    larger than the number of nodes it returns a list of cycles, and
    every such bound gives the same list. *)
Theorem cycle_search_terminates (nodes : GraphBuilder.Nodes) :
  exists cycles,
    forall fuel,
      length (JsMap.keys nodes) < fuel ->
      GraphBuilder.findCircularDependencies fuel nodes = Some cycles.
Proof.
  pose proof (size_list_to_set_le (JsMap.keys nodes)) as Hsize.
  destruct (dfs_roots_returns nodes (S (length (JsMap.keys nodes)))
              (JsMap.keys nodes)
              {| GraphBuilder.visited := ∅; GraphBuilder.recStack := ∅;
                 GraphBuilder.cycles := [] |}) as [st Hst]; [lia|].
  exists (GraphBuilder.cycles st). intros fuel Hfuel.
  unfold GraphBuilder.findCircularDependencies.
  assert (Hle : S (length (JsMap.keys nodes)) <= fuel) by lia.
  rewrite (dfs_roots_fuel_le nodes _ fuel _ _ _ Hle Hst). reflexivity.
Qed.

Lemma cycle_search_terminates_witness :
  exists cycles, GraphBuilder.findCircularDependencies 4 Ring.graph = Some cycles.
Proof.
  destruct (cycle_search_terminates Ring.graph) as [cycles H].
  exists cycles. apply H. vm_compute. lia.
Defined.

(* ===================================================================== *)
(** * The cycle search: what it reports *)
(* ===================================================================== *)

Lemma indexOf_split (l : list string) x :
  In x l ->
  exists pre suf,
    l = pre ++ x :: suf
    /\ GraphBuilder.indexOf l x = Z.of_nat (length pre).
Proof.
  induction l as [|y l IH]; intros Hin; [destruct Hin|].
  simpl. destruct (String.eqb y x) eqn:E.
  - apply String.eqb_eq in E. subst y. exists [], l. split; reflexivity.
  - destruct Hin as [->|Hin]; [rewrite String.eqb_refl in E; discriminate|].
    destruct (IH Hin) as (pre & suf & -> & Hidx). exists (y :: pre), suf.
    split; [reflexivity|]. rewrite Hidx.
    destruct (Z.ltb_spec (Z.of_nat (length pre)) 0); simpl length; lia.
Qed.

Lemma slice_from_split (pre suf : list string) x :
  GraphBuilder.slice_from (pre ++ x :: suf) (Z.of_nat (length pre)) = x :: suf.
Proof.
  unfold GraphBuilder.slice_from.
  destruct (Z.ltb_spec (Z.of_nat (length pre)) 0); [lia|].
  rewrite Nat2Z.id, drop_app_length. reflexivity.
Qed.

Lemma chain_suffix nodes (pre l : list string) :
  chain nodes (pre ++ l) -> chain nodes l.
Proof.
  induction pre as [|x pre IH]; [auto|]. simpl.
  destruct (pre ++ l) eqn:E.
  - destruct pre, l; try discriminate. intros _. exact I.
  - intros [_ H]. apply IH, H.
Qed.

Lemma chain_snoc nodes (l : list string) x y :
  chain nodes (l ++ [x]) -> imports_edge nodes x y -> chain nodes ((l ++ [x]) ++ [y]).
Proof.
  intros Hc He. induction l as [|z l IH]; simpl in *.
  - split; [exact He | exact I].
  - destruct (l ++ [x]) as [|w r] eqn:E; [destruct l; discriminate|].
    simpl. destruct Hc as [Hzw Hc]. split; [exact Hzw|]. apply IH, Hc.
Qed.

Lemma last_suffix (pre l : list string) d d' :
  l <> [] -> List.last (pre ++ l) d = List.last l d'.
Proof.
  intros Hl. induction pre as [|x pre IH]; simpl.
  - destruct l as [|y l]; [congruence|]. clear Hl. revert y.
    induction l as [|z l IHl]; intros y; [reflexivity|]. simpl in *. apply IHl.
  - destruct (pre ++ l) eqn:E; [destruct pre, l; try discriminate; congruence|].
    exact IH.
Qed.

(** A node found on the recursion stack closes a chain. *)
Lemma back_edge_closes nodes (path : list string) node imported :
  chain nodes (path ++ [node]) ->
  imports_edge nodes node imported ->
  In imported (path ++ [node]) ->
  closed_chain nodes
    (GraphBuilder.slice_from (path ++ [node])
       (GraphBuilder.indexOf (path ++ [node]) imported)).
Proof.
  intros Hc He Hin. destruct (indexOf_split _ _ Hin) as (pre & suf & Hsplit & Hidx).
  rewrite Hidx, Hsplit, slice_from_split. exists imported.
  split; [reflexivity|]. split.
  - apply (chain_suffix nodes pre). rewrite <- Hsplit. exact Hc.
  - rewrite <- (last_suffix pre (imported :: suf) imported imported) by discriminate.
    rewrite <- Hsplit, last_last. exact He.
Qed.

Section Soundness.
Variable nodes : GraphBuilder.Nodes.

Lemma dfs_sound : forall fuel node path st st',
  chain nodes (path ++ [node]) ->
  (forall x, x ∈ GraphBuilder.recStack st -> In x path) ->
  Forall (closed_chain nodes) (GraphBuilder.cycles st) ->
  GraphBuilder.dfs fuel nodes node path st = Some st' ->
  (forall x, x ∈ GraphBuilder.recStack st' -> In x path)
  /\ Forall (closed_chain nodes) (GraphBuilder.cycles st').
Proof.
  induction fuel as [|fuel IH]; intros node path st st' Hchain Hstack Hcyc H;
    [discriminate H|].
  rewrite dfs_unfold in H.
  assert (Hleave : forall out,
             (forall x, x ∈ GraphBuilder.recStack out -> In x (path ++ [node])) ->
             forall x, x ∈ GraphBuilder.recStack (GraphBuilder.leave node out) ->
                       In x path).
  { intros out Hout x Hx. simpl in Hx.
    apply elem_of_difference in Hx. destruct Hx as [Hx Hne].
    apply Hout, in_app_or in Hx. destruct Hx as [Hx|[<-|[]]]; [exact Hx|].
    exfalso. apply Hne. set_solver. }
  assert (Henter : forall x, x ∈ GraphBuilder.recStack (GraphBuilder.enter node st) ->
                             In x (path ++ [node])).
  { intros x Hx. simpl in Hx. apply in_or_app.
    apply elem_of_union in Hx. destruct Hx as [Hx|Hx].
    - right. left. set_solver.
    - left. apply Hstack, Hx. }
  destruct (JsMap.get nodes node) as [nodeData|] eqn:Eget.
  2:{ injection H as <-. split; [apply Hleave, Henter | exact Hcyc]. }
  assert (Hloop : forall imps cur out,
             (forall i, In i imps -> imports_edge nodes node i) ->
             (forall x, x ∈ GraphBuilder.recStack cur -> In x (path ++ [node])) ->
             Forall (closed_chain nodes) (GraphBuilder.cycles cur) ->
             dfs_loop (GraphBuilder.dfs fuel nodes) (path ++ [node]) imps cur = Some out ->
             (forall x, x ∈ GraphBuilder.recStack out -> In x (path ++ [node]))
             /\ Forall (closed_chain nodes) (GraphBuilder.cycles out)).
  { induction imps as [|imported rest IHl]; intros cur out Hedges Hcur Hcc Hout.
    - injection Hout as <-. auto.
    - rewrite dfs_loop_cons in Hout.
      assert (Hrest : forall i, In i rest -> imports_edge nodes node i)
        by (intros i Hi; apply Hedges; right; exact Hi).
      assert (He : imports_edge nodes node imported) by (apply Hedges; left; reflexivity).
      destruct (negb (bool_decide (imported ∈ GraphBuilder.visited cur))).
      + destruct (GraphBuilder.dfs fuel nodes imported (path ++ [node]) cur)
          as [st1|] eqn:E1; [|discriminate].
        destruct (IH imported (path ++ [node]) cur st1) as [Hs1 Hc1]; auto.
        { apply chain_snoc; assumption. }
        apply (IHl st1 out); auto.
      + destruct (bool_decide (imported ∈ GraphBuilder.recStack cur)) eqn:Er.
        * apply bool_decide_eq_true in Er.
          apply (IHl _ out Hrest) in Hout; auto.
          simpl. apply Forall_app. split; [exact Hcc|].
          constructor; [|constructor].
          apply back_edge_closes; auto.
        * apply (IHl cur out); auto. }
  destruct (dfs_loop (GraphBuilder.dfs fuel nodes) (path ++ [node])
              (imports nodeData) (GraphBuilder.enter node st)) as [out|] eqn:E;
    [|discriminate].
  injection H as <-.
  destruct (Hloop (imports nodeData) (GraphBuilder.enter node st) out) as [Hs Hc]; auto.
  { intros i Hi. exists nodeData. auto. }
  split; [apply Hleave, Hs | exact Hc].
Qed.

Lemma dfs_roots_sound fuel : forall roots st st',
  (forall x, x ∈ GraphBuilder.recStack st -> False) ->
  Forall (closed_chain nodes) (GraphBuilder.cycles st) ->
  GraphBuilder.dfs_roots fuel nodes roots st = Some st' ->
  Forall (closed_chain nodes) (GraphBuilder.cycles st').
Proof.
  induction roots as [|node roots IH]; intros st st' Hstack Hcyc H; simpl in H.
  - injection H as <-. exact Hcyc.
  - destruct (negb (bool_decide (node ∈ GraphBuilder.visited st)));
      [|apply (IH st st'); auto].
    destruct (GraphBuilder.dfs fuel nodes node [] st) as [st1|] eqn:E; [|discriminate].
    destruct (dfs_sound fuel node [] st st1 I
                (fun x Hx => False_ind _ (Hstack x Hx)) Hcyc E) as [Hs1 Hc1].
    apply (IH st1 st'); auto.
Qed.

End Soundness.

(** X7. Every sequence the cycle search reports is a closed import
    chain: it is not empty, each of its files imports the next one, and
    its last file imports its first.  So nothing is reported for a graph
    without such a chain. *)
Theorem reported_cycles_are_closed_chains (nodes : GraphBuilder.Nodes)
    (fuel : nat) (cycles : list (list string)) :
  GraphBuilder.findCircularDependencies fuel nodes = Some cycles ->
  (forall c, In c cycles -> closed_chain nodes c)
  /\ ((forall c, ~ closed_chain nodes c) -> cycles = []).
Proof.
  unfold GraphBuilder.findCircularDependencies. intros H.
  destruct (GraphBuilder.dfs_roots fuel nodes (JsMap.keys nodes) _) as [st|] eqn:E;
    [|discriminate].
  injection H as <-.
  assert (Hall : Forall (closed_chain nodes) (GraphBuilder.cycles st)).
  { refine (dfs_roots_sound nodes fuel _ _ st _ _ E).
    - simpl. intros x Hx. set_solver.
    - constructor. }
  split.
  - intros c Hc. rewrite Forall_forall in Hall. apply Hall, list_elem_of_In, Hc.
  - intros Hnone. destruct (GraphBuilder.cycles st) as [|c l]; [reflexivity|].
    inversion Hall as [|? ? Hc _]; subst. destruct (Hnone c Hc).
Qed.

Lemma reported_cycles_are_closed_chains_witness :
  closed_chain Ring.graph ["/r/b.ts"; "/r/c.ts"; "/r/a.ts"].
Proof.
  apply (proj1 (reported_cycles_are_closed_chains Ring.graph 3
                  [["/r/b.ts"; "/r/c.ts"; "/r/a.ts"]] eq_refl)).
  left. reflexivity.
Defined.

(* ===================================================================== *)
(** * The classifiers over several files *)
(* ===================================================================== *)

Lemma in_traverse_iff {A} (visit : Node -> string -> Node -> list A) ast x :
  In x (Ast.traverse visit ast) <->
  exists p, In p (positions ast)
            /\ In x (visit (pos_parent p) (pos_key p) (pos_node p)).
Proof. rewrite traverse_positions. apply in_flat_map. Qed.

Lemma findInFile_names_file env filePath u :
  In u (ret_or_nil (UnusedFinder.findInFile env filePath)) -> ui_file u = filePath.
Proof.
  destruct (fs_readFile env filePath) as [content|e] eqn:Hread.
  - destruct (babel_parse env content (isTypeScriptFile filePath)) as [ast|e] eqn:Hparse.
    + rewrite (findInFile_parsed env filePath content ast Hread Hparse). simpl.
      intros H. apply in_flat_map in H. destruct H as (imp & _ & H).
      apply in_flag_import in H. destruct H as (s & _ & _ & ->). reflexivity.
    + rewrite (findInFile_skipped env filePath); [intros []|]. right. eauto.
  - rewrite (findInFile_skipped env filePath); [intros []|]. left. eauto.
Qed.

Lemma detectInFile_names_file env filePath d :
  In d (ret_or_nil (DeadCodeDetector.detectInFile env filePath)) -> dc_file d = filePath.
Proof.
  destruct (fs_readFile env filePath) as [content|e] eqn:Hread.
  - destruct (babel_parse env content (isTypeScriptFile filePath)) as [ast|e] eqn:Hparse.
    + rewrite (detectInFile_parsed env filePath content ast Hread Hparse). simpl.
      unfold dead_code_of. intros H.
      repeat (apply in_app_or in H; destruct H as [H|H]);
        apply in_map_iff in H; destruct H as (item & <- & _); reflexivity.
    + rewrite (detectInFile_skipped env filePath); [intros []|].
      right. exists content, e. auto.
  - rewrite (detectInFile_skipped env filePath); [intros []|]. left. eauto.
Qed.

(** X8. Neither classifier throws on any list of files; the issues of a
    concatenation of two lists are the issues of the first followed by
    the issues of the second; and every issue names one of the files
    given. *)
Theorem classifiers_compose (env : Env) (xs ys : list string) :
  exists ux uy dx dy,
    UnusedFinder.findInFiles env xs = Ret ux
    /\ UnusedFinder.findInFiles env ys = Ret uy
    /\ UnusedFinder.findInFiles env (xs ++ ys) = Ret (ux ++ uy)
    /\ DeadCodeDetector.detectInFiles env xs = Ret dx
    /\ DeadCodeDetector.detectInFiles env ys = Ret dy
    /\ DeadCodeDetector.detectInFiles env (xs ++ ys) = Ret (dx ++ dy)
    /\ Forall (fun u => In (ui_file u) xs) ux
    /\ Forall (fun d => In (dc_file d) xs) dx.
Proof.
  rewrite !findInFiles_eq, !detectInFiles_eq, !flat_map_app.
  do 4 eexists. repeat (split; [reflexivity|]). split.
  - apply Forall_forall. intros u Hu. apply list_elem_of_In, in_flat_map in Hu.
    destruct Hu as (file & Hfile & Hu).
    rewrite (findInFile_names_file env file u Hu). exact Hfile.
  - apply Forall_forall. intros d Hd. apply list_elem_of_In, in_flat_map in Hd.
    destruct Hd as (file & Hfile & Hd).
    rewrite (detectInFile_names_file env file d Hd). exact Hfile.
Qed.

(* ===================================================================== *)
(** * Where dead-code issues come from *)
(* ===================================================================== *)

Lemma in_dead_code_of filePath ast issue :
  In issue (dead_code_of filePath ast) <->
  (exists item, In item (Ast.traverse ASTParser.visit_Function ast)
                /\ issue = DeadCodeDetector.unreachable_issue filePath item)
  \/ (exists item, In item (Ast.traverse ASTParser.visit_Declaration ast)
                   /\ issue = DeadCodeDetector.unused_var_issue filePath item)
  \/ (exists item, In item (Ast.traverse ASTParser.visit_CatchClause ast)
                   /\ issue = DeadCodeDetector.empty_catch_issue filePath item).
Proof.
  unfold dead_code_of. rewrite !in_app_iff, !in_map_iff.
  split; intros [H|[H|H]]; destruct H as (item & H1 & H2);
    [left|right;left|right;right|left|right;left|right;right];
    exists item; auto.
Qed.

(** X9. In a file that is read and parsed, an empty-catch issue is
    reported for exactly the catch clauses whose block holds no
    statement, at the line of the clause. *)
Theorem empty_catch_issues (env : Env) (filePath content : string) (ast : Node)
    (issue : DeadCodeIssue) :
  fs_readFile env filePath = Ret content ->
  babel_parse env content (isTypeScriptFile filePath) = Ret ast ->
  (In issue (ret_or_nil (DeadCodeDetector.detectInFile env filePath))
   /\ dc_type issue = empty_catch)
  <-> exists p body,
        In p (positions ast)
        /\ Ast.is_type "CatchClause" (pos_node p) = true
        /\ Ast.prop "body" (pos_node p) = Some body
        /\ Ast.props "body" body = []
        /\ issue = {| dc_file := filePath;
                      dc_line := Ast.line_or_0 (pos_node p);
                      dc_type := empty_catch;
                      dc_description :=
                        "Empty catch block - errors are silently ignored" |}.
Proof.
  intros Hread Hparse.
  rewrite (detectInFile_parsed env filePath content ast Hread Hparse). simpl.
  rewrite in_dead_code_of. split.
  - intros [[(item & _ & ->)|[(item & _ & ->)|(item & Hitem & ->)]] Hty];
      try discriminate Hty.
    apply in_traverse_iff in Hitem. destruct Hitem as (p & Hp & Hitem).
    unfold ASTParser.visit_CatchClause in Hitem.
    destruct (Ast.is_type "CatchClause" (pos_node p)) eqn:Ety; [|destruct Hitem].
    destruct (Ast.prop "body" (pos_node p)) as [body|] eqn:Eb; [|destruct Hitem].
    destruct (Ast.props "body" body) as [|s l] eqn:Es; [|destruct Hitem].
    destruct Hitem as [<-|[]]. exists p, body. auto.
  - intros (p & body & Hp & Hty & Hb & Hs & ->). split; [|reflexivity].
    right. right. exists {| ec_line := Ast.line_or_0 (pos_node p) |}.
    split; [|reflexivity]. apply in_traverse_iff. exists p. split; [exact Hp|].
    unfold ASTParser.visit_CatchClause. rewrite Hty, Hb, Hs. left. reflexivity.
Qed.

(** X10. In a file that is read and parsed, every unused-var issue comes
    from a variable declarator whose [id] is an identifier, or from a
    function declaration directly under [Program], whose binding exists
    and has no reference: a declarator with a destructuring pattern and
    a function declared inside another function or block are never
    reported. *)
Theorem unused_var_issues_origin (env : Env) (filePath content : string)
    (ast : Node) (issue : DeadCodeIssue) :
  fs_readFile env filePath = Ret content ->
  babel_parse env content (isTypeScriptFile filePath) = Ret ast ->
  In issue (ret_or_nil (DeadCodeDetector.detectInFile env filePath)) ->
  dc_type issue = unused_var ->
  exists p id,
    In p (positions ast)
    /\ Ast.prop "id" (pos_node p) = Some id
    /\ Ast.binding (pos_node p) = Some false
    /\ ((Ast.is_type "VariableDeclarator" (pos_node p) = true
         /\ Ast.is_type "Identifier" id = true)
        \/ (Ast.is_type "FunctionDeclaration" (pos_node p) = true
            /\ Ast.is_type "Program" (pos_parent p) = true))
    /\ dc_line issue = Ast.line_or_0 (pos_node p)
    /\ dc_description issue = "Unused variable '" +:+ Ast.name id +:+ "'".
Proof.
  intros Hread Hparse.
  rewrite (detectInFile_parsed env filePath content ast Hread Hparse). simpl.
  rewrite in_dead_code_of.
  intros [(item & _ & ->)|[(item & Hitem & ->)|(item & _ & ->)]] Hty;
    try discriminate Hty.
  apply in_traverse_iff in Hitem. destruct Hitem as (p & Hp & Hitem).
  unfold ASTParser.visit_Declaration, ASTParser.unreferenced in Hitem.
  destruct (Ast.is_type "VariableDeclarator" (pos_node p)) eqn:Evar.
  - destruct (Ast.prop "id" (pos_node p)) as [id|] eqn:Eid; [|destruct Hitem].
    destruct (Ast.is_type "Identifier" id) eqn:Eident; [|destruct Hitem].
    destruct (Ast.binding (pos_node p)) as [[|]|] eqn:Eb; simpl in Hitem;
      try destruct Hitem as [<-|[]]; try destruct Hitem.
    exists p, id. repeat split; auto.
  - destruct (Ast.is_type "FunctionDeclaration" (pos_node p)) eqn:Efun;
      [|destruct Hitem].
    destruct (Ast.prop "id" (pos_node p)) as [id|] eqn:Eid; [|destruct Hitem].
    destruct (Ast.binding (pos_node p)) as [[|]|] eqn:Eb; simpl in Hitem;
      try destruct Hitem.
    destruct (Ast.is_type "Program" (pos_parent p)) eqn:Eprog; simpl in Hitem;
      [|destruct Hitem].
    destruct Hitem as [<-|[]]. exists p, id. repeat split; auto.
Qed.

(** X11. A name is in the used-identifier set of a syntax tree exactly
    when the tree has a node of type [Identifier] with that name that is
    neither the key of an object property, nor the property of a
    non-computed member expression, nor inside an import specifier;
    names that occur only in such places, or only in nodes of other
    types, do not count as used. *)
Theorem used_identifiers_characterised (babel : string -> bool -> Res Node)
    (code : string) (isTypeScript : bool) (ast : Node) (x : string) :
  babel code isTypeScript = Ret ast ->
  exists used : gset string,
    ASTParser.extractIdentifiers babel code isTypeScript = Ret used
    /\ (x ∈ used <->
        exists p,
          In p (positions ast)
          /\ Ast.is_type "Identifier" (pos_node p) = true
          /\ Ast.name (pos_node p) = x
          /\ ~ (Ast.is_type "ObjectProperty" (pos_parent p) = true
                /\ pos_key p = "key")
          /\ ~ (Ast.is_type "MemberExpression" (pos_parent p) = true
                /\ pos_key p = "property"
                /\ Ast.computed (pos_parent p) = false)
          /\ ASTParser.isImportBinding (pos_parent p) = false).
Proof.
  intros Hparse. unfold ASTParser.extractIdentifiers, ASTParser.parse.
  rewrite Hparse. simpl. eexists. split; [reflexivity|].
  rewrite elem_of_list_to_set, list_elem_of_In, in_traverse_iff.
  split.
  - intros (p & Hp & Hx). exists p. split; [exact Hp|].
    unfold ASTParser.visit_Identifier in Hx.
    destruct (Ast.is_type "Identifier" (pos_node p)); [|destruct Hx].
    destruct (Ast.is_type "ObjectProperty" (pos_parent p)) eqn:Eo;
      destruct (String.eqb (pos_key p) "key") eqn:Ek;
      destruct (Ast.is_type "MemberExpression" (pos_parent p)) eqn:Em;
      destruct (String.eqb (pos_key p) "property") eqn:Ep;
      destruct (Ast.computed (pos_parent p)) eqn:Ec;
      simpl in Hx; try (destruct Hx; fail);
      destruct (ASTParser.isImportBinding (pos_parent p)) eqn:Ei;
      try (destruct Hx; fail);
      destruct Hx as [<-|[]];
      (split; [reflexivity|]; split; [reflexivity|];
       split; [|split; [|reflexivity]];
       intros H; decompose [and] H;
       try apply String.eqb_neq in Ek; try apply String.eqb_neq in Ep;
       congruence).
  - intros (p & Hp & Hty & Hname & Hkey & Hmem & Himp). exists p.
    split; [exact Hp|]. unfold ASTParser.visit_Identifier. rewrite Hty, Himp.
    destruct (Ast.is_type "ObjectProperty" (pos_parent p)) eqn:Eo;
      destruct (String.eqb (pos_key p) "key") eqn:Ek;
      destruct (Ast.is_type "MemberExpression" (pos_parent p)) eqn:Em;
      destruct (String.eqb (pos_key p) "property") eqn:Ep;
      destruct (Ast.computed (pos_parent p)) eqn:Ec;
      simpl; try (left; exact Hname);
      try apply String.eqb_eq in Ek; try apply String.eqb_eq in Ep;
      exfalso; tauto.
Qed.

Lemma empty_catch_issues_witness :
  (In {| dc_file := "/app/catch.ts"; dc_line := 4; dc_type := empty_catch;
         dc_description := "Empty catch block - errors are silently ignored" |}
      (ret_or_nil (DeadCodeDetector.detectInFile MoreSamples.app "/app/catch.ts"))
   /\ empty_catch = empty_catch)
  <-> exists p body,
        In p (positions MoreSamples.catch_ast)
        /\ Ast.is_type "CatchClause" (pos_node p) = true
        /\ Ast.prop "body" (pos_node p) = Some body
        /\ Ast.props "body" body = []
        /\ {| dc_file := "/app/catch.ts"; dc_line := 4; dc_type := empty_catch;
              dc_description := "Empty catch block - errors are silently ignored" |}
           = {| dc_file := "/app/catch.ts";
                dc_line := Ast.line_or_0 (pos_node p);
                dc_type := empty_catch;
                dc_description :=
                  "Empty catch block - errors are silently ignored" |}.
Proof.
  apply (empty_catch_issues MoreSamples.app "/app/catch.ts"
           (Fixture.sf_text MoreSamples.catch_ts) MoreSamples.catch_ast
           {| dc_file := "/app/catch.ts"; dc_line := 4; dc_type := empty_catch;
              dc_description := "Empty catch block - errors are silently ignored" |});
    reflexivity.
Defined.

Lemma unused_var_issues_origin_witness :
  exists p id,
    In p (positions DeadSample.unused_fn_ast)
    /\ Ast.prop "id" (pos_node p) = Some id
    /\ Ast.binding (pos_node p) = Some false
    /\ ((Ast.is_type "VariableDeclarator" (pos_node p) = true
         /\ Ast.is_type "Identifier" id = true)
        \/ (Ast.is_type "FunctionDeclaration" (pos_node p) = true
            /\ Ast.is_type "Program" (pos_parent p) = true))
    /\ 1 = Ast.line_or_0 (pos_node p)
    /\ "Unused variable 'unusedFunction'" = "Unused variable '" +:+ Ast.name id +:+ "'".
Proof.
  apply (unused_var_issues_origin DeadSample.app "/app/unused.ts"
           (Fixture.sf_text DeadSample.unused_fn_ts) DeadSample.unused_fn_ast
           {| dc_file := "/app/unused.ts"; dc_line := 1; dc_type := unused_var;
              dc_description := "Unused variable 'unusedFunction'" |}).
  - reflexivity.
  - reflexivity.
  - vm_compute. left. reflexivity.
  - reflexivity.
Defined.

Lemma used_identifiers_characterised_witness :
  exists used : gset string,
    ASTParser.extractIdentifiers (babel_parse Sample.app)
      (Fixture.sf_text Sample.dates_ts) true = Ret used
    /\ ("map" ∈ used <->
        exists p,
          In p (positions Sample.dates_ast)
          /\ Ast.is_type "Identifier" (pos_node p) = true
          /\ Ast.name (pos_node p) = "map"
          /\ ~ (Ast.is_type "ObjectProperty" (pos_parent p) = true
                /\ pos_key p = "key")
          /\ ~ (Ast.is_type "MemberExpression" (pos_parent p) = true
                /\ pos_key p = "property"
                /\ Ast.computed (pos_parent p) = false)
          /\ ASTParser.isImportBinding (pos_parent p) = false).
Proof.
  apply (used_identifiers_characterised (babel_parse Sample.app)
           (Fixture.sf_text Sample.dates_ts) true Sample.dates_ast "map").
  reflexivity.
Defined.

(* ===================================================================== *)
(** * The dependency cross-check, exactly *)
(* ===================================================================== *)

Lemma falsy_lookup (dependencies : JsObject.t) root :
  JsObject.truthy (JsObject.get dependencies root) = false <->
  JsMap.get dependencies root = Some ""
  \/ (~ JsObject.declares dependencies root
      /\ ~ In root JsObject.prototype_names).
Proof.
  unfold JsObject.get, JsObject.declares. rewrite jsobject_keys_in.
  destruct (JsMap.get dependencies root) as [v|] eqn:E.
  - simpl. rewrite negb_false_iff, String.eqb_eq. split.
    + intros ->. left. reflexivity.
    + intros [[= ->]|[Hd _]]; [reflexivity|].
      exfalso. apply Hd. apply jsmap_has_in_keys. unfold JsMap.has.
      rewrite E. reflexivity.
  - apply jsmap_get_none_keys in E.
    destruct (existsb (String.eqb root) JsObject.prototype_names) eqn:Ep; simpl.
    + apply existsb_exists in Ep. destruct Ep as (y & Hy & Heq).
      apply String.eqb_eq in Heq. subst y.
      split; [discriminate|]. intros [H|[_ H]]; [discriminate|contradiction].
    + split; [|reflexivity]. intros _. right. split; [exact E|].
      intros Hin. assert (existsb (String.eqb root) JsObject.prototype_names = true);
        [|congruence].
      apply existsb_exists. exists root. split; [exact Hin|apply String.eqb_refl].
Qed.

Lemma in_stale_scripts (scripts : option JsObject.t) script :
  In script (ConfigAnalyzer.stale_scripts scripts) <->
  exists o, scripts = Some o
            /\ JsObject.declares o script
            /\ (JsString.occurs_in "old" script
                \/ JsString.occurs_in "backup" script
                \/ JsString.occurs_in "temp" script
                \/ JsString.occurs_in "unused" script).
Proof.
  unfold ConfigAnalyzer.stale_scripts. destruct scripts as [o|].
  - rewrite filter_In, !orb_true_iff, !includes_spec. unfold JsObject.declares.
    split.
    + intros [Hin H]. exists o. repeat split; [exact Hin|tauto].
    + intros (o' & [= <-] & Hin & H). split; [exact Hin|tauto].
  - split; [intros []|]. intros (o & H & _). discriminate.
Qed.

(** X12. With a manifest and a file list, the three lists are exactly
    these.  Unused: the declared entries that no file that is read and
    parsed imports and in whose name no skip-list entry occurs, with
    their version.  Missing: the roots some such file imports that are
    declared with an empty version string, or are not declared and are
    not the name of a member of [Object.prototype].  Scripts: the script
    names in which old, backup, temp or unused occurs. *)
Theorem dependency_issues_characterised (env : Env) (targetPath : string)
    (pkg : PackageJson) (files : list string) (result : PackageAnalysis) :
  FileUtils.getPackageJson env targetPath = Some pkg ->
  FileUtils.getFiles env targetPath ["**/*.{js,jsx,ts,tsx}"] FileUtils.default_exclude
    = Ret files ->
  ConfigAnalyzer.analyzePackageJson env targetPath = Ret result ->
  (forall issue,
      In issue (unusedDependencies result) <->
      exists depName version,
        issue = {| di_name := depName; di_type := dep_unused;
                   di_installedVersion := Some version |}
        /\ In (depName, version) (JsObject.entries (declared pkg))
        /\ ~ (exists file, In file files /\ imports_root env file depName)
        /\ ~ (exists skip, In skip ConfigAnalyzer.skipList
                           /\ JsString.occurs_in skip depName))
  /\ (forall issue,
         In issue (missingDependencies result) <->
         exists root,
           issue = {| di_name := root; di_type := dep_missing;
                      di_installedVersion := None |}
           /\ (exists file, In file files /\ imports_root env file root)
           /\ (JsMap.get (declared pkg) root = Some ""
               \/ (~ JsObject.declares (declared pkg) root
                   /\ ~ In root JsObject.prototype_names)))
  /\ (forall script,
         In script (unusedScripts result) <->
         exists scripts,
           pkg_scripts pkg = Some scripts
           /\ JsObject.declares scripts script
           /\ (JsString.occurs_in "old" script
               \/ JsString.occurs_in "backup" script
               \/ JsString.occurs_in "temp" script
               \/ JsString.occurs_in "unused" script)).
Proof.
  intros Hpkg Hfiles.
  rewrite (analyzePackageJson_eq env targetPath pkg files Hpkg Hfiles).
  intros [= <-]. simpl. split; [|split]; intros issue.
  - rewrite in_unused_deps. split.
    + intros (depName & version & Hin & Hnot & Hskip & ->).
      exists depName, version. rewrite <- used_roots_spec. auto.
    + intros (depName & version & -> & Hin & Hnot & Hskip).
      exists depName, version. rewrite used_roots_spec. auto.
  - rewrite in_missing_deps. split.
    + intros (root & Hin & Hfalsy & ->). exists root.
      rewrite <- used_roots_spec, <- falsy_lookup. auto.
    + intros (root & -> & Hin & Hfalsy). exists root.
      rewrite used_roots_spec, falsy_lookup. auto.
  - apply in_stale_scripts.
Qed.

Lemma dependency_issues_characterised_witness :
  In {| di_name := "date-fns"; di_type := dep_missing; di_installedVersion := None |}
     [ {| di_name := "date-fns"; di_type := dep_missing;
          di_installedVersion := None |} ]
  <-> exists root,
        {| di_name := "date-fns"; di_type := dep_missing; di_installedVersion := None |}
        = {| di_name := root; di_type := dep_missing; di_installedVersion := None |}
        /\ (exists file, In file ["/p/report.ts"]
                         /\ imports_root Manifest.undeclared file root)
        /\ (JsMap.get (declared Manifest.axios_only) root = Some ""
            \/ (~ JsObject.declares (declared Manifest.axios_only) root
                /\ ~ In root JsObject.prototype_names)).
Proof.
  apply (proj1 (proj2 (dependency_issues_characterised Manifest.undeclared "/p"
                  Manifest.axios_only ["/p/report.ts"]
                  {| unusedDependencies :=
                       [ {| di_name := "axios"; di_type := dep_unused;
                            di_installedVersion := Some "1.0.0" |} ];
                     missingDependencies :=
                       [ {| di_name := "date-fns"; di_type := dep_missing;
                            di_installedVersion := None |} ];
                     unusedScripts := [] |} eq_refl eq_refl eq_refl))).
Defined.

(** X13. Without a usable manifest nothing is reported and no file is
    looked for: when [package.json] cannot be read, when [JSON.parse]
    throws on it, or when it parses to [null], the result is three empty
    lists, also when [glob] would throw. *)
Theorem no_manifest_no_issues (env : Env) (targetPath : string) :
  let pkgPath := path_join env targetPath "package.json" in
  ((exists e, fs_readFile env pkgPath = Raise e)
   \/ (exists content, fs_readFile env pkgPath = Ret content
         /\ ((exists e, JSON_parse env content = Raise e)
             \/ JSON_parse env content = Ret None))) ->
  ConfigAnalyzer.analyzePackageJson env targetPath
  = Ret {| unusedDependencies := []; missingDependencies := [];
           unusedScripts := [] |}.
Proof.
  cbv zeta. intros H.
  assert (Hnone : FileUtils.getPackageJson env targetPath = None).
  { unfold FileUtils.getPackageJson, FileUtils.readFile.
    destruct H as [[e ->]|(content & -> & [[e He]|He])]; simpl.
    - reflexivity.
    - rewrite He. reflexivity.
    - rewrite He. reflexivity. }
  unfold ConfigAnalyzer.analyzePackageJson. rewrite Hnone. reflexivity.
Qed.

Lemma no_manifest_no_issues_witness :
  ConfigAnalyzer.analyzePackageJson Sample.app "/app"
  = Ret {| unusedDependencies := []; missingDependencies := [];
           unusedScripts := [] |}.
Proof.
  apply (no_manifest_no_issues Sample.app "/app").
  left. exists "ENOENT". reflexivity.
Defined.

(* ===================================================================== *)
(** * The root of an import source *)
(* ===================================================================== *)

Lemma split_nonempty sep s : JsString.split sep s <> [].
Proof.
  destruct s as [|c t]; simpl; [discriminate|].
  destruct (Ascii.eqb c sep); [discriminate|].
  destruct (JsString.split sep t); discriminate.
Qed.

Lemma join_cons sep p q rest :
  JsString.join sep (p :: q :: rest) = p +:+ sep +:+ JsString.join sep (q :: rest).
Proof. reflexivity. Qed.

(** Joining the parts gives the string back. *)
Lemma join_split sep s :
  JsString.join (String sep "") (JsString.split sep s) = s.
Proof.
  induction s as [|c t IH]; [reflexivity|]. simpl JsString.split.
  destruct (Ascii.eqb c sep) eqn:E.
  - apply Ascii.eqb_eq in E. subst c.
    destruct (JsString.split sep t) as [|h r] eqn:Es;
      [exfalso; exact (split_nonempty _ _ Es)|].
    rewrite join_cons, IH. reflexivity.
  - destruct (JsString.split sep t) as [|h r] eqn:Es;
      [exfalso; exact (split_nonempty _ _ Es)|].
    destruct r as [|q r].
    + simpl in *. rewrite IH. reflexivity.
    + rewrite join_cons. rewrite join_cons in IH. rewrite <- IH. reflexivity.
Qed.

Lemma split_parts_free sep s : Forall (free_of sep) (JsString.split sep s).
Proof.
  induction s as [|c t IH]; simpl.
  - constructor; [intros []|constructor].
  - destruct (Ascii.eqb c sep) eqn:E.
    + constructor; [intros []|exact IH].
    + destruct (JsString.split sep t) as [|h r].
      * constructor; [|constructor]. intros [->|[]].
        rewrite Ascii.eqb_refl in E. discriminate.
      * inversion IH as [|? ? Hh Hr]; subst. constructor; [|exact Hr].
        intros [->|Hin]; [rewrite Ascii.eqb_refl in E; discriminate|].
        exact (Hh Hin).
Qed.

Lemma split_free sep s : free_of sep s -> JsString.split sep s = [s].
Proof.
  induction s as [|c t IH]; intros Hfree; [reflexivity|]. simpl.
  destruct (Ascii.eqb c sep) eqn:E.
  - apply Ascii.eqb_eq in E. subst c. exfalso. apply Hfree. left. reflexivity.
  - rewrite IH; [reflexivity|]. intros Hin. apply Hfree. right. exact Hin.
Qed.

Lemma split_append sep a rest :
  free_of sep a ->
  JsString.split sep (a +:+ String sep rest) = a :: JsString.split sep rest.
Proof.
  induction a as [|c t IH]; intros Hfree; simpl.
  - rewrite Ascii.eqb_refl. reflexivity.
  - destruct (Ascii.eqb c sep) eqn:E.
    + apply Ascii.eqb_eq in E. subst c. exfalso. apply Hfree. left. reflexivity.
    + rewrite IH; [reflexivity|]. intros Hin. apply Hfree. right. exact Hin.
Qed.

Lemma includes_free sep s :
  free_of sep s -> JsString.includes s (String sep "") = false.
Proof.
  intros Hfree. destruct (JsString.includes s (String sep "")) eqn:E; [|reflexivity].
  exfalso. apply includes_spec in E. destruct E as (pre & post & ->).
  apply Hfree. clear Hfree. induction pre as [|c pre IH]; simpl.
  - left. reflexivity.
  - right. exact IH.
Qed.

Lemma append_nil_l (s : string) : "" +:+ s = s.
Proof. reflexivity. Qed.

Lemma append_cons (c : ascii) (a b : string) : String c a +:+ b = String c (a +:+ b).
Proof. reflexivity. Qed.

Lemma append_assoc (a b c : string) : (a +:+ b) +:+ c = a +:+ (b +:+ c).
Proof.
  induction a as [|x a IH]; [reflexivity|]. rewrite !append_cons, IH. reflexivity.
Qed.

Lemma prefix_append (a b : string) : String.prefix a (a +:+ b) = true.
Proof. apply prefix_spec. exists b. reflexivity. Qed.

Lemma append_nil_r (a : string) : a +:+ "" = a.
Proof.
  induction a as [|x a IH]; [reflexivity|]. rewrite append_cons, IH. reflexivity.
Qed.

Lemma prefix_cons (a b : ascii) (p s : string) :
  String.prefix (String a p) (String b s)
  = if ascii_dec a b then String.prefix p s else false.
Proof. reflexivity. Qed.

Lemma prefix_refl (a : string) : String.prefix a a = true.
Proof. apply prefix_spec. exists "". symmetry. apply append_nil_r. Qed.

(** The shape of a source and of its root. *)
Lemma pkgName_cases (source : string) :
  let root := ConfigAnalyzer.pkgName source in
  (root = source \/ exists rest, source = root +:+ "/" +:+ rest)
  /\ ((JsString.startsWith source "@" = false /\ free_of "/" root)
      \/ (JsString.startsWith source "@" = true
          /\ (free_of "/" root
              \/ exists scope name, root = scope +:+ "/" +:+ name
                                    /\ free_of "/" scope /\ free_of "/" name))).
Proof.
  cbv zeta. unfold ConfigAnalyzer.pkgName.
  pose proof (join_split "/" source) as Hjoin.
  pose proof (split_parts_free "/" source) as Hfree.
  destruct (JsString.split "/" source) as [|a [|b r]] eqn:Es.
  - exfalso. exact (split_nonempty _ _ Es).
  - simpl in Hjoin. subst a. inversion Hfree as [|? ? Ha _]; subst.
    destruct (JsString.startsWith source "@"); simpl.
    + split; [left; reflexivity|]. right. split; [reflexivity|]. left. exact Ha.
    + split; [left; reflexivity|]. left. split; [reflexivity|exact Ha].
  - rewrite join_cons in Hjoin.
    inversion Hfree as [|? ? Ha Hr]; subst. inversion Hr as [|? ? Hb Hr']; subst.
    clear Es.
    destruct (JsString.startsWith (a +:+ "/" +:+ JsString.join "/" (b :: r)) "@")
      eqn:Eat.
    + change (firstn 2 (a :: b :: r)) with [a; b]. rewrite join_cons.
      change (JsString.join "/" [b]) with b. split.
      * destruct r as [|c r].
        -- left. reflexivity.
        -- right. exists (JsString.join "/" (c :: r)). rewrite join_cons.
           rewrite !append_assoc. reflexivity.
      * right. split; [reflexivity|]. right. exists a, b. auto.
    + simpl hd. split.
      * right. exists (JsString.join "/" (b :: r)). reflexivity.
      * left. split; [reflexivity|exact Ha].
Qed.

(** X14. The root that the cross-check takes from an import source: it
    is the source itself or the part of the source before a slash; it is
    its own root; and for a source that does not start with [@] it
    contains no slash. *)
Theorem package_root_properties (source : string) :
  let root := ConfigAnalyzer.pkgName source in
  (root = source \/ exists rest, source = root +:+ "/" +:+ rest)
  /\ JsString.startsWith source root = true
  /\ ConfigAnalyzer.pkgName root = root
  /\ JsString.startsWith source "@" || negb (JsString.includes root "/") = true.
Proof.
  pose proof (pkgName_cases source) as H. cbv zeta in *.
  set (root := ConfigAnalyzer.pkgName source) in *. clearbody root.
  destruct H as [Hshape Hfree]. split; [exact Hshape|]. split; [|split].
  - unfold JsString.startsWith. destruct Hshape as [->|[rest ->]].
    + apply prefix_refl.
    + apply prefix_append.
  - destruct Hfree as [[Hat Hfree]|[Hat [Hfree|(scope & name & Hroot & Hs & Hn)]]].
    + unfold ConfigAnalyzer.pkgName. rewrite (split_free _ _ Hfree).
      destruct (JsString.startsWith root "@"); reflexivity.
    + unfold ConfigAnalyzer.pkgName. rewrite (split_free _ _ Hfree).
      destruct (JsString.startsWith root "@"); reflexivity.
    + assert (Hroot_at : JsString.startsWith root "@" = true).
      { assert (Hsrc : exists tail, source = scope +:+ String "/" tail).
        { destruct Hshape as [<-|[rest ->]].
          - exists name. exact Hroot.
          - exists (name +:+ "/" +:+ rest). rewrite Hroot, append_assoc. reflexivity. }
        destruct Hsrc as [tail ->]. rewrite Hroot. unfold JsString.startsWith in *.
        destruct scope as [|c scope].
        - rewrite append_nil_l, prefix_cons in Hat.
          destruct (ascii_dec "@" "/") as [E|_]; [discriminate E|discriminate Hat].
        - change ("/" +:+ name) with (String "/" name).
          rewrite append_cons in Hat. rewrite append_cons.
          rewrite prefix_cons in *.
          destruct (ascii_dec "@" c); [|discriminate Hat].
          destruct (scope +:+ String "/" name); reflexivity. }
      unfold ConfigAnalyzer.pkgName. rewrite Hroot_at, Hroot.
      change (scope +:+ "/" +:+ name) with (scope +:+ String "/" name).
      rewrite (split_append _ _ _ Hs), (split_free _ _ Hn). reflexivity.
  - destruct Hfree as [[Hat Hfree]|[Hat _]].
    + rewrite Hat, (includes_free _ _ Hfree). reflexivity.
    + rewrite Hat. reflexivity.
Qed.

(* ===================================================================== *)
(** * Duplicate file names *)
(* ===================================================================== *)

Section DuplicateGroups.
Variable env : Env.
Variable toLowerCase : string -> string.


Lemma group_file_get (groups : JsMap.t (list string)) file name :
  JsMap.get ((Duplicates.group_file toLowerCase) groups file) name
  = if String.eqb (Duplicates.normalized toLowerCase file) name
    then Some (match JsMap.get groups name with
               | Some fileList => fileList ++ [file]
               | None => [file]
               end)
    else JsMap.get groups name.
Proof.
  unfold Duplicates.group_file.
  destruct (JsMap.has groups (Duplicates.normalized toLowerCase file)) eqn:Ehas; simpl negb; cbv iota.
  - rewrite jsmap_get_update. destruct (String.eqb (Duplicates.normalized toLowerCase file) name) eqn:E;
      [|reflexivity].
    apply String.eqb_eq in E. subst name. unfold JsMap.has in Ehas.
    destruct (JsMap.get groups (Duplicates.normalized toLowerCase file)); [reflexivity|discriminate].
  - rewrite jsmap_get_update, jsmap_get_set.
    destruct (String.eqb (Duplicates.normalized toLowerCase file) name) eqn:E; [|reflexivity].
    apply String.eqb_eq in E. subst name. unfold JsMap.has in Ehas.
    destruct (JsMap.get groups (Duplicates.normalized toLowerCase file)); [discriminate|reflexivity].
Qed.

Lemma group_file_keys (groups : JsMap.t (list string)) file :
  JsMap.keys ((Duplicates.group_file toLowerCase) groups file) = JsSet.add (JsMap.keys groups) (Duplicates.normalized toLowerCase file).
Proof.
  unfold Duplicates.group_file. rewrite jsmap_keys_update.
  destruct (JsMap.has groups (Duplicates.normalized toLowerCase file)) eqn:Ehas; simpl negb; cbv iota.
  - unfold JsSet.add. rewrite jsset_has_keys, Ehas. reflexivity.
  - apply jsmap_keys_set.
Qed.

(** The groups after the first loop. *)
Lemma groups_get (files : list string) : forall (groups : JsMap.t (list string)) name,
  JsMap.get (fold_left (Duplicates.group_file toLowerCase) files groups) name
  = match JsMap.get groups name,
          List.filter (fun file => String.eqb (Duplicates.normalized toLowerCase file) name) files with
    | Some fileList, more => Some (fileList ++ more)
    | None, [] => None
    | None, more => Some more
    end.
Proof.
  induction files as [|file files IH]; intros groups name; simpl.
  - destruct (JsMap.get groups name); [rewrite app_nil_r|]; reflexivity.
  - rewrite IH, group_file_get.
    destruct (String.eqb (Duplicates.normalized toLowerCase file) name); [|reflexivity].
    destruct (JsMap.get groups name) as [fileList|].
    + rewrite <- app_assoc. reflexivity.
    + reflexivity.
Qed.

Lemma groups_keys_NoDup (files : list string) : forall (groups : JsMap.t (list string)),
  List.NoDup (JsMap.keys groups) ->
  List.NoDup (JsMap.keys (fold_left (Duplicates.group_file toLowerCase) files groups)).
Proof.
  induction files as [|file files IH]; intros groups Hnd; simpl; [exact Hnd|].
  apply IH. rewrite group_file_keys. apply jsset_add_NoDup, Hnd.
Qed.

(** The result of the second loop. *)
Lemma keep_group_get (groups : JsMap.t (list string)) :
  forall (duplicates : JsMap.t (list string)) name,
  List.NoDup (JsMap.keys groups) ->
  JsMap.get (fold_left Duplicates.keep_group groups duplicates) name
  = match JsMap.get groups name with
    | Some fileList =>
        if (1 <? length fileList)%nat then Some fileList
        else JsMap.get duplicates name
    | None => JsMap.get duplicates name
    end.
Proof.
  induction groups as [|[k fileList] groups IH]; intros duplicates name Hnd;
    [reflexivity|].
  simpl in Hnd. apply List.NoDup_cons_iff in Hnd. destruct Hnd as [Hk Hnd].
  simpl fold_left. rewrite (IH _ _ Hnd). simpl JsMap.get.
  destruct (String.eqb k name) eqn:E.
  - apply String.eqb_eq in E. subst k.
    apply jsmap_get_none_keys in Hk. rewrite Hk.
    destruct (1 <? length fileList)%nat; [|reflexivity].
    rewrite jsmap_get_set, String.eqb_refl. reflexivity.
  - destruct (JsMap.get groups name) as [fl|];
      [destruct (1 <? length fl)%nat; [reflexivity|]|];
      (destruct (1 <? length fileList)%nat; [|reflexivity]);
      rewrite jsmap_get_set, E; reflexivity.
Qed.

Lemma keep_group_keys_NoDup (groups : JsMap.t (list string)) :
  forall (duplicates : JsMap.t (list string)),
  List.NoDup (JsMap.keys duplicates) ->
  List.NoDup (JsMap.keys (fold_left Duplicates.keep_group groups duplicates)).
Proof.
  induction groups as [|[k fileList] groups IH]; intros duplicates Hnd; [exact Hnd|].
  simpl. apply IH. destruct (1 <? length fileList)%nat; [|exact Hnd].
  rewrite jsmap_keys_set. apply jsset_add_NoDup, Hnd.
Qed.

End DuplicateGroups.

Lemma getFiles_NoDup (env : Env) targetPath patterns exclude files :
  FileUtils.getFiles env targetPath patterns exclude = Ret files -> List.NoDup files.
Proof.
  unfold FileUtils.getFiles.
  destruct (FileUtils.glob_all env targetPath patterns exclude) as [all|e];
    simpl; [|discriminate].
  intros [= <-]. apply jsset_fold_add_NoDup. constructor.
Qed.

(** X15. [findDuplicates] returns, under each name, all the files whose
    lower-cased base name without a source extension is that name, in
    the order of the file list, and it has an entry for a name exactly
    when there are at least two such files.  No name is listed twice and
    no file is listed twice under a name. *)
Theorem duplicates_characterised (env : Env) (toLowerCase : string -> string)
    (targetPath : string) (files : list string) :
  FileUtils.getFiles env targetPath FileUtils.default_patterns FileUtils.default_exclude
    = Ret files ->
  exists duplicates,
    Duplicates.findDuplicates env toLowerCase targetPath = Ret duplicates
    /\ List.NoDup (JsMap.keys duplicates)
    /\ (forall name fileList,
           JsMap.get duplicates name = Some fileList <->
           fileList = List.filter
                        (fun file =>
                           String.eqb (Duplicates.normalized toLowerCase file) name)
                        files
           /\ 2 <= length fileList)
    /\ (forall name fileList,
           JsMap.get duplicates name = Some fileList -> List.NoDup fileList).
Proof.
  intros Hfiles. unfold Duplicates.findDuplicates. rewrite Hfiles. simpl res_bind.
  eexists. split; [reflexivity|].
  assert (Hgroups : List.NoDup
            (JsMap.keys (fold_left (Duplicates.group_file toLowerCase) files
                           JsMap.empty))).
  { apply groups_keys_NoDup. constructor. }
  assert (Hchar : forall name fileList,
    JsMap.get (fold_left Duplicates.keep_group
                 (fold_left (Duplicates.group_file toLowerCase) files JsMap.empty)
                 JsMap.empty) name = Some fileList <->
    fileList = List.filter
                 (fun file => String.eqb (Duplicates.normalized toLowerCase file) name)
                 files
    /\ 2 <= length fileList).
  { intros name fileList. rewrite (keep_group_get _ _ _ Hgroups), groups_get.
    simpl JsMap.get.
    destruct (List.filter _ files) as [|x more] eqn:Ef.
    - split; [discriminate|]. intros [-> Hlen]. simpl in Hlen. lia.
    - destruct (1 <? length (x :: more))%nat eqn:El.
      + apply Nat.ltb_lt in El. split.
        * intros [= <-]. split; [reflexivity|lia].
        * intros [-> _]. reflexivity.
      + apply Nat.ltb_ge in El. split; [discriminate|]. intros [-> Hlen]. lia. }
  split; [|split].
  - apply keep_group_keys_NoDup. constructor.
  - exact Hchar.
  - intros name fileList Hget. apply Hchar in Hget. destruct Hget as [-> _].
    apply List.NoDup_filter. exact (getFiles_NoDup _ _ _ _ _ Hfiles).
Qed.

Lemma duplicates_characterised_witness :
  exists duplicates,
    Duplicates.findDuplicates DuplicateSample.project JsString.toLowerCase "/p"
      = Ret duplicates
    /\ List.NoDup (JsMap.keys duplicates)
    /\ (forall name fileList,
           JsMap.get duplicates name = Some fileList <->
           fileList = List.filter
                        (fun file =>
                           String.eqb
                             (Duplicates.normalized JsString.toLowerCase file) name)
                        ["/p/src/Button.tsx"; "/p/lib/button.js"; "/p/src/Card.tsx"]
           /\ 2 <= length fileList)
    /\ (forall name fileList,
           JsMap.get duplicates name = Some fileList -> List.NoDup fileList).
Proof.
  apply (duplicates_characterised DuplicateSample.project JsString.toLowerCase "/p"
           ["/p/src/Button.tsx"; "/p/lib/button.js"; "/p/src/Card.tsx"]).
  vm_compute. reflexivity.
Defined.

(** ** The name a file is grouped under *)

Lemma split_where_nonempty sep s : Duplicates.split_where sep s <> [].
Proof.
  destruct s as [|c t]; simpl; [discriminate|].
  destruct (sep c); [discriminate|].
  destruct (Duplicates.split_where sep t); discriminate.
Qed.

Lemma split_where_segment sep s :
  segment sep s -> Duplicates.split_where sep s = [s].
Proof.
  unfold segment. induction s as [|c t IH]; simpl; [reflexivity|].
  rewrite andb_true_iff, negb_true_iff. intros [Hc Ht]. rewrite Hc, (IH Ht).
  reflexivity.
Qed.

Lemma last_cons_nonempty {A} (x : A) (l : list A) d :
  l <> [] -> List.last (x :: l) d = List.last l d.
Proof. destruct l; [congruence|reflexivity]. Qed.

Lemma split_where_last sep dir c seg :
  sep c = true -> segment sep seg ->
  List.last (Duplicates.split_where sep (dir +:+ String c seg)) "" = seg.
Proof.
  intros Hc Hseg. induction dir as [|x dir IH].
  - rewrite append_nil_l. simpl Duplicates.split_where. rewrite Hc.
    rewrite (split_where_segment _ _ Hseg). reflexivity.
  - rewrite append_cons. simpl Duplicates.split_where.
    destruct (sep x).
    + rewrite last_cons_nonempty; [exact IH|apply split_where_nonempty].
    + destruct (Duplicates.split_where sep (dir +:+ String c seg)) as [|h r] eqn:Es;
        [exfalso; exact (split_where_nonempty _ _ Es)|].
      destruct r as [|q r].
      * simpl in IH. subst h. exfalso.
        assert (Hlen : length (Duplicates.split_where sep (dir +:+ String c seg)) >= 2).
        { clear -Hc. induction dir as [|y dir IH].
          - rewrite append_nil_l. simpl. rewrite Hc. simpl.
            pose proof (split_where_nonempty sep seg).
            destruct (Duplicates.split_where sep seg); [congruence|simpl; lia].
          - rewrite append_cons. simpl. destruct (sep y); [simpl; lia|].
            destruct (Duplicates.split_where sep (dir +:+ String c seg));
              simpl in *; lia. }
        rewrite Es in Hlen. simpl in Hlen. lia.
      * exact IH.
Qed.

Lemma endsWith_cons c s p :
  JsString.endsWith (String c s) p = String.eqb (String c s) p || JsString.endsWith s p.
Proof. reflexivity. Qed.

Lemma eqb_length (a b : string) : String.eqb a b = true -> String.length a = String.length b.
Proof. intros H. apply String.eqb_eq in H. congruence. Qed.

Lemma length_append (a b : string) :
  String.length (a +:+ b) = String.length a + String.length b.
Proof.
  induction a as [|c a IH]; [reflexivity|]. rewrite append_cons. simpl. rewrite IH.
  reflexivity.
Qed.

(** A suffix test looks at the end of the string only. *)
Lemma endsWith_append (a b p : string) :
  String.length p <= String.length b ->
  JsString.endsWith (a +:+ b) p = JsString.endsWith b p.
Proof.
  intros Hlen. induction a as [|c a IH]; [reflexivity|].
  rewrite append_cons, endsWith_cons, IH.
  destruct (String.eqb (String c (a +:+ b)) p) eqn:E; [|reflexivity].
  apply eqb_length in E. simpl in E. rewrite length_append in E. lia.
Qed.

Lemma endsWith_length (s p : string) :
  JsString.endsWith s p = true -> String.length p <= String.length s.
Proof.
  induction s as [|c s IH].
  - simpl. rewrite orb_false_r. destruct p; [simpl; lia|discriminate].
  - rewrite endsWith_cons, orb_true_iff. intros [H|H].
    + apply eqb_length in H. lia.
    + apply IH in H. simpl. lia.
Qed.

Lemma endsWith_refl (s : string) : JsString.endsWith s s = true.
Proof.
  destruct s as [|c s]; [reflexivity|]. rewrite endsWith_cons, String.eqb_refl.
  reflexivity.
Qed.

(** Of two suffixes of a string, the shorter is a suffix of the longer. *)
Lemma endsWith_longer (a b p : string) :
  String.length b < String.length p ->
  JsString.endsWith p b = false ->
  JsString.endsWith (a +:+ b) p = false.
Proof.
  intros Hlen Hnot. induction a as [|c a IH].
  - rewrite append_nil_l. destruct (JsString.endsWith b p) eqn:E; [|reflexivity].
    apply endsWith_length in E. lia.
  - rewrite append_cons, endsWith_cons, IH, orb_false_r.
    destruct (String.eqb (String c (a +:+ b)) p) eqn:E; [|reflexivity].
    apply String.eqb_eq in E. subst p. rewrite <- append_cons in Hnot.
    rewrite endsWith_append, endsWith_refl in Hnot by lia. discriminate.
Qed.

Lemma substring_append (a b : string) :
  substring 0 (String.length a) (a +:+ b) = a.
Proof.
  induction a as [|c a IH].
  - rewrite append_nil_l. destruct b; reflexivity.
  - rewrite append_cons. simpl. rewrite IH. reflexivity.
Qed.

Lemma strip_known_extension (name ext : string) :
  In ext Duplicates.source_extensions ->
  Duplicates.strip_extension (name +:+ "." +:+ ext) = name.
Proof.
  intros Hext. unfold Duplicates.strip_extension.
  assert (Hfind : find (fun e => JsString.endsWith (name +:+ "." +:+ ext) ("." +:+ e))
                    Duplicates.source_extensions = Some ext).
  { unfold Duplicates.source_extensions in *. simpl in Hext.
    destruct Hext as [<-|[<-|[<-|[<-|[<-|[<-|[]]]]]]]; simpl find;
      repeat first [ rewrite endsWith_append by (simpl; lia)
                   | rewrite endsWith_longer by (simpl; first [lia|reflexivity]) ];
      reflexivity. }
  rewrite Hfind. rewrite !length_append.
  replace (String.length name + (String.length "." + String.length ext)
           - String.length ext - 1) with (String.length name) by (simpl; lia).
  apply substring_append.
Qed.

(** X16. The name a file is grouped under: for a path that ends in a
    separator, slash or backslash, followed by [name.ext], where [name]
    holds no separator and [ext] is one of js, jsx, ts, tsx, py, go, the
    name is the lower-cased [name]; the directory and the extension play
    no part. *)
Theorem grouped_by_stem (toLowerCase : string -> string)
    (dir name ext : string) (sep : ascii) :
  Duplicates.is_separator sep = true ->
  segment Duplicates.is_separator name ->
  In ext Duplicates.source_extensions ->
  Duplicates.normalized toLowerCase (dir +:+ String sep (name +:+ "." +:+ ext))
  = toLowerCase name.
Proof.
  intros Hsep Hname Hext. unfold Duplicates.normalized, Duplicates.basename_of.
  rewrite split_where_last.
  - rewrite (strip_known_extension _ _ Hext). reflexivity.
  - exact Hsep.
  - unfold segment in *. clear Hsep.
    assert (Hrest : forallb (fun c => negb (Duplicates.is_separator c))
                      (list_ascii_of_string ("." +:+ ext)) = true).
    { unfold Duplicates.source_extensions in Hext. simpl in Hext.
      destruct Hext as [<-|[<-|[<-|[<-|[<-|[<-|[]]]]]]]; reflexivity. }
    induction name as [|c name IH].
    + rewrite append_nil_l. exact Hrest.
    + rewrite append_cons. simpl in *. apply andb_true_iff in Hname.
      destruct Hname as [Hc Hname]. rewrite Hc. exact (IH Hname).
Qed.

Lemma grouped_by_stem_witness :
  Duplicates.normalized JsString.toLowerCase ("/p/src" +:+ String "/" ("Button" +:+ "." +:+ "tsx"))
  = JsString.toLowerCase "Button".
Proof.
  apply (grouped_by_stem JsString.toLowerCase "/p/src" "Button" "tsx" "/").
  - reflexivity.
  - reflexivity.
  - simpl. auto 10.
Defined.

(* ===================================================================== *)
(** * Conflicting configuration files *)
(* ===================================================================== *)




(* ===================================================================== *)
(** * Stale components *)
(* ===================================================================== *)

(** In the graph of a duplicate-free file list a node's [importedBy] is
    empty exactly when no import of any file resolves to it. *)
Lemma never_imported_iff (env : Env) targetPath (files : list string) f node :
  NoDup files ->
  JsMap.get (fst (GraphBuilder.build env targetPath (Some files) GraphBuilder.new)) f
    = Some node ->
  importedBy node = [] <->
  forall a, In a files -> ~ In f (resolved_imports env files a).
Proof.
  intros Hnd Hnode.
  destruct (build_nodes env targetPath files) as (_ & _ & Hkeys & Hget & _).
  set (nodes := fst (GraphBuilder.build env targetPath (Some files) GraphBuilder.new))
    in *.
  unfold GraphBuilder.getNode in Hget.
  assert (Hsome : forall a, In a files -> exists na, JsMap.get nodes a = Some na).
  { intros a Ha. apply Hget in Ha. destruct (JsMap.get nodes a); [eauto|congruence]. }
  split.
  - intros Hby a Ha Hres. destruct (Hsome a Ha) as [na Hna].
    pose proof (build_imports env targetPath files a na Hnd Hna) as Himp.
    pose proof (build_balanced env targetPath (Some files) a f na node Hna Hnode) as Hbal.
    rewrite Hby in Hbal. simpl in Hbal. rewrite <- Himp in Hres.
    apply (count_occ_In string_dec) in Hres. lia.
  - intros Hnone. destruct (importedBy node) as [|a l] eqn:Eby; [reflexivity|].
    exfalso.
    destruct (graph_closure_helper env targetPath files f a node) as [na Hna].
    + exact Hnode.
    + rewrite Eby. left. reflexivity.
    + fold nodes in Hna.
      assert (Ha : In a files) by (apply Hget; congruence).
      pose proof (build_imports env targetPath files a na Hnd Hna) as Himp.
      pose proof (build_balanced env targetPath (Some files) a f na node Hna Hnode)
        as Hbal.
      rewrite Eby in Hbal. simpl in Hbal.
      destruct (string_dec a a) as [_|Hne]; [|congruence].
      apply (Hnone a Ha). rewrite <- Himp.
      apply (count_occ_In string_dec). lia.
Qed.

Lemma build_default (env : Env) targetPath allFiles :
  FileUtils.getFiles env targetPath FileUtils.default_patterns FileUtils.default_exclude
    = Ret allFiles ->
  GraphBuilder.build env targetPath None GraphBuilder.new
  = GraphBuilder.build env targetPath (Some allFiles) GraphBuilder.new.
Proof.
  intros Hfiles.
  destruct (build_cases env targetPath None)
    as [[_ (e & He & _)]|(l & [[=]|[_ Hl]] & Hrun)]; [congruence|].
  destruct (build_cases env targetPath (Some allFiles))
    as [[[=] _]|(l' & [[= <-]|[[=] _]] & Hrun')].
  rewrite Hrun, Hrun'. congruence.
Qed.

(** X18. [findStaleComponents] throws only when a file search throws.
    Otherwise an entry is returned exactly for a file that both the
    component patterns and the default patterns match, with the reason
    [Component never imported] when no import of a file matched by the
    default patterns resolves to it, and with the reason [Stale component
    name] when its name is stale; a file that is both has two entries. *)
Theorem stale_components_characterised (env : Env) (targetPath : string)
    (files allFiles : list string) :
  FileUtils.getFiles env targetPath StaleComponents.componentPatterns
    FileUtils.default_exclude = Ret files ->
  FileUtils.getFiles env targetPath FileUtils.default_patterns FileUtils.default_exclude
    = Ret allFiles ->
  exists staleComponents,
    StaleComponents.findStaleComponents env targetPath = Ret staleComponents
    /\ forall file reason,
         In {| uf_path := file; uf_reason := reason |} staleComponents <->
         In file files /\ In file allFiles
         /\ ((reason = "Component never imported"
              /\ forall a, In a allFiles -> ~ In file (resolved_imports env allFiles a))
             \/ (reason = "Stale component name"
                 /\ FileUtils.isStaleFilename env file = true)).
Proof.
  intros Hfiles Hall. unfold StaleComponents.findStaleComponents.
  rewrite Hfiles. simpl res_bind. rewrite (build_default _ _ _ Hall).
  destruct (build_nodes env targetPath allFiles) as (Hret & _ & _ & Hget & _).
  cbv zeta in Hret.
  pose proof (never_imported_iff env targetPath allFiles) as Hnever.
  assert (Hnd : NoDup allFiles).
  { apply NoDup_ListNoDup. exact (getFiles_NoDup _ _ _ _ _ Hall). }
  destruct (GraphBuilder.build env targetPath (Some allFiles) GraphBuilder.new)
    as [nodes r]. simpl in Hret, Hget, Hnever. subst r.
  eexists. split; [reflexivity|]. intros file reason.
  rewrite in_flat_map. unfold StaleComponents.check_component. split.
  - intros (x & Hx & Hin). unfold GraphBuilder.getNode in *.
    destruct (JsMap.get nodes x) as [node|] eqn:Enode; [|contradiction].
    apply in_app_iff in Hin. destruct Hin as [Hin|Hin].
    + destruct (length (importedBy node) =? 0)%nat eqn:El; [|contradiction].
      destruct Hin as [[= <- <-]|[]]. split; [exact Hx|].
      split; [apply Hget; congruence|]. left. split; [reflexivity|].
      apply (Hnever x node Hnd Enode). apply Nat.eqb_eq in El.
      destruct (importedBy node); [reflexivity|discriminate].
    + destruct (FileUtils.isStaleFilename env x) eqn:Es; [|contradiction].
      destruct Hin as [[= <- <-]|[]]. split; [exact Hx|].
      split; [apply Hget; congruence|]. right. auto.
  - intros (Hf & Hall' & Hreason). exists file. split; [exact Hf|].
    apply Hget in Hall'. unfold GraphBuilder.getNode in *.
    destruct (JsMap.get nodes file) as [node|] eqn:Enode; [|congruence].
    apply in_app_iff. destruct Hreason as [[-> Hno]|[-> Hstale]].
    + left. apply (Hnever file node Hnd Enode) in Hno. rewrite Hno. left. reflexivity.
    + right. rewrite Hstale. left. reflexivity.
Qed.

Lemma stale_components_characterised_witness :
  exists staleComponents,
    StaleComponents.findStaleComponents DuplicateSample.project "/p"
      = Ret staleComponents
    /\ forall file reason,
         In {| uf_path := file; uf_reason := reason |} staleComponents <->
         In file ["/p/src/Button.tsx"; "/p/lib/button.js"; "/p/src/Card.tsx"]
         /\ In file ["/p/src/Button.tsx"; "/p/lib/button.js"; "/p/src/Card.tsx"]
         /\ ((reason = "Component never imported"
              /\ forall a,
                   In a ["/p/src/Button.tsx"; "/p/lib/button.js"; "/p/src/Card.tsx"] ->
                   ~ In file
                       (resolved_imports DuplicateSample.project
                          ["/p/src/Button.tsx"; "/p/lib/button.js"; "/p/src/Card.tsx"]
                          a))
             \/ (reason = "Stale component name"
                 /\ FileUtils.isStaleFilename DuplicateSample.project file = true)).
Proof.
  apply (stale_components_characterised DuplicateSample.project "/p"
           ["/p/src/Button.tsx"; "/p/lib/button.js"; "/p/src/Card.tsx"]
           ["/p/src/Button.tsx"; "/p/lib/button.js"; "/p/src/Card.tsx"]).
  - vm_compute. reflexivity.
  - vm_compute. reflexivity.
Defined.

(* ===================================================================== *)
(** * The full scan *)
(* ===================================================================== *)

Lemma findUnusedFiles_returns (env : Env) targetPath candidates :
  FileUtils.getFiles env targetPath ["**/*.{js,jsx,ts,tsx,vue,svelte}"]
    FileUtils.default_exclude = Ret candidates ->
  StaleDetector.findUnusedFiles env targetPath
  = Ret (map (StaleDetector.classify env)
           (GraphBuilder.getUnusedFiles (built env targetPath candidates)
              StaleDetector.entryPoints)).
Proof.
  intros Hfiles. unfold StaleDetector.findUnusedFiles. rewrite Hfiles. simpl res_bind.
  destruct (build_cases env targetPath (Some candidates))
    as [[[=] _]|(l & [[= <-]|[[=] _]] & Hrun)].
  rewrite Hrun. reflexivity.
Qed.

Lemma analyzePackageJson_returns (env : Env) targetPath sources :
  FileUtils.getFiles env targetPath ["**/*.{js,jsx,ts,tsx}"] FileUtils.default_exclude
    = Ret sources ->
  exists analysis, ConfigAnalyzer.analyzePackageJson env targetPath = Ret analysis.
Proof.
  intros Hfiles.
  destruct (FileUtils.getPackageJson env targetPath) as [pkg|] eqn:Epkg.
  - eexists. apply (analyzePackageJson_eq env targetPath pkg sources Epkg Hfiles).
  - eexists. unfold ConfigAnalyzer.analyzePackageJson. rewrite Epkg. reflexivity.
Qed.

(** X19. The scan returns a report exactly when the three file searches
    it makes return: no file that cannot be read or parsed and no missing
    or broken manifest makes it throw.  The report counts the files of
    the default patterns, holds the unused imports and the dead code of
    the script files one file after the other, the unused files of the
    graph over the script and component files, and the unused
    dependencies followed by the missing ones. *)
Theorem scan_report (env : Env) (now : nat) (targetPath : string) :
  let all := FileUtils.getFiles env targetPath FileUtils.default_patterns
               FileUtils.default_exclude in
  let scripts := FileUtils.getFiles env targetPath ["**/*.{js,jsx,ts,tsx}"]
                   FileUtils.default_exclude in
  let candidates := FileUtils.getFiles env targetPath
                      ["**/*.{js,jsx,ts,tsx,vue,svelte}"] FileUtils.default_exclude in
  ((exists report, Scanner.scan env now targetPath = Ret report) <->
   (exists files sources graphFiles,
       all = Ret files /\ scripts = Ret sources /\ candidates = Ret graphFiles))
  /\ forall report files sources graphFiles,
       Scanner.scan env now targetPath = Ret report ->
       all = Ret files -> scripts = Ret sources -> candidates = Ret graphFiles ->
       scannedFiles report = length files
       /\ timestamp report = now
       /\ unusedImports report
          = flat_map (fun file => ret_or_nil (UnusedFinder.findInFile env file)) sources
       /\ deadCode report
          = flat_map (fun file => ret_or_nil (DeadCodeDetector.detectInFile env file))
              sources
       /\ map uf_path (unusedFiles report)
          = GraphBuilder.getUnusedFiles
              (fst (GraphBuilder.build env targetPath (Some graphFiles) GraphBuilder.new))
              StaleDetector.entryPoints
       /\ exists analysis,
            ConfigAnalyzer.analyzePackageJson env targetPath = Ret analysis
            /\ dependencyIssues report
               = unusedDependencies analysis ++ missingDependencies analysis.
Proof.
  cbv zeta. unfold Scanner.scan, UnusedFinder.findInProject,
    DeadCodeDetector.detectInProject.
  destruct (FileUtils.getFiles env targetPath FileUtils.default_patterns
              FileUtils.default_exclude) as [files|e] eqn:Eall; simpl res_bind.
  2:{ split.
      - split; [intros [report [=]]|intros (? & ? & ? & [=] & _)].
      - intros report ? ? ? [=]. }
  destruct (FileUtils.getFiles env targetPath ["**/*.{js,jsx,ts,tsx}"]
              FileUtils.default_exclude) as [sources|e] eqn:Esrc; simpl res_bind.
  2:{ split.
      - split; [intros [report [=]]|intros (? & ? & ? & _ & [=] & _)].
      - intros report ? ? ? [=]. }
  rewrite findInFiles_eq, detectInFiles_eq. simpl res_bind.
  destruct (FileUtils.getFiles env targetPath ["**/*.{js,jsx,ts,tsx,vue,svelte}"]
              FileUtils.default_exclude) as [graphFiles|e] eqn:Egraph.
  2:{ unfold StaleDetector.findUnusedFiles. rewrite Egraph. simpl res_bind. split.
      - split; [intros [report [=]]|intros (? & ? & ? & _ & _ & [=])].
      - intros report ? ? ? [=]. }
  rewrite (findUnusedFiles_returns env targetPath graphFiles Egraph). simpl res_bind.
  destruct (analyzePackageJson_returns env targetPath sources Esrc) as [analysis Ha].
  rewrite Ha. simpl res_bind. split.
  - split; [|eauto]. intros _. exists files, sources, graphFiles. auto.
  - intros report files' sources' graphFiles' [= <-] [= <-] [= <-] [= <-]. simpl.
    repeat split.
    + rewrite map_map. simpl. rewrite map_id.
      destruct (build_cases env targetPath (Some graphFiles))
        as [[[=] _]|(l & [[= <-]|[[=] _]] & Hrun)].
      rewrite Hrun. reflexivity.
    + exists analysis. split; reflexivity.
Qed.

(* ===================================================================== *)
(** * Fixer: removing files *)
(* ===================================================================== *)

Section RemoveFiles.
Variable writable : string -> bool.

Lemma remove_file_effect (file : string) (s : Fixer.Run) :
  Fixer.remove_file writable file s
  = match Fixer.disk s !! file with
    | Some _ =>
        if writable file
        then ({| Fixer.disk := delete file (Fixer.disk s);
                 Fixer.counter := S (Fixer.counter s) |}, Ret tt)
        else (s, Ret tt)
    | None => (s, Ret tt)
    end.
Proof.
  unfold Fixer.remove_file, try_catch, mbind, Fixer.fs_unlink, Fixer.get_counter,
    Fixer.set_counter, mmodify.
  destruct (Fixer.disk s !! file); [|reflexivity].
  destruct (writable file); reflexivity.
Qed.

Lemma remove_files_effect (paths : list string) : forall s : Fixer.Run,
  exists s',
    for_of paths (Fixer.remove_file writable) s = (s', Ret tt)
    /\ (forall p, In p paths -> writable p = true -> Fixer.disk s' !! p = None)
    /\ (forall p, ~ In p paths \/ writable p = false ->
                  Fixer.disk s' !! p = Fixer.disk s !! p)
    /\ Fixer.counter s' + size (Fixer.disk s') = Fixer.counter s + size (Fixer.disk s).
Proof.
  induction paths as [|x paths IH]; intros s.
  - exists s. simpl. split; [reflexivity|]. split; [intros p []|].
    split; reflexivity.
  - rewrite for_of_cons, remove_file_effect.
    assert (Hstep : exists s1,
      match Fixer.disk s !! x with
      | Some _ =>
          if writable x
          then ({| Fixer.disk := delete x (Fixer.disk s);
                   Fixer.counter := S (Fixer.counter s) |}, Ret tt)
          else (s, Ret tt)
      | None => (s, Ret tt)
      end = (s1, Ret tt)
      /\ (writable x = true -> Fixer.disk s1 !! x = None)
      /\ (forall p, p <> x \/ writable p = false ->
                    Fixer.disk s1 !! p = Fixer.disk s !! p)
      /\ Fixer.counter s1 + size (Fixer.disk s1)
         = Fixer.counter s + size (Fixer.disk s)).
    { destruct (Fixer.disk s !! x) as [content|] eqn:Ex.
      - destruct (writable x) eqn:Ew.
        + eexists. split; [reflexivity|]. cbn [Fixer.disk Fixer.counter].
          split; [|split].
          * intros _. apply lookup_delete_eq.
          * intros p [Hp|Hp]; [apply lookup_delete_ne; congruence|].
            destruct (string_dec x p) as [->|Hne]; [congruence|].
            apply lookup_delete_ne, Hne.
          * rewrite map_size_delete, Ex.
            assert (size (Fixer.disk s) <> 0).
            { apply map_size_non_empty_iff. intros Hempty. rewrite Hempty in Ex.
              rewrite lookup_empty in Ex. discriminate. }
            cbn [Init.Nat.pred]. lia.
        + exists s. split; [reflexivity|]. split; [intros [=]|].
          split; reflexivity.
      - exists s. split; [reflexivity|]. split; [intros _; exact Ex|].
        split; reflexivity. }
    destruct Hstep as (s1 & -> & Hx & Hother & Hsize).
    destruct (IH s1) as (s' & Hrun & Hgone & Hkept & Hsize').
    exists s'. split; [exact Hrun|]. split; [|split].
    + intros p Hp Hw. destruct (in_dec string_dec p paths) as [Hin|Hnot].
      * apply Hgone; assumption.
      * destruct Hp as [->|Hp]; [|contradiction].
        rewrite (Hkept p (or_introl Hnot)). apply Hx, Hw.
    + intros p Hp. rewrite Hkept, Hother; [reflexivity| |].
      * destruct Hp as [Hp|Hp]; [left|right; exact Hp].
        intros ->. apply Hp. left. reflexivity.
      * destruct Hp as [Hp|Hp]; [left|right; exact Hp].
        intros Hin. apply Hp. right. exact Hin.
    + lia.
Qed.

End RemoveFiles.

(** X20. [removeUnusedFiles] never throws.  Afterwards every listed path
    on which unlinking is permitted is gone, every other path holds what it
    held, and the number returned is the number of files that went away:
    a path listed twice or a path that was not there is not counted. *)
Theorem removed_files_counted (writable : string -> bool) (paths : list string)
    (files : Fixer.Disk) :
  exists removed,
    snd (Fixer.removeUnusedFiles writable paths files) = Ret removed
    /\ (forall p, In p paths -> writable p = true ->
                  fst (Fixer.removeUnusedFiles writable paths files) !! p = None)
    /\ (forall p, ~ In p paths \/ writable p = false ->
                  fst (Fixer.removeUnusedFiles writable paths files) !! p = files !! p)
    /\ removed + size (fst (Fixer.removeUnusedFiles writable paths files)) = size files.
Proof.
  unfold Fixer.removeUnusedFiles.
  destruct (remove_files_effect writable paths
              {| Fixer.disk := files; Fixer.counter := 0 |})
    as (s' & -> & Hgone & Hkept & Hsize).
  exists (Fixer.counter s'). simpl in *. auto.
Qed.

(* ===================================================================== *)
(** * Fixer: grouping and sorting *)
(* ===================================================================== *)

Section Grouping.
Context {A : Type}.
Variable file : A -> string.

Lemma group_item_get (byFile : JsMap.t (list A)) x name :
  JsMap.get (Fixer.group_item file byFile x) name
  = if String.eqb (file x) name
    then Some (match JsMap.get byFile name with
               | Some items => items ++ [x]
               | None => [x]
               end)
    else JsMap.get byFile name.
Proof.
  unfold Fixer.group_item.
  destruct (JsMap.has byFile (file x)) eqn:Ehas; simpl negb; cbv iota.
  - rewrite jsmap_get_update. destruct (String.eqb (file x) name) eqn:E; [|reflexivity].
    apply String.eqb_eq in E. subst name. unfold JsMap.has in Ehas.
    destruct (JsMap.get byFile (file x)); [reflexivity|discriminate].
  - rewrite jsmap_get_update, jsmap_get_set.
    destruct (String.eqb (file x) name) eqn:E; [|reflexivity].
    apply String.eqb_eq in E. subst name. unfold JsMap.has in Ehas.
    destruct (JsMap.get byFile (file x)); [discriminate|reflexivity].
Qed.

Lemma group_item_keys (byFile : JsMap.t (list A)) x :
  JsMap.keys (Fixer.group_item file byFile x) = JsSet.add (JsMap.keys byFile) (file x).
Proof.
  unfold Fixer.group_item. rewrite jsmap_keys_update.
  destruct (JsMap.has byFile (file x)) eqn:Ehas; simpl negb; cbv iota.
  - unfold JsSet.add. rewrite jsset_has_keys, Ehas. reflexivity.
  - apply jsmap_keys_set.
Qed.

Lemma group_fold_get (items : list A) : forall (byFile : JsMap.t (list A)) name,
  JsMap.get (fold_left (Fixer.group_item file) items byFile) name
  = match JsMap.get byFile name,
          List.filter (fun x => String.eqb (file x) name) items with
    | Some before, more => Some (before ++ more)
    | None, [] => None
    | None, more => Some more
    end.
Proof.
  induction items as [|x items IH]; intros byFile name; simpl.
  - destruct (JsMap.get byFile name); [rewrite app_nil_r|]; reflexivity.
  - rewrite IH, group_item_get.
    destruct (String.eqb (file x) name); [|reflexivity].
    destruct (JsMap.get byFile name) as [before|].
    + rewrite <- app_assoc. reflexivity.
    + reflexivity.
Qed.

Lemma group_fold_keys_NoDup (items : list A) : forall (byFile : JsMap.t (list A)),
  List.NoDup (JsMap.keys byFile) ->
  List.NoDup (JsMap.keys (fold_left (Fixer.group_item file) items byFile)).
Proof.
  induction items as [|x items IH]; intros byFile Hnd; simpl; [exact Hnd|].
  apply IH. rewrite group_item_keys. apply jsset_add_NoDup, Hnd.
Qed.

(** The groups of [group_by_file]. *)
Lemma group_by_file_get (items : list A) name :
  JsMap.get (Fixer.group_by_file file items) name
  = match List.filter (fun x => String.eqb (file x) name) items with
    | [] => None
    | more => Some more
    end.
Proof. unfold Fixer.group_by_file. rewrite group_fold_get. reflexivity. Qed.

Lemma group_by_file_NoDup (items : list A) :
  List.NoDup (JsMap.keys (Fixer.group_by_file file items)).
Proof. apply group_fold_keys_NoDup. constructor. Qed.

Lemma group_by_file_entry (items : list A) name group :
  In (name, group) (Fixer.group_by_file file items) ->
  group = List.filter (fun x => String.eqb (file x) name) items.
Proof.
  intros Hin. apply (jsmap_in_get _ _ _ (group_by_file_NoDup items)) in Hin.
  rewrite group_by_file_get in Hin.
  destruct (List.filter _ items); [discriminate|]. congruence.
Qed.

(** Counting over the groups is counting over the items. *)
Lemma group_item_nil x : Fixer.group_item file [] x = [(file x, [x])].
Proof.
  unfold Fixer.group_item, JsMap.update. simpl. rewrite String.eqb_refl. simpl.
  rewrite ?String.eqb_refl. reflexivity.
Qed.

Lemma group_item_cons k v (byFile : JsMap.t (list A)) x :
  Fixer.group_item file ((k, v) :: byFile) x
  = if String.eqb k (file x) then (k, v ++ [x]) :: byFile
    else (k, v) :: Fixer.group_item file byFile x.
Proof.
  unfold Fixer.group_item, JsMap.has, JsMap.update. simpl JsMap.get.
  destruct (String.eqb k (file x)) eqn:E.
  - simpl. rewrite ?E. simpl. rewrite ?E. reflexivity.
  - destruct (JsMap.get byFile (file x)) as [before|] eqn:G; simpl.
    + rewrite ?E, ?G. simpl. rewrite ?E. reflexivity.
    + rewrite ?E. simpl. rewrite ?E. rewrite jsmap_get_set, String.eqb_refl.
      simpl. rewrite ?E. reflexivity.
Qed.

Lemma group_item_count (P : A -> bool) (byFile : JsMap.t (list A)) x :
  list_sum (map (fun e => length (List.filter P (snd e)))
              (Fixer.group_item file byFile x))
  = list_sum (map (fun e => length (List.filter P (snd e))) byFile)
    + (if P x then 1 else 0).
Proof.
  induction byFile as [|[k v] byFile IH].
  - rewrite group_item_nil. simpl. destruct (P x); simpl; lia.
  - rewrite group_item_cons. destruct (String.eqb k (file x)).
    + simpl. rewrite List.filter_app, length_app. simpl.
      destruct (P x); simpl; lia.
    + simpl. rewrite IH. lia.
Qed.

Lemma group_by_file_count (P : A -> bool) (items : list A) :
  list_sum (map (fun e => length (List.filter P (snd e)))
              (Fixer.group_by_file file items))
  = length (List.filter P items).
Proof.
  unfold Fixer.group_by_file.
  assert (H : forall byFile,
    list_sum (map (fun e => length (List.filter P (snd e)))
                (fold_left (Fixer.group_item file) items byFile))
    = list_sum (map (fun e => length (List.filter P (snd e))) byFile)
      + length (List.filter P items)).
  { induction items as [|x items IH]; intros byFile; simpl; [lia|].
    rewrite IH, group_item_count. destruct (P x); simpl; lia. }
  rewrite H. reflexivity.
Qed.

End Grouping.

Section Sorting.
Context {A : Type}.
Variable line : A -> nat.

Lemma insert_desc_perm x (sorted : list A) :
  Permutation (Fixer.insert_desc line x sorted) (x :: sorted).
Proof.
  induction sorted as [|y sorted IH]; simpl; [reflexivity|].
  destruct (line y <=? line x)%nat; [reflexivity|].
  rewrite IH. apply perm_swap.
Qed.

Lemma sort_desc_perm (items : list A) : Permutation (Fixer.sort_desc line items) items.
Proof.
  induction items as [|x items IH]; simpl; [reflexivity|].
  rewrite insert_desc_perm, IH. reflexivity.
Qed.

Lemma insert_desc_descending x (sorted : list A) :
  Fixer.descending line sorted ->
  ~ In (line x) (map line sorted) ->
  Fixer.descending line (Fixer.insert_desc line x sorted).
Proof.
  induction sorted as [|y sorted IH]; simpl; intros Hdesc Hnew.
  - split; [intros y []|exact I].
  - destruct Hdesc as [Hy Hdesc].
    destruct (line y <=? line x)%nat eqn:E.
    + apply Nat.leb_le in E. simpl. split; [|split; assumption].
      intros z [<-|Hz]; [lia|]. specialize (Hy z Hz). lia.
    + apply Nat.leb_gt in E. simpl. split.
      * intros z Hz. apply (Permutation_in _ (insert_desc_perm x sorted)) in Hz.
        destruct Hz as [<-|Hz]; [exact E|exact (Hy z Hz)].
      * apply IH; [exact Hdesc|]. intros Hin. apply Hnew. right. exact Hin.
Qed.

(** With one item per line, the sorted items go strictly down. *)
Lemma sort_desc_descending (items : list A) :
  List.NoDup (map line items) -> Fixer.descending line (Fixer.sort_desc line items).
Proof.
  induction items as [|x items IH]; simpl; intros Hnd; [exact I|].
  apply List.NoDup_cons_iff in Hnd. destruct Hnd as [Hx Hnd].
  apply insert_desc_descending; [exact (IH Hnd)|].
  intros Hin. apply Hx.
  apply (Permutation_in _ (Permutation_map line (sort_desc_perm items))). exact Hin.
Qed.

End Sorting.

Lemma existsb_perm {A} (f : A -> bool) (l l' : list A) :
  Permutation l l' -> existsb f l = existsb f l'.
Proof.
  induction 1; simpl; try congruence.
  destruct (f x), (f y); reflexivity.
Qed.

Lemma filter_length_perm {A} (f : A -> bool) (l l' : list A) :
  Permutation l l' -> length (List.filter f l) = length (List.filter f l').
Proof.
  induction 1; simpl; try congruence.
  - destruct (f x); simpl; congruence.
  - destruct (f x), (f y); reflexivity.
Qed.

(* ===================================================================== *)
(** * Fixer: the loop over the files *)
(* ===================================================================== *)

Section FixLoop.
Context {A : Type}.
Variable writable : string -> bool.
Variable fix_entry : string * list A -> M Fixer.Run unit.
Variable run : list A -> list string * nat -> list string * nat.
Variable new : list A -> list string -> list string.
Variable gain : list A -> list string -> nat.
Variable good : list A -> Prop.

Hypothesis fix_entry_eq : forall file items s,
  fix_entry (file, items) s
  = match Fixer.disk s !! file with
    | None => (s, Ret tt)
    | Some content =>
        let out := run items (JsString.split Fixer.newline content, Fixer.counter s) in
        ({| Fixer.disk :=
              if writable file
              then <[file := JsString.join (String Fixer.newline "") (fst out)]>
                     (Fixer.disk s)
              else Fixer.disk s;
            Fixer.counter := snd out |}, Ret tt)
    end.

Hypothesis run_eq : forall items lines n,
  good items -> run items (lines, n) = (new items lines, n + gain items lines).

(** What one file holds after the loop, and what was counted. *)
Lemma fix_loop_effect (byFile : JsMap.t (list A)) : forall s : Fixer.Run,
  List.NoDup (JsMap.keys byFile) ->
  (forall file items, In (file, items) byFile -> good items) ->
  exists s',
    for_of byFile fix_entry s = (s', Ret tt)
    /\ (forall p,
          Fixer.disk s' !! p
          = match JsMap.get byFile p with
            | Some items =>
                (fun content =>
                   if writable p
                   then JsString.join (String Fixer.newline "")
                          (new items (JsString.split Fixer.newline content))
                   else content) <$> Fixer.disk s !! p
            | None => Fixer.disk s !! p
            end)
    /\ Fixer.counter s'
       = Fixer.counter s
         + list_sum
             (map (fun e : string * list A =>
                     match Fixer.disk s !! fst e with
                     | Some content =>
                         gain (snd e) (JsString.split Fixer.newline content)
                     | None => 0
                     end) byFile).
Proof using fix_entry_eq run_eq.
  induction byFile as [|[file items] byFile IH]; intros s Hnd Hgood.
  - exists s. simpl. split; [reflexivity|]. split; [reflexivity|lia].
  - simpl in Hnd. apply List.NoDup_cons_iff in Hnd. destruct Hnd as [Hfile Hnd].
    assert (Hitems : good items) by (apply (Hgood file); left; reflexivity).
    rewrite for_of_cons, fix_entry_eq.
    assert (Hstep : exists s1,
      match Fixer.disk s !! file with
      | None => (s, Ret tt)
      | Some content =>
          let out := run items (JsString.split Fixer.newline content, Fixer.counter s) in
          ({| Fixer.disk :=
                if writable file
                then <[file := JsString.join (String Fixer.newline "") (fst out)]>
                       (Fixer.disk s)
                else Fixer.disk s;
              Fixer.counter := snd out |}, Ret tt)
      end = (s1, Ret tt)
      /\ Fixer.disk s1 !! file
         = (fun content =>
              if writable file
              then JsString.join (String Fixer.newline "")
                     (new items (JsString.split Fixer.newline content))
              else content) <$> Fixer.disk s !! file
      /\ (forall p, p <> file -> Fixer.disk s1 !! p = Fixer.disk s !! p)
      /\ Fixer.counter s1
         = Fixer.counter s
           + match Fixer.disk s !! file with
             | Some content => gain items (JsString.split Fixer.newline content)
             | None => 0
             end).
    { destruct (Fixer.disk s !! file) as [content|] eqn:Efile.
      - cbv zeta. rewrite (run_eq _ _ _ Hitems). eexists. split; [reflexivity|].
        cbn [Fixer.disk Fixer.counter fst snd]. split; [|split; [|reflexivity]].
        + destruct (writable file); [apply lookup_insert_eq|exact Efile].
        + intros p Hp. destruct (writable file); [|reflexivity].
          apply lookup_insert_ne. congruence.
      - exists s. split; [reflexivity|]. split; [exact Efile|].
        split; [reflexivity|lia]. }
    destruct Hstep as (s1 & -> & Hat & Hother & Hcount).
    destruct (IH s1 Hnd) as (s' & Hrun & Hdisk & Hcounter).
    { intros f its Hin. apply (Hgood f). right. exact Hin. }
    exists s'. split; [exact Hrun|]. split.
    + intros p. rewrite Hdisk. simpl JsMap.get.
      destruct (String.eqb file p) eqn:E.
      * apply String.eqb_eq in E. subst p.
        apply jsmap_get_none_keys in Hfile. rewrite Hfile. exact Hat.
      * apply String.eqb_neq in E. rewrite (Hother p) by congruence. reflexivity.
    + rewrite Hcounter, Hcount. simpl map. simpl list_sum.
      rewrite <- Nat.add_assoc. f_equal. f_equal. f_equal.
      apply map_ext_in. intros [f its] Hin. simpl.
      rewrite Hother; [reflexivity|]. intros ->. apply Hfile.
      apply in_map_iff. exists (file, its). split; [reflexivity|exact Hin].
Qed.

End FixLoop.

(* ===================================================================== *)
(** * Fixer: commenting dead code *)
(* ===================================================================== *)

Lemma marks_cons issue issues n :
  Fixer.marks (issue :: issues) n
  = (if (dc_line issue =? n)%nat then 1 else 0) + Fixer.marks issues n.
Proof. unfold Fixer.marks. simpl. destruct (dc_line issue =? n)%nat; reflexivity. Qed.

Lemma commented_ext issues issues' (lines : list string) : forall n,
  (forall k, n <= k < n + length lines -> Fixer.marks issues k = Fixer.marks issues' k) ->
  Fixer.commented issues n lines = Fixer.commented issues' n lines.
Proof.
  induction lines as [|line lines IH]; intros n H; simpl; [reflexivity|].
  rewrite (H n) by (simpl; lia). f_equal. apply IH. intros k Hk. apply H. simpl. lia.
Qed.

Lemma commented_length issues (lines : list string) : forall n,
  length (Fixer.commented issues n lines) = length lines.
Proof. induction lines as [|line lines IH]; intros n; simpl; [|rewrite IH]; reflexivity. Qed.

(** An issue on no line of the text changes nothing. *)
Lemma commented_off issue issues (lines : list string) n :
  dc_line issue < n \/ n + length lines <= dc_line issue ->
  Fixer.commented (issue :: issues) n lines = Fixer.commented issues n lines.
Proof.
  intros H. apply commented_ext. intros k Hk. rewrite marks_cons.
  destruct (dc_line issue =? k)%nat eqn:E; [|reflexivity].
  apply Nat.eqb_eq in E. lia.
Qed.

(** Marking the line of an issue accounts for the issue. *)
Lemma commented_insert issue issues (lines : list string) : forall n i line,
  lines !! i = Some line ->
  dc_line issue = n + i ->
  Fixer.commented issues n (<[i := Fixer.dead_code_mark +:+ line]> lines)
  = Fixer.commented (issue :: issues) n lines.
Proof.
  induction lines as [|x lines IH]; intros n i line Hline Hn; [discriminate|].
  destruct i as [|i]; simpl in Hline.
  - injection Hline as ->. simpl. rewrite marks_cons.
    replace (dc_line issue =? n)%nat with true by (symmetry; apply Nat.eqb_eq; lia).
    simpl. rewrite Nat.iter_swap. f_equal.
    symmetry. apply commented_off. lia.
  - simpl. rewrite marks_cons.
    replace (dc_line issue =? n)%nat with false by (symmetry; apply Nat.eqb_neq; lia).
    simpl. f_equal. apply (IH (S n) i line Hline). lia.
Qed.

Lemma comment_issue_eq (lines : list string) n issue :
  Fixer.comment_issue (lines, n) issue
  = match dc_line issue with
    | 0 => (lines, n)
    | S lineIndex =>
        match lines !! lineIndex with
        | None => (lines, n)
        | Some line => (<[lineIndex := Fixer.dead_code_mark +:+ line]> lines, S n)
        end
    end.
Proof. reflexivity. Qed.

(** The loop over the issues of one file, in any order. *)
Lemma comment_fold issues : forall (lines : list string) n,
  fold_left Fixer.comment_issue issues (lines, n)
  = (Fixer.commented issues 1 lines,
     n + length (List.filter
                   (fun issue => (0 <? dc_line issue)%nat
                                 && (dc_line issue <=? length lines)%nat) issues)).
Proof.
  induction issues as [|issue issues IH]; intros lines n.
  - simpl. f_equal; [|lia]. symmetry.
    assert (H : forall k, Fixer.commented [] k lines = lines).
    { induction lines as [|x lines IHl]; intros k; simpl; [|rewrite IHl]; reflexivity. }
    apply H.
  - change (fold_left Fixer.comment_issue (issue :: issues) (lines, n))
      with (fold_left Fixer.comment_issue issues
              (Fixer.comment_issue (lines, n) issue)).
    rewrite comment_issue_eq.
    destruct (dc_line issue) as [|i] eqn:En.
    + rewrite IH. simpl List.filter. rewrite En. simpl.
      rewrite commented_off by (rewrite En; lia). reflexivity.
    + destruct (lines !! i) as [line|] eqn:Eline.
      * rewrite IH, length_insert. simpl List.filter. rewrite En.
        pose proof (lookup_lt_Some _ _ _ Eline) as Hlt.
        replace ((0 <? S i)%nat && (S i <=? length lines)%nat) with true
          by (symmetry; apply andb_true_iff; split;
              [apply Nat.ltb_lt|apply Nat.leb_le]; lia).
        simpl length. rewrite (commented_insert issue issues lines 1 i line Eline)
          by (rewrite En; lia).
        f_equal. lia.
      * rewrite IH. simpl List.filter. rewrite En.
        apply lookup_ge_None in Eline.
        replace ((0 <? S i)%nat && (S i <=? length lines)%nat) with false
          by (symmetry; apply andb_false_iff; right; apply Nat.leb_gt; lia).
        rewrite commented_off by (rewrite En; lia). reflexivity.
Qed.

Lemma marks_perm issues issues' n :
  Permutation issues issues' -> Fixer.marks issues n = Fixer.marks issues' n.
Proof. apply filter_length_perm. Qed.

Section CommentDeadCode.
Variable writable : string -> bool.

Lemma fix_dead_code_eq file fileIssues (s : Fixer.Run) :
  Fixer.fix_dead_code writable (file, fileIssues) s
  = match Fixer.disk s !! file with
    | None => (s, Ret tt)
    | Some content =>
        let out := fold_left Fixer.comment_issue (Fixer.sort_desc dc_line fileIssues)
                     (JsString.split Fixer.newline content, Fixer.counter s) in
        ({| Fixer.disk :=
              if writable file
              then <[file := JsString.join (String Fixer.newline "") (fst out)]>
                     (Fixer.disk s)
              else Fixer.disk s;
            Fixer.counter := snd out |}, Ret tt)
    end.
Proof.
  unfold Fixer.fix_dead_code, try_catch, mbind, Fixer.fs_readFile, Fixer.get_counter,
    Fixer.set_counter, Fixer.fs_writeFile, mmodify.
  destruct (Fixer.disk s !! file) as [content|]; [|reflexivity].
  cbv zeta.
  destruct (fold_left Fixer.comment_issue _ _) as [lines fixed].
  cbn [Fixer.disk Fixer.counter fst snd].
  destruct (writable file); reflexivity.
Qed.

Lemma comment_run fileIssues (lines : list string) n :
  fold_left Fixer.comment_issue (Fixer.sort_desc dc_line fileIssues) (lines, n)
  = (Fixer.commented fileIssues 1 lines,
     n + length (List.filter
                   (fun issue => (0 <? dc_line issue)%nat
                                 && (dc_line issue <=? length lines)%nat) fileIssues)).
Proof.
  rewrite comment_fold. f_equal.
  - apply commented_ext. intros k _. apply marks_perm, sort_desc_perm.
  - f_equal. apply filter_length_perm, sort_desc_perm.
Qed.

End CommentDeadCode.

Lemma free_of_append sep (a b : string) :
  free_of sep a -> free_of sep b -> free_of sep (a +:+ b).
Proof.
  unfold free_of. induction a as [|c a IH]; intros Ha Hb; [exact Hb|].
  rewrite append_cons. simpl. intros [->|Hin].
  - apply Ha. left. reflexivity.
  - apply IH; [|exact Hb|exact Hin]. intros H. apply Ha. right. exact H.
Qed.

(** Splitting what was joined gives the parts back. *)
Lemma split_join sep (parts : list string) :
  parts <> [] -> Forall (free_of sep) parts ->
  JsString.split sep (JsString.join (String sep "") parts) = parts.
Proof.
  induction parts as [|x parts IH]; intros Hne Hfree; [congruence|].
  inversion Hfree as [|? ? Hx Hparts]; subst.
  destruct parts as [|y parts].
  - simpl. apply split_free, Hx.
  - rewrite join_cons.
    change (String sep "" +:+ JsString.join (String sep "") (y :: parts))
      with (String sep (JsString.join (String sep "") (y :: parts))).
    rewrite (split_append _ _ _ Hx), IH; [reflexivity|discriminate|exact Hparts].
Qed.

Lemma commented_nil (lines : list string) : forall n, Fixer.commented [] n lines = lines.
Proof. induction lines as [|x lines IH]; intros n; simpl; [|rewrite IH]; reflexivity. Qed.

Lemma commented_free issues (lines : list string) : forall n,
  Forall (free_of Fixer.newline) lines ->
  Forall (free_of Fixer.newline) (Fixer.commented issues n lines).
Proof.
  induction lines as [|x lines IH]; intros n Hfree; simpl; [constructor|].
  inversion Hfree as [|? ? Hx Hlines]; subst. constructor; [|apply IH, Hlines].
  induction (Fixer.marks issues n) as [|k IHk]; simpl; [exact Hx|].
  apply free_of_append; [|exact IHk].
  unfold free_of, Fixer.dead_code_mark, Fixer.newline. simpl.
  intros H. repeat (destruct H as [H|H]; [discriminate H|]). exact H.
Qed.

Lemma has_line_eq (files : Fixer.Disk) file n :
  match Fixer.line_of files file n with Some _ => true | None => false end
  = match files !! file with
    | Some content =>
        (0 <? n)%nat && (n <=? length (JsString.split Fixer.newline content))%nat
    | None => false
    end.
Proof.
  unfold Fixer.line_of. destruct n as [|i].
  - destruct (files !! file); reflexivity.
  - destruct (files !! file) as [content|]; [|reflexivity].
    destruct (JsString.split Fixer.newline content !! i) as [line|] eqn:E.
    + apply lookup_lt_Some in E. symmetry. apply andb_true_iff.
      split; [apply Nat.ltb_lt|apply Nat.leb_le]; lia.
    + apply lookup_ge_None in E. symmetry. apply andb_false_iff. right.
      apply Nat.leb_gt. lia.
Qed.

(** X21. [commentDeadCode] never throws.  A file that can be written
    ends up with the same lines as before, each with one mark in front
    for every issue listed for that file and line; other files keep their
    text; so no line is added, removed or moved.  The number returned is
    the number of listed issues whose file can be read and has the line,
    whether or not the file could be written. *)
Theorem dead_code_commented (writable : string -> bool)
    (issues : list DeadCodeIssue) (files : Fixer.Disk) :
  exists fixed,
    snd (Fixer.commentDeadCode writable issues files) = Ret fixed
    /\ fixed
       = length (List.filter
                   (fun issue =>
                      match Fixer.line_of files (dc_file issue) (dc_line issue) with
                      | Some _ => true
                      | None => false
                      end) issues)
    /\ (forall p,
          fst (Fixer.commentDeadCode writable issues files) !! p
          = (fun content =>
               if writable p
               then JsString.join (String Fixer.newline "")
                      (Fixer.commented
                         (List.filter (fun issue => String.eqb (dc_file issue) p) issues)
                         1 (JsString.split Fixer.newline content))
               else content) <$> files !! p)
    /\ (forall p content content',
          files !! p = Some content ->
          fst (Fixer.commentDeadCode writable issues files) !! p = Some content' ->
          length (JsString.split Fixer.newline content')
          = length (JsString.split Fixer.newline content)).
Proof.
  unfold Fixer.commentDeadCode.
  destruct (fix_loop_effect writable (Fixer.fix_dead_code writable)
              (fun items locals =>
                 fold_left Fixer.comment_issue (Fixer.sort_desc dc_line items) locals)
              (fun items lines => Fixer.commented items 1 lines)
              (fun items lines =>
                 length (List.filter
                           (fun issue => (0 <? dc_line issue)%nat
                                         && (dc_line issue <=? length lines)%nat) items))
              (fun _ => True)
              (fix_dead_code_eq writable)
              (fun items lines n _ => comment_run items lines n)
              (Fixer.group_by_file dc_file issues)
              {| Fixer.disk := files; Fixer.counter := 0 |}
              (group_by_file_NoDup dc_file issues)
              (fun _ _ _ => I))
    as (s' & -> & Hdisk & Hcounter).
  cbn [fst snd Fixer.disk Fixer.counter] in *.
  assert (Hat : forall p,
    Fixer.disk s' !! p
    = (fun content =>
         if writable p
         then JsString.join (String Fixer.newline "")
                (Fixer.commented
                   (List.filter (fun issue => String.eqb (dc_file issue) p) issues)
                   1 (JsString.split Fixer.newline content))
         else content) <$> files !! p).
  { intros p. rewrite Hdisk, group_by_file_get.
    destruct (List.filter (fun issue => String.eqb (dc_file issue) p) issues)
      as [|x more]; [|reflexivity].
    destruct (files !! p) as [content|]; [|reflexivity]. simpl.
    rewrite commented_nil, join_split. destruct (writable p); reflexivity. }
  exists (Fixer.counter s'). split; [reflexivity|]. split; [|split].
  - rewrite Hcounter. simpl.
    rewrite <- (group_by_file_count dc_file _ issues). f_equal.
    apply map_ext_in. intros [file items] Hin.
    apply group_by_file_entry in Hin. cbn [fst snd]. subst items.
    destruct (files !! file) as [content|] eqn:Efile.
    + f_equal. apply filter_ext_in. intros issue Hissue.
      apply filter_In in Hissue. destruct Hissue as [_ Hfile].
      apply String.eqb_eq in Hfile. rewrite has_line_eq, Hfile, Efile. reflexivity.
    + rewrite (filter_ext_in _ (fun _ => false)).
      * clear. induction (List.filter _ issues) as [|x l IH]; [reflexivity|exact IH].
      * intros issue Hissue. apply filter_In in Hissue. destruct Hissue as [_ Hfile].
        apply String.eqb_eq in Hfile. rewrite has_line_eq, Hfile, Efile. reflexivity.
  - exact Hat.
  - intros p content content' Hbefore Hafter. rewrite Hat, Hbefore in Hafter.
    simpl in Hafter. injection Hafter as <-.
    destruct (writable p); [|reflexivity].
    rewrite split_join.
    + apply commented_length.
    + intros Hnil. apply (f_equal (@length string)) in Hnil.
      rewrite commented_length in Hnil.
      pose proof (split_nonempty Fixer.newline content) as Hne.
      destruct (JsString.split Fixer.newline content); [congruence|discriminate].
    + apply commented_free, split_parts_free.
Qed.

(* ===================================================================== *)
(** * Fixer: removing import lines *)
(* ===================================================================== *)

Lemma remove_import_eq (lines : list string) n imp :
  Fixer.remove_import (lines, n) imp
  = match ui_line imp with
    | 0 => (lines, n)
    | S lineIndex =>
        match lines !! lineIndex with
        | None => (lines, n)
        | Some line =>
            if JsString.includes line "import"
               && JsString.includes line (ui_importName imp)
            then (delete lineIndex lines, S n)
            else (lines, n)
        end
    end.
Proof. reflexivity. Qed.

Lemma remove_fold_cons imp imports (lines : list string) n :
  fold_left Fixer.remove_import (imp :: imports) (lines, n)
  = fold_left Fixer.remove_import imports (Fixer.remove_import (lines, n) imp).
Proof. reflexivity. Qed.

(** ** Whatever the order: only import lines go *)

Lemma dropped_refl gone (lines : list string) : Fixer.dropped gone lines lines.
Proof. induction lines; constructor; assumption. Qed.

Lemma dropped_trans gone (a b : list string) :
  Fixer.dropped gone a b -> forall c, Fixer.dropped gone b c -> Fixer.dropped gone a c.
Proof.
  induction 1 as [|x l l' _ IH|x l l' Hx _ IH]; intros c Hc.
  - exact Hc.
  - inversion Hc; subst.
    + apply Fixer.dropped_keep, IH. assumption.
    + apply Fixer.dropped_drop; [assumption|]. apply IH. assumption.
  - apply Fixer.dropped_drop; [exact Hx|]. apply IH, Hc.
Qed.

Lemma dropped_delete (gone : string -> Prop) (lines : list string) : forall i line,
  lines !! i = Some line -> gone line -> Fixer.dropped gone lines (delete i lines).
Proof.
  induction lines as [|x lines IH]; intros i line Hline Hgone; [discriminate|].
  destruct i as [|i]; simpl in *.
  - injection Hline as ->. apply Fixer.dropped_drop; [exact Hgone|apply dropped_refl].
  - apply Fixer.dropped_keep. apply (IH i line); assumption.
Qed.

Lemma dropped_impl (gone gone' : string -> Prop) (a b : list string) :
  (forall line, gone line -> gone' line) ->
  Fixer.dropped gone a b -> Fixer.dropped gone' a b.
Proof. intros H. induction 1; constructor; auto. Qed.

(** The counter only adds to what it held. *)
Lemma remove_fold_offset imports : forall (lines : list string) n,
  fold_left Fixer.remove_import imports (lines, n)
  = (fst (fold_left Fixer.remove_import imports (lines, 0)),
     n + snd (fold_left Fixer.remove_import imports (lines, 0))).
Proof.
  assert (H : forall (lines : list string) n m,
    fold_left Fixer.remove_import imports (lines, n + m)
    = (fst (fold_left Fixer.remove_import imports (lines, n)),
       snd (fold_left Fixer.remove_import imports (lines, n)) + m)).
  { induction imports as [|imp imports IH]; intros lines n m; [reflexivity|].
    rewrite !remove_fold_cons, !remove_import_eq.
    destruct (ui_line imp) as [|i]; [apply IH|].
    destruct (lines !! i) as [line|]; [|apply IH].
    destruct (_ && _); [|apply IH]. apply (IH _ (S n) m). }
  intros lines n. rewrite <- (Nat.add_0_l n) at 1. rewrite H. f_equal. lia.
Qed.

Lemma remove_fold_dropped imports : forall (lines : list string) n,
  let out := fold_left Fixer.remove_import imports (lines, n) in
  Fixer.dropped
    (fun line =>
       JsString.occurs_in "import" line
       /\ exists imp, In imp imports /\ JsString.occurs_in (ui_importName imp) line)
    lines (fst out)
  /\ snd out <= n + length imports.
Proof.
  induction imports as [|imp imports IH]; intros lines n.
  - simpl. split; [apply dropped_refl|lia].
  - cbv zeta. rewrite remove_fold_cons, remove_import_eq.
    assert (Hrest : forall lines' n',
      Fixer.dropped
        (fun line =>
           JsString.occurs_in "import" line
           /\ exists imp', In imp' (imp :: imports)
                           /\ JsString.occurs_in (ui_importName imp') line)
        lines' (fst (fold_left Fixer.remove_import imports (lines', n')))
      /\ snd (fold_left Fixer.remove_import imports (lines', n'))
         <= n' + length imports).
    { intros lines' n'. destruct (IH lines' n') as [Hd Hn]. split; [|exact Hn].
      revert Hd. apply dropped_impl. intros line (Hword & imp' & Hin & Hname).
      split; [exact Hword|]. exists imp'. split; [right; exact Hin|exact Hname]. }
    destruct (ui_line imp) as [|i];
      [destruct (Hrest lines n); split; [assumption|simpl; lia]|].
    destruct (lines !! i) as [line|] eqn:Eline;
      [|destruct (Hrest lines n); split; [assumption|simpl; lia]].
    destruct (JsString.includes line "import"
              && JsString.includes line (ui_importName imp)) eqn:Econd;
      [|destruct (Hrest lines n); split; [assumption|simpl; lia]].
    apply andb_true_iff in Econd. destruct Econd as [Hword Hname].
    apply includes_spec in Hword, Hname.
    destruct (Hrest (delete i lines) (S n)) as [Hd Hn]. split; [|simpl; lia].
    refine (dropped_trans _ _ _ _ _ Hd).
    apply (dropped_delete _ _ i line Eline). split; [exact Hword|].
    exists imp. split; [left; reflexivity|exact Hname].
Qed.

(** ** In descending order: exactly the lines that are hit go *)

Lemma existsb_hits_off k line imports :
  (forall imp, In imp imports -> ui_line imp <> k) ->
  existsb (Fixer.hits k line) imports = false.
Proof.
  intros H. induction imports as [|imp imports IH]; [reflexivity|]. simpl.
  rewrite IH by (intros y Hy; apply H; right; exact Hy).
  unfold Fixer.hits.
  replace (ui_line imp =? k)%nat with false; [reflexivity|].
  symmetry. apply Nat.eqb_neq, H. left. reflexivity.
Qed.

Lemma kept_ext imports imports' (lines : list string) : forall n,
  (forall k line, n <= k < n + length lines ->
                  existsb (Fixer.hits k line) imports
                  = existsb (Fixer.hits k line) imports') ->
  Fixer.kept imports n lines = Fixer.kept imports' n lines.
Proof.
  induction lines as [|line lines IH]; intros n H; simpl; [reflexivity|].
  rewrite (H n line) by (simpl; lia).
  rewrite (IH (S n)) by (intros k l Hk; apply H; simpl; lia). reflexivity.
Qed.

Lemma kept_app imports (a c : list string) : forall n,
  Fixer.kept imports n (a ++ c)
  = Fixer.kept imports n a ++ Fixer.kept imports (n + length a) c.
Proof.
  induction a as [|line a IH]; intros n; simpl.
  - rewrite Nat.add_0_r. reflexivity.
  - rewrite (IH (S n)). replace (S n + length a) with (n + S (length a)) by lia.
    destruct (existsb (Fixer.hits n line) imports); reflexivity.
Qed.

Lemma kept_none imports (lines : list string) : forall n,
  (forall imp, In imp imports -> ui_line imp < n) ->
  Fixer.kept imports n lines = lines.
Proof.
  induction lines as [|line lines IH]; intros n H; simpl; [reflexivity|].
  rewrite existsb_hits_off by (intros imp Himp; specialize (H imp Himp); lia).
  rewrite IH; [reflexivity|]. intros imp Himp. specialize (H imp Himp). lia.
Qed.

(** An import that names no line of the text changes nothing. *)
Lemma kept_off imp imports (lines : list string) n :
  ui_line imp < n \/ n + length lines <= ui_line imp ->
  Fixer.kept (imp :: imports) n lines = Fixer.kept imports n lines.
Proof.
  intros H. apply kept_ext. intros k line Hk. simpl.
  unfold Fixer.hits at 1.
  replace (ui_line imp =? k)%nat with false; [reflexivity|].
  symmetry. apply Nat.eqb_neq. lia.
Qed.

Lemma hit_line_prefix (a rest : list string) imp :
  ui_line imp <= length a ->
  Fixer.hit_line (a ++ rest) imp = Fixer.hit_line a imp.
Proof.
  unfold Fixer.hit_line. intros H. destruct (ui_line imp) as [|i]; [reflexivity|].
  rewrite lookup_app_l by lia. reflexivity.
Qed.

Lemma remove_fold_prefix imports : forall (pre post : list string) n,
  Fixer.descending ui_line imports ->
  (forall imp, In imp imports -> ui_line imp <= length pre) ->
  fold_left Fixer.remove_import imports (pre ++ post, n)
  = (Fixer.kept imports 1 pre ++ post,
     n + length (List.filter (Fixer.hit_line pre) imports)).
Proof.
  induction imports as [|imp imports IH]; intros pre post n Hdesc Hrange.
  - simpl. rewrite kept_none by (intros imp []). f_equal. lia.
  - destruct Hdesc as [Hbelow Hdesc].
    rewrite remove_fold_cons, remove_import_eq.
    destruct (ui_line imp) as [|i] eqn:En.
    + rewrite IH; [|exact Hdesc|intros y Hy; apply Hrange; right; exact Hy].
      rewrite kept_off by (rewrite En; lia).
      simpl List.filter. unfold Fixer.hit_line at 2. rewrite En. reflexivity.
    + assert (Hi : i < length pre).
      { specialize (Hrange imp (or_introl eq_refl)). lia. }
      destruct (lookup_lt_is_Some_2 pre i Hi) as [x Hx].
      rewrite (lookup_app_l pre post i Hi), Hx.
      pose proof (take_drop_middle pre i x Hx) as Hsplit.
      set (a := take i pre) in *. set (b := drop (S i) pre) in *.
      assert (Ha : length a = i) by (unfold a; rewrite length_take; lia).
      assert (Hrest : forall y, In y imports -> ui_line y <= length a).
      { intros y Hy. specialize (Hbelow y Hy). lia. }
      assert (Hfilter : List.filter (Fixer.hit_line pre) imports
                        = List.filter (Fixer.hit_line a) imports).
      { apply filter_ext_in. intros y Hy. rewrite <- Hsplit.
        apply hit_line_prefix, Hrest, Hy. }
      assert (Hhead : Fixer.kept (imp :: imports) 1 a = Fixer.kept imports 1 a).
      { apply kept_off. lia. }
      assert (Htail : Fixer.kept (imp :: imports) (S (S i)) b = b).
      { apply kept_none. intros y [<-|Hy]; [lia|]. specialize (Hbelow y Hy). lia. }
      assert (Hothers : existsb (Fixer.hits (S i) x) imports = false).
      { apply existsb_hits_off. intros y Hy. specialize (Hbelow y Hy). lia. }
      assert (Hkept : Fixer.kept (imp :: imports) 1 pre
                      = Fixer.kept imports 1 a
                        ++ (if Fixer.hits (S i) x imp then b else x :: b)).
      { rewrite <- Hsplit at 1. rewrite kept_app, Hhead, Ha. simpl Fixer.kept.
        rewrite Hothers, orb_false_r, Htail.
        destruct (Fixer.hits (S i) x imp); reflexivity. }
      assert (Hhit : Fixer.hit_line pre imp = Fixer.hits (S i) x imp).
      { unfold Fixer.hit_line. rewrite En, Hx. reflexivity. }
      assert (Hcond : Fixer.hits (S i) x imp
                      = JsString.includes x "import"
                        && JsString.includes x (ui_importName imp)).
      { unfold Fixer.hits. rewrite En, Nat.eqb_refl. reflexivity. }
      rewrite Hkept. simpl List.filter. rewrite Hhit, Hfilter, Hcond.
      destruct (JsString.includes x "import"
                && JsString.includes x (ui_importName imp)).
      * replace (delete i (pre ++ post)) with (a ++ b ++ post).
        -- rewrite (IH a (b ++ post) (S n) Hdesc Hrest).
           rewrite <- app_assoc. simpl length. f_equal. lia.
        -- rewrite <- Hsplit, <- app_assoc. simpl. rewrite <- Ha at 1.
           symmetry. apply delete_middle.
      * replace (pre ++ post) with (a ++ (x :: b) ++ post)
          by (rewrite <- Hsplit, <- app_assoc; reflexivity).
        rewrite (IH a ((x :: b) ++ post) n Hdesc Hrest).
        rewrite <- app_assoc. reflexivity.
Qed.

Lemma remove_fold_exact imports : forall (lines : list string) n,
  Fixer.descending ui_line imports ->
  fold_left Fixer.remove_import imports (lines, n)
  = (Fixer.kept imports 1 lines,
     n + length (List.filter (Fixer.hit_line lines) imports)).
Proof.
  induction imports as [|imp imports IH]; intros lines n Hdesc.
  - simpl. rewrite kept_none by (intros imp []). f_equal. lia.
  - destruct (le_lt_dec (ui_line imp) (length lines)) as [Hin|Hout].
    + pose proof (remove_fold_prefix (imp :: imports) lines [] n Hdesc) as H.
      rewrite !app_nil_r in H. apply H.
      destruct Hdesc as [Hbelow _]. intros y [<-|Hy]; [exact Hin|].
      specialize (Hbelow y Hy). lia.
    + destruct Hdesc as [_ Hdesc].
      rewrite remove_fold_cons, remove_import_eq.
      destruct (ui_line imp) as [|i] eqn:En; [lia|].
      assert (Hnone : lines !! i = None) by (apply lookup_ge_None; lia).
      rewrite Hnone, (IH lines n Hdesc).
      rewrite kept_off by (rewrite En; lia).
      simpl List.filter. unfold Fixer.hit_line at 2. rewrite En, Hnone. reflexivity.
Qed.

Lemma kept_perm imports imports' (lines : list string) n :
  Permutation imports imports' ->
  Fixer.kept imports n lines = Fixer.kept imports' n lines.
Proof. intros H. apply kept_ext. intros k line _. apply existsb_perm, H. Qed.

Lemma list_sum_le {A} (f g : A -> nat) (l : list A) :
  (forall x, In x l -> f x <= g x) -> list_sum (map f l) <= list_sum (map g l).
Proof.
  induction l as [|x l IH]; intros H; simpl; [lia|].
  specialize (H x (or_introl eq_refl)) as Hx.
  assert (list_sum (map f l) <= list_sum (map g l)).
  { apply IH. intros y Hy. apply H. right. exact Hy. }
  lia.
Qed.

Lemma filter_true_length {A} (l : list A) :
  length (List.filter (fun _ => true) l) = length l.
Proof. induction l; simpl; congruence. Qed.

Lemma group_lines_NoDup {A} (file : A -> string) (line : A -> nat) (items : list A) p :
  List.NoDup (map (fun x => (file x, line x)) items) ->
  List.NoDup (map line (List.filter (fun x => String.eqb (file x) p) items)).
Proof.
  induction items as [|x items IH]; simpl; intros Hnd; [constructor|].
  apply List.NoDup_cons_iff in Hnd. destruct Hnd as [Hx Hnd].
  destruct (String.eqb (file x) p) eqn:E; [|exact (IH Hnd)].
  simpl. constructor; [|exact (IH Hnd)].
  intros Hin. apply Hx. apply in_map_iff in Hin. destruct Hin as (y & Hline & Hy).
  apply filter_In in Hy. destruct Hy as [Hy Hfile].
  apply String.eqb_eq in E, Hfile. apply in_map_iff. exists y.
  split; [congruence|exact Hy].
Qed.

Lemma hit_line_eq (files : Fixer.Disk) imp :
  match Fixer.line_of files (ui_file imp) (ui_line imp) with
  | Some line =>
      JsString.includes line "import" && JsString.includes line (ui_importName imp)
  | None => false
  end
  = match files !! ui_file imp with
    | Some content => Fixer.hit_line (JsString.split Fixer.newline content) imp
    | None => false
    end.
Proof.
  unfold Fixer.line_of, Fixer.hit_line, Fixer.hits.
  destruct (ui_line imp) as [|i]; [destruct (files !! ui_file imp); reflexivity|].
  destruct (files !! ui_file imp) as [content|]; [|reflexivity].
  destruct (JsString.split Fixer.newline content !! i); [|reflexivity].
  rewrite Nat.eqb_refl. reflexivity.
Qed.

Section RemoveImports.
Variable writable : string -> bool.

Lemma fix_imports_eq file imports (s : Fixer.Run) :
  Fixer.fix_imports writable (file, imports) s
  = match Fixer.disk s !! file with
    | None => (s, Ret tt)
    | Some content =>
        let out := fold_left Fixer.remove_import (Fixer.sort_desc ui_line imports)
                     (JsString.split Fixer.newline content, Fixer.counter s) in
        ({| Fixer.disk :=
              if writable file
              then <[file := JsString.join (String Fixer.newline "") (fst out)]>
                     (Fixer.disk s)
              else Fixer.disk s;
            Fixer.counter := snd out |}, Ret tt)
    end.
Proof.
  unfold Fixer.fix_imports, try_catch, mbind, Fixer.fs_readFile, Fixer.get_counter,
    Fixer.set_counter, Fixer.fs_writeFile, mmodify.
  destruct (Fixer.disk s !! file) as [content|]; [|reflexivity].
  cbv zeta.
  destruct (fold_left Fixer.remove_import _ _) as [lines fixed].
  cbn [Fixer.disk Fixer.counter fst snd].
  destruct (writable file); reflexivity.
Qed.

End RemoveImports.

(** X22. [removeUnusedImports] never throws, whatever it is given.  A
    file that no listed import names, or that cannot be written, keeps its
    text; no file appears or disappears; and the text of every file
    afterwards is its text before without some of its lines, each of which
    holds the word [import] and the name of a listed import of that file:
    no line is changed, added or moved.  The number returned is at most
    the number of listed imports. *)
Theorem unused_imports_removed_conservatively (writable : string -> bool)
    (unusedImports : list UnusedImport) (files : Fixer.Disk) :
  let after := fst (Fixer.removeUnusedImports writable unusedImports files) in
  (exists fixed,
      snd (Fixer.removeUnusedImports writable unusedImports files) = Ret fixed
      /\ fixed <= length unusedImports)
  /\ (forall p, ~ In p (map ui_file unusedImports) \/ writable p = false ->
                after !! p = files !! p)
  /\ (forall p, files !! p = None -> after !! p = None)
  /\ (forall p content,
         files !! p = Some content ->
         exists lines,
           after !! p = Some (JsString.join (String Fixer.newline "") lines)
           /\ Fixer.dropped
                (fun line =>
                   JsString.occurs_in "import" line
                   /\ exists imp, In imp unusedImports /\ ui_file imp = p
                                  /\ JsString.occurs_in (ui_importName imp) line)
                (JsString.split Fixer.newline content) lines).
Proof.
  cbv zeta. unfold Fixer.removeUnusedImports.
  destruct (fix_loop_effect writable (Fixer.fix_imports writable)
              (fun items locals =>
                 fold_left Fixer.remove_import (Fixer.sort_desc ui_line items) locals)
              (fun items lines =>
                 fst (fold_left Fixer.remove_import (Fixer.sort_desc ui_line items)
                        (lines, 0)))
              (fun items lines =>
                 snd (fold_left Fixer.remove_import (Fixer.sort_desc ui_line items)
                        (lines, 0)))
              (fun _ => True)
              (fix_imports_eq writable)
              (fun items lines n _ =>
                 remove_fold_offset (Fixer.sort_desc ui_line items) lines n)
              (Fixer.group_by_file ui_file unusedImports)
              {| Fixer.disk := files; Fixer.counter := 0 |}
              (group_by_file_NoDup ui_file unusedImports)
              (fun _ _ _ => I))
    as (s' & -> & Hdisk & Hcounter).
  cbn [fst snd Fixer.disk Fixer.counter] in *.
  split; [|split; [|split]].
  - exists (Fixer.counter s'). split; [reflexivity|]. rewrite Hcounter. simpl.
    rewrite <- (filter_true_length unusedImports).
    rewrite <- (group_by_file_count ui_file (fun _ => true) unusedImports).
    apply list_sum_le. intros [file items] _. cbn [fst snd].
    rewrite filter_true_length.
    destruct (files !! file) as [content|]; [|lia].
    pose proof (remove_fold_dropped (Fixer.sort_desc ui_line items)
                  (JsString.split Fixer.newline content) 0) as [_ Hle].
    rewrite (Permutation_length (sort_desc_perm ui_line items)) in Hle. exact Hle.
  - intros p Hp. rewrite Hdisk, group_by_file_get.
    destruct (List.filter (fun x => String.eqb (ui_file x) p) unusedImports)
      as [|x more] eqn:Ef; [reflexivity|].
    destruct Hp as [Hp|Hp].
    + exfalso. apply Hp. apply in_map_iff. exists x.
      assert (Hx : In x (List.filter (fun x => String.eqb (ui_file x) p) unusedImports))
        by (rewrite Ef; left; reflexivity).
      apply filter_In in Hx. destruct Hx as [Hx Hfile].
      apply String.eqb_eq in Hfile. auto.
    + rewrite Hp. destruct (files !! p); reflexivity.
  - intros p Hnone. rewrite Hdisk, Hnone.
    destruct (JsMap.get _ p); reflexivity.
  - intros p content Hsome. rewrite Hdisk, group_by_file_get, Hsome.
    destruct (List.filter (fun x => String.eqb (ui_file x) p) unusedImports)
      as [|x more] eqn:Ef.
    + exists (JsString.split Fixer.newline content). rewrite join_split.
      split; [reflexivity|apply dropped_refl].
    + simpl. destruct (writable p).
      * eexists. split; [reflexivity|].
        pose proof (remove_fold_dropped (Fixer.sort_desc ui_line (x :: more))
                      (JsString.split Fixer.newline content) 0) as [Hd _].
        revert Hd. apply dropped_impl. intros line (Hword & imp & Hin & Hname).
        split; [exact Hword|]. exists imp.
        apply (Permutation_in _ (sort_desc_perm ui_line (x :: more))) in Hin.
        rewrite <- Ef in Hin. apply filter_In in Hin. destruct Hin as [Hin Hfile].
        apply String.eqb_eq in Hfile. auto.
      * exists (JsString.split Fixer.newline content). rewrite join_split.
        split; [reflexivity|apply dropped_refl].
Qed.

(** X23. When no two listed imports name the same line of the same file,
    [removeUnusedImports] removes from every file that can be written
    exactly the lines that a listed import of that file names by number
    and that hold both the word [import] and the name of that import;
    line numbers are those of the text before, since the lines go from the
    last to the first.  The number returned is the number of listed
    imports whose line, in a file that can be read, holds the word and the
    name. *)
Theorem unused_imports_removed_exactly (writable : string -> bool)
    (unusedImports : list UnusedImport) (files : Fixer.Disk) :
  List.NoDup (map (fun imp => (ui_file imp, ui_line imp)) unusedImports) ->
  exists fixed,
    snd (Fixer.removeUnusedImports writable unusedImports files) = Ret fixed
    /\ fixed
       = length
           (List.filter
              (fun imp =>
                 match Fixer.line_of files (ui_file imp) (ui_line imp) with
                 | Some line =>
                     JsString.includes line "import"
                     && JsString.includes line (ui_importName imp)
                 | None => false
                 end) unusedImports)
    /\ forall p,
         fst (Fixer.removeUnusedImports writable unusedImports files) !! p
         = (fun content =>
              if writable p
              then JsString.join (String Fixer.newline "")
                     (Fixer.kept
                        (List.filter (fun imp => String.eqb (ui_file imp) p)
                           unusedImports)
                        1 (JsString.split Fixer.newline content))
              else content) <$> files !! p.
Proof.
  intros Hnd. unfold Fixer.removeUnusedImports.
  destruct (fix_loop_effect writable (Fixer.fix_imports writable)
              (fun items locals =>
                 fold_left Fixer.remove_import (Fixer.sort_desc ui_line items) locals)
              (fun items lines => Fixer.kept items 1 lines)
              (fun items lines => length (List.filter (Fixer.hit_line lines) items))
              (fun items => List.NoDup (map ui_line items))
              (fix_imports_eq writable)) with
    (byFile := Fixer.group_by_file ui_file unusedImports)
    (s := {| Fixer.disk := files; Fixer.counter := 0 |})
    as (s' & -> & Hdisk & Hcounter).
  { intros items lines n Hitems.
    rewrite (remove_fold_exact _ _ _ (sort_desc_descending ui_line items Hitems)).
    f_equal.
    - apply kept_perm, sort_desc_perm.
    - f_equal. apply filter_length_perm, sort_desc_perm. }
  { apply group_by_file_NoDup. }
  { intros file items Hin. apply group_by_file_entry in Hin. subst items.
    apply (group_lines_NoDup ui_file ui_line), Hnd. }
  cbn [fst snd Fixer.disk Fixer.counter] in *.
  exists (Fixer.counter s'). split; [reflexivity|]. split.
  - rewrite Hcounter. simpl.
    rewrite <- (group_by_file_count ui_file _ unusedImports). f_equal.
    apply map_ext_in. intros [file items] Hin.
    apply group_by_file_entry in Hin. cbn [fst snd]. subst items.
    destruct (files !! file) as [content|] eqn:Efile.
    + f_equal. apply filter_ext_in. intros imp Himp.
      apply filter_In in Himp. destruct Himp as [_ Hfile].
      apply String.eqb_eq in Hfile. rewrite hit_line_eq, Hfile, Efile. reflexivity.
    + rewrite (filter_ext_in _ (fun _ => false)).
      * clear. induction (List.filter _ unusedImports) as [|x l IH];
          [reflexivity|exact IH].
      * intros imp Himp. apply filter_In in Himp. destruct Himp as [_ Hfile].
        apply String.eqb_eq in Hfile. rewrite hit_line_eq, Hfile, Efile. reflexivity.
  - intros p. rewrite Hdisk, group_by_file_get.
    destruct (List.filter (fun imp => String.eqb (ui_file imp) p) unusedImports)
      as [|x more]; [|reflexivity].
    destruct (files !! p) as [content|]; [|reflexivity]. simpl.
    rewrite kept_none by (intros imp []). rewrite join_split.
    destruct (writable p); reflexivity.
Qed.

Lemma unused_imports_removed_exactly_witness :
  exists fixed,
    snd (Fixer.removeUnusedImports (fun _ => true) FixSample.unused FixSample.files)
      = Ret fixed
    /\ fixed
       = length
           (List.filter
              (fun imp =>
                 match Fixer.line_of FixSample.files (ui_file imp) (ui_line imp) with
                 | Some line =>
                     JsString.includes line "import"
                     && JsString.includes line (ui_importName imp)
                 | None => false
                 end) FixSample.unused)
    /\ forall p,
         fst (Fixer.removeUnusedImports (fun _ => true) FixSample.unused
                FixSample.files) !! p
         = (fun content =>
              if (fun _ : string => true) p
              then JsString.join (String Fixer.newline "")
                     (Fixer.kept
                        (List.filter (fun imp => String.eqb (ui_file imp) p)
                           FixSample.unused)
                        1 (JsString.split Fixer.newline content))
              else content) <$> FixSample.files !! p.
Proof.
  apply (unused_imports_removed_exactly (fun _ => true) FixSample.unused
           FixSample.files).
  vm_compute. repeat constructor. intros [].
Defined.

(* ===================================================================== *)
(** * The exports recorded in the graph *)
(* ===================================================================== *)

Section GraphExports.
Variable env : Env.

Lemma exports_after_import filePath imp nodes a :
  exports_at (after_import env filePath imp nodes) a = exports_at nodes a.
Proof.
  unfold exports_at, after_import.
  destruct (FileUtils.resolveImportPath _ _ _ _) as [rp|]; [|reflexivity].
  destruct (JsMap.has nodes rp); [|reflexivity].
  rewrite get_after_edge.
  destruct (JsMap.get nodes a) as [n|]; [|reflexivity]. simpl.
  destruct (String.eqb rp a), (String.eqb filePath a); reflexivity.
Qed.

Lemma exports_after_imports filePath imps a : forall nodes,
  exports_at (fst (for_of imps (GraphBuilder.add_import env filePath) nodes)) a
  = exports_at nodes a.
Proof.
  induction imps as [|imp imps IH]; intros nodes; [reflexivity|].
  rewrite for_of_cons, add_import_eq, IH. apply exports_after_import.
Qed.

Lemma processFile_exports filePath rootPath nodes a :
  exports_at (fst (GraphBuilder.processFile env filePath rootPath nodes)) a
  = (if String.eqb filePath a then with_exports env filePath else id)
    <$> exports_at nodes a.
Proof.
  assert (Hid : exports_at nodes a
                = (if String.eqb filePath a then id else id) <$> exports_at nodes a).
  { destruct (String.eqb filePath a), (exports_at nodes a); reflexivity. }
  unfold GraphBuilder.processFile.
  destruct (JsMap.get nodes filePath) as [n0|] eqn:E0.
  - unfold try_catch, mbind, lift, with_exports, exports_of,
      ASTParser.extractImports, ASTParser.extractExports.
    destruct (FileUtils.readFile env filePath) as [content|e]; simpl.
    2:{ destruct (String.eqb filePath a), (exports_at nodes a); reflexivity. }
    destruct (ASTParser.parse (babel_parse env) content (isTypeScriptFile filePath))
      as [ast|e]; simpl.
    2:{ destruct (String.eqb filePath a), (exports_at nodes a); reflexivity. }
    pose proof (exports_after_imports filePath
                  (Ast.traverse ASTParser.visit_ImportDeclaration ast) a nodes) as Hexp.
    destruct (add_imports_effect env filePath
                (Ast.traverse ASTParser.visit_ImportDeclaration ast) nodes)
      as (Hret & _ & _).
    destruct (for_of _ (GraphBuilder.add_import env filePath) nodes) as [s1 r1].
    simpl in Hret, Hexp. subst r1. unfold mmodify. simpl.
    rewrite <- Hexp. unfold exports_at. rewrite jsmap_get_update.
    destruct (String.eqb filePath a), (JsMap.get s1 a); reflexivity.
  - simpl. unfold exports_at.
    destruct (String.eqb filePath a) eqn:E.
    + apply String.eqb_eq in E. subst a. rewrite E0. reflexivity.
    + destruct (JsMap.get nodes a); reflexivity.
Qed.

Lemma edge_phase_exports targetPath (todo : list string) a : forall nodes,
  exports_at (fst (edge_phase env targetPath todo nodes)) a
  = (if existsb (String.eqb a) todo then with_exports env a else id)
    <$> exports_at nodes a.
Proof.
  unfold edge_phase.
  induction todo as [|file todo IH]; intros nodes.
  - simpl. destruct (exports_at nodes a); reflexivity.
  - rewrite for_of_cons.
    pose proof (processFile_ret env file targetPath nodes) as Hret.
    pose proof (processFile_exports file targetPath nodes a) as Hexp.
    destruct (GraphBuilder.processFile env file targetPath nodes) as [s1 r1].
    simpl in Hret, Hexp. subst r1. rewrite IH, Hexp. simpl existsb.
    rewrite (String.eqb_sym a file).
    destruct (String.eqb file a) eqn:E.
    + apply String.eqb_eq in E. subst file. simpl.
      destruct (exports_at nodes a) as [old|]; [|destruct (existsb _ todo); reflexivity].
      simpl. unfold with_exports.
      destruct (existsb _ todo), (exports_of env a); reflexivity.
    + simpl. destruct (exports_at nodes a); reflexivity.
Qed.

Lemma node_phase_fresh (files : list string) a : forall nodes,
  JsMap.get (fst (node_phase files nodes)) a
  = if existsb (String.eqb a) files then Some (GraphBuilder.fresh_node a)
    else JsMap.get nodes a.
Proof.
  unfold node_phase.
  induction files as [|file files IH]; intros nodes; [reflexivity|].
  rewrite for_of_cons. unfold mmodify at 1. rewrite IH, jsmap_get_set. simpl existsb.
  rewrite (String.eqb_sym a file).
  destruct (String.eqb file a) eqn:E.
  - apply String.eqb_eq in E. subst file. simpl.
    destruct (existsb _ files); reflexivity.
  - simpl. reflexivity.
Qed.

End GraphExports.

(** X24. In the graph [build] makes of a file list, the [exports] of a
    node are what [extractExports] returns for the text of its file, and
    they are empty when the file cannot be read or parsed. *)
Theorem graph_exports (env : Env) (targetPath : string) (files : list string)
    (a : string) (na : DependencyNode) :
  GraphBuilder.getNode
    (fst (GraphBuilder.build env targetPath (Some files) GraphBuilder.new)) a = Some na ->
  exports na = match exports_of env a with
               | Ret names => names
               | Raise _ => []
               end.
Proof.
  destruct (build_cases env targetPath (Some files))
    as [[[=] _]|(l & [[= <-]|[[=] _]] & Hrun)].
  rewrite Hrun. simpl fst. unfold GraphBuilder.getNode. intros Hget.
  pose proof (edge_phase_exports env targetPath files a
                (fst (node_phase files GraphBuilder.new))) as Hexp.
  unfold built in Hget. unfold exports_at in Hexp at 1. rewrite Hget in Hexp.
  unfold exports_at in Hexp. rewrite node_phase_fresh in Hexp.
  destruct (existsb (String.eqb a) files); simpl in Hexp.
  - injection Hexp as ->. reflexivity.
  - discriminate.
Qed.

Lemma graph_exports_witness :
  exports {| path := "/app/limit.ts"; imports := []; importedBy := [];
             exports := ["limit"; "default"] |}
  = match exports_of MoreSamples.app "/app/limit.ts" with
    | Ret names => names
    | Raise _ => []
    end.
Proof.
  apply (graph_exports MoreSamples.app "/app" ["/app/catch.ts"; "/app/limit.ts"]
           "/app/limit.ts").
  vm_compute. reflexivity.
Defined.
